(** * Data-Lineage-Mapper: a shallow embedding of the Streamlit application

    The definitions follow the repository's modules and the Python
    libraries they lean on:
    - [PyStr]      Python [str] values as sequences of Unicode code points,
                   with [str.strip], [str.startswith] and the UTF-8 codec;
    - [Json]       the values [json.loads] returns, and [json.dumps];
    - [JsonDecoder] [json.loads];
    - [Runtime]    the Python process: exceptions, the provider, the session
                   state, the events a run emits, and the monad that threads
                   them;
    - [AiLogic]    ai_logic.py: the check of the key, the lazily initialised
                   model handle and the two gateway calls;
    - [Visualizer] lineage_visualizer.py: the directed graph built from a
                   structured response, and its rendering;
    - [App]        main.py, features.py and additional_features.py: one run
                   of the Streamlit script over the session state;
    - [Scenarios]  concrete providers, responses and sessions.
    The properties come after them, module by module.

    Console [print]s and purely presentational Streamlit calls (titles,
    rules, style sheets, captions, tabs, columns) neither read nor write the
    modelled state and are left out of the event traces.  Numbers with a
    fraction or an exponent (Python [float]) are outside the model of JSON
    values. *)

From Stdlib Require Import String Ascii NArith ZArith List Bool Lia.
From Stdlib Require Import DecimalN DecimalPos DecimalFacts.
From stdpp Require Import base option list gmap strings.

Local Open Scope N_scope.

(* ===================================================================== *)
(** ** Python strings *)
(* ===================================================================== *)

Module PyStr.

(** A Python [str] is a sequence of code points; [bytes] a sequence of
    octets. *)
Definition pystr := list N.
Definition bytes := list Byte.byte.

Definition is_surrogate (c : N) : bool := (0xD800 <=? c) && (c <=? 0xDFFF).
Definition is_cont (b : N) : bool := (0x80 <=? b) && (b <=? 0xBF).

(** [bytes.decode('utf-8')]; with [pass] the [surrogatepass] error handler
    that [json.loads] uses for byte input.  [None] is UnicodeDecodeError. *)
Fixpoint decode_utf8_N (pass : bool) (bs : list N) : option pystr :=
  match bs with
  | [] => Some []
  | b0 :: r =>
    if b0 <? 0x80 then cons b0 <$> decode_utf8_N pass r
    else if (0xC2 <=? b0) && (b0 <=? 0xDF) then
      match r with
      | b1 :: r =>
        if is_cont b1
        then cons (N.lor (N.shiftl (N.land b0 0x1F) 6) (N.land b1 0x3F))
               <$> decode_utf8_N pass r
        else None
      | _ => None
      end
    else if (0xE0 <=? b0) && (b0 <=? 0xEF) then
      match r with
      | b1 :: b2 :: r =>
        let c := N.lor (N.shiftl (N.land b0 0x0F) 12)
                   (N.lor (N.shiftl (N.land b1 0x3F) 6) (N.land b2 0x3F)) in
        if is_cont b1 && is_cont b2 && (0x800 <=? c)
           && (pass || negb (is_surrogate c))
        then cons c <$> decode_utf8_N pass r
        else None
      | _ => None
      end
    else if (0xF0 <=? b0) && (b0 <=? 0xF4) then
      match r with
      | b1 :: b2 :: b3 :: r =>
        let c := N.lor (N.shiftl (N.land b0 0x07) 18)
                   (N.lor (N.shiftl (N.land b1 0x3F) 12)
                      (N.lor (N.shiftl (N.land b2 0x3F) 6) (N.land b3 0x3F))) in
        if is_cont b1 && is_cont b2 && is_cont b3
           && (0x10000 <=? c) && (c <=? 0x10FFFF)
        then cons c <$> decode_utf8_N pass r
        else None
      | _ => None
      end
    else None
  end.

Definition decode_utf8 (pass : bool) (bs : bytes) : option pystr :=
  decode_utf8_N pass (map Byte.to_N bs).

Definition byte_of_N (n : N) : Byte.byte :=
  match Byte.of_N n with Some b => b | None => Byte.x00 end.

(** [str.encode('utf-8')]: a lone surrogate raises UnicodeEncodeError
    ([None]); code points above U+10FFFF do not occur in a [str]. *)
Definition encode_char (c : N) : option (list N) :=
  if c <? 0x80 then Some [c]
  else if c <? 0x800 then
    Some [N.lor 0xC0 (N.shiftr c 6); N.lor 0x80 (N.land c 0x3F)]
  else if c <? 0x10000 then
    if is_surrogate c then None
    else Some [N.lor 0xE0 (N.shiftr c 12);
               N.lor 0x80 (N.land (N.shiftr c 6) 0x3F);
               N.lor 0x80 (N.land c 0x3F)]
  else if c <? 0x110000 then
    Some [N.lor 0xF0 (N.shiftr c 18);
          N.lor 0x80 (N.land (N.shiftr c 12) 0x3F);
          N.lor 0x80 (N.land (N.shiftr c 6) 0x3F);
          N.lor 0x80 (N.land c 0x3F)]
  else None.

Fixpoint encode_utf8 (s : pystr) : option bytes :=
  match s with
  | [] => Some []
  | c :: r =>
    match encode_char c, encode_utf8 r with
    | Some bs, Some rest => Some (map byte_of_N bs ++ rest)
    | _, _ => None
    end
  end.

(** A literal of the Python source, written in this file as its UTF-8
    text. *)
Definition u (s : string) : pystr :=
  default [] (decode_utf8 false (list_byte_of_string s)).

(** The double quote, which a literal of this file cannot hold. *)
Definition dq : pystr := [34].

(** [str.isspace] on one character (Py_UNICODE_ISSPACE). *)
Definition py_isspace (c : N) : bool :=
  ((0x09 <=? c) && (c <=? 0x0D)) || ((0x1C <=? c) && (c <=? 0x20))
  || (c =? 0x85) || (c =? 0xA0) || (c =? 0x1680)
  || ((0x2000 <=? c) && (c <=? 0x200A))
  || (c =? 0x2028) || (c =? 0x2029) || (c =? 0x202F) || (c =? 0x205F)
  || (c =? 0x3000).

Fixpoint lstrip (s : pystr) : pystr :=
  match s with
  | c :: r => if py_isspace c then lstrip r else s
  | [] => []
  end.

(** [s.strip()] *)
Definition strip (s : pystr) : pystr := rev (lstrip (rev (lstrip s))).

(** [s.startswith(p)] *)
Fixpoint startswith (p s : pystr) : bool :=
  match p, s with
  | [], _ => true
  | a :: p, b :: s => (a =? b) && startswith p s
  | _ :: _, [] => false
  end.

Definition pystr_eqb (a b : pystr) : bool := bool_decide (a = b).

(** The error sentinel: U+274C CROSS MARK. *)
Definition sentinel : pystr := u "❌".

Arguments u : simpl never.
Arguments sentinel : simpl never.

End PyStr.
Export PyStr.

(* ===================================================================== *)
(** ** JSON values, [json.dumps] *)
(* ===================================================================== *)

Module Json.

(** What [json.loads] returns: [None], [bool], [int], [str], [list] and
    [dict] with [str] keys.  A [dict] keeps its keys in insertion order; its
    keys are pairwise distinct.  Numbers with a fraction or an
    exponent (Python [float]) are outside this model, and an [int] is any
    integer: the limit that recent versions of CPython put on the number
    of digits of a decimal conversion is not modelled. *)
#[warnings="-register-all"]
Inductive json :=
| JNull
| JBool (b : bool)
| JInt (z : Z)
| JStr (s : pystr)
| JArr (l : list json)
| JObj (o : list (pystr * json)).

Definition dict := list (pystr * json).

Section json_induction.
Variable P : json -> Prop.
Hypothesis Hnull : P JNull.
Hypothesis Hbool : forall b, P (JBool b).
Hypothesis Hint : forall z, P (JInt z).
Hypothesis Hstr : forall s, P (JStr s).
Hypothesis Harr : forall l, Forall P l -> P (JArr l).
Hypothesis Hobj : forall o, Forall (fun kv => P (snd kv)) o -> P (JObj o).

Fixpoint json_nested_ind (v : json) : P v :=
  match v with
  | JNull => Hnull
  | JBool b => Hbool b
  | JInt z => Hint z
  | JStr s => Hstr s
  | JArr l =>
      Harr l ((fix go (l : list json) : Forall P l :=
                 match l with
                 | [] => @List.Forall_nil _ P
                 | x :: r => @List.Forall_cons _ P x r (json_nested_ind x) (go r)
                 end) l)
  | JObj o =>
      Hobj o ((fix go (o : dict) : Forall (fun kv => P (snd kv)) o :=
                 match o with
                 | [] => @List.Forall_nil _ _
                 | kv :: r =>
                     @List.Forall_cons _ (fun kv => P (snd kv)) kv r
                       (json_nested_ind (snd kv)) (go r)
                 end) o)
  end.
End json_induction.

(** [d.get(k)]: [None] stands for the absent key. *)
Fixpoint dict_get (k : pystr) (d : dict) : option json :=
  match d with
  | [] => None
  | (k', v) :: r => if pystr_eqb k' k then Some v else dict_get k r
  end.

(** [d.get(k, dflt)] *)
Definition dict_get_default (k : pystr) (dflt : json) (d : dict) : json :=
  default dflt (dict_get k d).

(** [d[k] = v]: an existing key keeps its place. *)
Fixpoint dict_set (k : pystr) (v : json) (d : dict) : dict :=
  match d with
  | [] => [(k, v)]
  | (k', v') :: r =>
      if pystr_eqb k' k then (k', v) :: r else (k', v') :: dict_set k v r
  end.

(** [dict(pairs)] *)
Definition dict_of_pairs (ps : list (pystr * json)) : dict :=
  fold_left (fun d kv => dict_set (fst kv) (snd kv) d) ps [].

(** Truth value of an object, as [if x:] and [not x] take it. *)
Definition truthy (v : json) : bool :=
  match v with
  | JNull => false
  | JBool b => b
  | JInt z => negb (Z.eqb z 0)
  | JStr s => negb (pystr_eqb s [])
  | JArr l => match l with [] => false | _ => true end
  | JObj o => match o with [] => false | _ => true end
  end.

(** [x.get(k)] truthy, with [None] for the absent key. *)
Definition truthy_opt (o : option json) : bool :=
  match o with Some v => truthy v | None => false end.

(** *** The encoder of [json.dumps] ([ensure_ascii=True]) *)

Definition hex_digit (n : N) : N := if n <? 10 then 48 + n else 87 + n.

(** ['{0:04x}'.format(n)] for [n < 0x10000] *)
Definition hex4 (n : N) : pystr :=
  [hex_digit (n / 4096 mod 16); hex_digit (n / 256 mod 16);
   hex_digit (n / 16 mod 16); hex_digit (n mod 16)].

Definition backslash : N := 92.

(** The replacement of one character by [py_encode_basestring_ascii]:
    the quote, the backslash and every character outside the range from
    the space to the tilde are replaced. *)
Definition escape_char (c : N) : pystr :=
  if c =? 34 then [backslash; 34]
  else if c =? 92 then [backslash; backslash]
  else if (0x20 <=? c) && (c <=? 0x7E) then [c]
  else if c =? 10 then [backslash; 110]
  else if c =? 13 then [backslash; 114]
  else if c =? 9 then [backslash; 116]
  else if c =? 8 then [backslash; 98]
  else if c =? 12 then [backslash; 102]
  else if c <? 0x10000 then [backslash; 117] ++ hex4 c
  else
    let n := c - 0x10000 in
    let s1 := N.lor 0xD800 (N.land (N.shiftr n 10) 0x3FF) in
    let s2 := N.lor 0xDC00 (N.land n 0x3FF) in
    [backslash; 117] ++ hex4 s1 ++ [backslash; 117] ++ hex4 s2.

Definition encode_basestring_ascii (s : pystr) : pystr :=
  [34] ++ flat_map escape_char s ++ [34].

Fixpoint digits_of_uint (d : Decimal.uint) : pystr :=
  match d with
  | Decimal.Nil => []
  | Decimal.D0 d => 48 :: digits_of_uint d
  | Decimal.D1 d => 49 :: digits_of_uint d
  | Decimal.D2 d => 50 :: digits_of_uint d
  | Decimal.D3 d => 51 :: digits_of_uint d
  | Decimal.D4 d => 52 :: digits_of_uint d
  | Decimal.D5 d => 53 :: digits_of_uint d
  | Decimal.D6 d => 54 :: digits_of_uint d
  | Decimal.D7 d => 55 :: digits_of_uint d
  | Decimal.D8 d => 56 :: digits_of_uint d
  | Decimal.D9 d => 57 :: digits_of_uint d
  end.

(** [int.__repr__] *)
Definition int_repr (z : Z) : pystr :=
  match z with
  | Z0 => [48]
  | Zpos p => digits_of_uint (Pos.to_uint p)
  | Zneg p => 45 :: digits_of_uint (Pos.to_uint p)
  end.

(** [sep.join(parts)] *)
Fixpoint join (sep : pystr) (parts : list pystr) : pystr :=
  match parts with
  | [] => []
  | [p] => p
  | p :: ps => p ++ sep ++ join sep ps
  end.

Section Encoder.
(** [indent=None] or [indent=n]; the separators follow from it as in
    [JSONEncoder.__init__]. *)
Variable indent : option nat.

Definition item_separator : pystr :=
  match indent with Some _ => [44] | None => [44; 32] end.
Definition key_separator : pystr := [58; 32].
Definition newline_indent (level : nat) : pystr :=
  match indent with
  | Some n => 10 :: repeat 32 (n * level)%nat
  | None => []
  end.

Fixpoint iterencode (o : json) (level : nat) : pystr :=
  match o with
  | JNull => u "null"
  | JBool true => u "true"
  | JBool false => u "false"
  | JInt z => int_repr z
  | JStr s => encode_basestring_ascii s
  | JArr [] => u "[]"
  | JArr l =>
      [91] ++ newline_indent (S level)
      ++ join (item_separator ++ newline_indent (S level))
           (map (fun v => iterencode v (S level)) l)
      ++ newline_indent level ++ [93]
  | JObj [] => u "{}"
  | JObj d =>
      [123] ++ newline_indent (S level)
      ++ join (item_separator ++ newline_indent (S level))
           (map (fun kv => encode_basestring_ascii (fst kv) ++ key_separator
                           ++ iterencode (snd kv) (S level)) d)
      ++ newline_indent level ++ [125]
  end.
End Encoder.

(** [json.dumps(o)] and [json.dumps(o, indent=n)] *)
Definition dumps (indent : option nat) (o : json) : pystr := iterencode indent o 0.

End Json.
Export Json.

(* ===================================================================== *)
(** ** [json.loads] *)
(* ===================================================================== *)

Module JsonDecoder.

(** The scanner works on the text that remains to be read, where the
    Python code keeps the whole text and an index into it. *)

Definition is_ws (c : N) : bool := (c =? 32) || (c =? 9) || (c =? 10) || (c =? 13).

(** [WHITESPACE.match(s, end).end()] *)
Fixpoint skip_ws (s : pystr) : pystr :=
  match s with
  | c :: r => if is_ws c then skip_ws r else s
  | [] => []
  end.

Definition is_digit (c : N) : bool := (48 <=? c) && (c <=? 57).

Definition hex_val (c : N) : option N :=
  if (48 <=? c) && (c <=? 57) then Some (c - 48)
  else if (97 <=? c) && (c <=? 102) then Some (c - 87)
  else if (65 <=? c) && (c <=? 70) then Some (c - 55)
  else None.

(** [_decode_uXXXX] on the four characters after the [u] *)
Definition decode_uXXXX (a b c d : N) : option N :=
  match hex_val a, hex_val b, hex_val c, hex_val d with
  | Some x, Some y, Some z, Some w => Some (x * 4096 + y * 256 + z * 16 + w)
  | _, _, _, _ => None
  end.

(** The [BACKSLASH] table *)
Definition backslash_escape (esc : N) : option N :=
  if esc =? 34 then Some 34
  else if esc =? 92 then Some 92
  else if esc =? 47 then Some 47
  else if esc =? 98 then Some 8
  else if esc =? 102 then Some 12
  else if esc =? 110 then Some 10
  else if esc =? 114 then Some 13
  else if esc =? 116 then Some 9
  else None.

Definition is_high_surrogate (c : N) : bool := (0xD800 <=? c) && (c <=? 0xDBFF).
Definition is_low_surrogate (c : N) : bool := (0xDC00 <=? c) && (c <=? 0xDFFF).

Definition prepend (c : N) (r : option (pystr * pystr)) : option (pystr * pystr) :=
  match r with
  | Some (str, rest) => Some (c :: str, rest)
  | None => None
  end.

(** [py_scanstring(s, end, strict=True)], from the character after the
    opening quote: the string and the text after its closing quote. *)
Fixpoint scanstring (s : pystr) : option (pystr * pystr) :=
  match s with
  | [] => None
  | c :: r =>
      if c =? 34 then Some ([], r)
      else if c =? 92 then
        match r with
        | [] => None
        | esc :: r1 =>
            if esc =? 117 then
              match r1 with
              | h1 :: h2 :: h3 :: h4 :: r2 =>
                  match decode_uXXXX h1 h2 h3 h4 with
                  | None => None
                  | Some uni =>
                      match r2 with
                      | e1 :: e2 :: r3 =>
                          if is_high_surrogate uni && (e1 =? 92) && (e2 =? 117) then
                            match r3 with
                            | x1 :: x2 :: x3 :: x4 :: r4 =>
                                match decode_uXXXX x1 x2 x3 x4 with
                                | None => None
                                | Some uni2 =>
                                    if is_low_surrogate uni2 then
                                      prepend
                                        (0x10000 + N.lor (N.shiftl (uni - 0xD800) 10)
                                                     (uni2 - 0xDC00))
                                        (scanstring r4)
                                    else prepend uni (scanstring r2)
                                end
                            | _ => None
                            end
                          else prepend uni (scanstring r2)
                      | _ => prepend uni (scanstring r2)
                      end
                  end
              | _ => None
              end
            else
              match backslash_escape esc with
              | Some ch => prepend ch (scanstring r1)
              | None => None
              end
        end
      else if c <? 0x20 then None
      else prepend c (scanstring r)
  end.

Fixpoint span_digits (s : pystr) : pystr * pystr :=
  match s with
  | c :: r =>
      if is_digit c then let (ds, rest) := span_digits r in (c :: ds, rest)
      else ([], s)
  | [] => ([], [])
  end.

Fixpoint uint_of_digits (ds : pystr) : Decimal.uint :=
  match ds with
  | [] => Decimal.Nil
  | c :: r =>
      let d := uint_of_digits r in
      if c =? 48 then Decimal.D0 d else if c =? 49 then Decimal.D1 d
      else if c =? 50 then Decimal.D2 d else if c =? 51 then Decimal.D3 d
      else if c =? 52 then Decimal.D4 d else if c =? 53 then Decimal.D5 d
      else if c =? 54 then Decimal.D6 d else if c =? 55 then Decimal.D7 d
      else if c =? 56 then Decimal.D8 d else Decimal.D9 d
  end.

(** The integer part of [NUMBER_RE]: [0], or a non-zero digit and more
    digits. *)
Definition integer_part (s : pystr) : option (pystr * pystr) :=
  match s with
  | c :: r =>
      if c =? 48 then Some ([48], r)
      else if is_digit c then let (ds, rest) := span_digits r in Some (c :: ds, rest)
      else None
  | [] => None
  end.

(** Does a fraction [\.\d+] or an exponent [[eE][-+]?\d+] follow? *)
Definition fraction_follows (s : pystr) : bool :=
  match s with
  | c :: d :: _ => (c =? 46) && is_digit d
  | _ => false
  end.

Definition exponent_follows (s : pystr) : bool :=
  match s with
  | c :: d :: r =>
      ((c =? 101) || (c =? 69))
      && (is_digit d
          || (((d =? 43) || (d =? 45))
              && match r with e :: _ => is_digit e | [] => false end))
  | _ => false
  end.

(** [match_number] and the conversion of the match.  A match with a
    fraction or an exponent is a [float]: outside the model, [None]. *)
Definition scan_number (s : pystr) : option (json * pystr) :=
  let (negative, s1) :=
    match s with
    | c :: r => if c =? 45 then (true, r) else (false, s)
    | [] => (false, s)
    end in
  match integer_part s1 with
  | None => None
  | Some (ds, rest) =>
      if fraction_follows rest || exponent_follows rest then None
      else
        let n := Z.of_N (N.of_uint (uint_of_digits ds)) in
        Some (JInt (if negative then - n else n)%Z, rest)
  end.

Definition expect (lit : pystr) (v : json) (s : pystr) : option (json * pystr) :=
  if startswith lit s then Some (v, drop (length lit) s) else None.

Section Scanner.
(** [scan_once] for the values nested one level deeper. *)
Variable scan : pystr -> option (json * pystr).

(** The loop of [JSONArray], entered before a value. *)
Fixpoint array_loop (n : nat) (s : pystr) (values : list json)
  : option (json * pystr) :=
  match n with
  | O => None
  | S n =>
      match scan s with
      | None => None
      | Some (value, s) =>
          let values := values ++ [value] in
          match skip_ws s with
          | c :: s =>
              if c =? 93 then Some (JArr values, s)
              else if c =? 44 then array_loop n (skip_ws s) values
              else None
          | [] => None
          end
      end
  end.

(** [JSONArray], from the character after the bracket. *)
Definition JSONArray (n : nat) (s : pystr) : option (json * pystr) :=
  match skip_ws s with
  | c :: r => if c =? 93 then Some (JArr [], r) else array_loop n (skip_ws s) []
  | [] => None
  end.

(** The loop of [JSONObject], entered after the opening quote of a key. *)
Fixpoint object_loop (n : nat) (s : pystr) (pairs : list (pystr * json))
  : option (json * pystr) :=
  match n with
  | O => None
  | S n =>
      match scanstring s with
      | None => None
      | Some (key, s) =>
          match skip_ws s with
          | c :: s =>
              if c =? 58 then
                match scan (skip_ws s) with
                | None => None
                | Some (value, s) =>
                    let pairs := pairs ++ [(key, value)] in
                    match skip_ws s with
                    | c :: s =>
                        if c =? 125 then Some (JObj (dict_of_pairs pairs), s)
                        else if c =? 44 then
                          match skip_ws s with
                          | q :: s => if q =? 34 then object_loop n s pairs else None
                          | [] => None
                          end
                        else None
                    | [] => None
                    end
                end
              else None
          | [] => None
          end
      end
  end.

(** [JSONObject], from the character after the brace. *)
Definition JSONObject (n : nat) (s : pystr) : option (json * pystr) :=
  match skip_ws s with
  | c :: r =>
      if c =? 125 then Some (JObj [], r)
      else if c =? 34 then object_loop n r []
      else None
  | [] => None
  end.
End Scanner.

(** [scan_once]; [fuel] bounds the nesting and the length of the loops. *)
Fixpoint scan_once (fuel : nat) (s : pystr) : option (json * pystr) :=
  match fuel with
  | O => None
  | S fuel =>
      match s with
      | [] => None
      | c :: r =>
          if c =? 34 then
            match scanstring r with
            | Some (str, rest) => Some (JStr str, rest)
            | None => None
            end
          else if c =? 123 then JSONObject (scan_once fuel) fuel r
          else if c =? 91 then JSONArray (scan_once fuel) fuel r
          else if c =? 110 then expect (u "null") JNull s
          else if c =? 116 then expect (u "true") (JBool true) s
          else if c =? 102 then expect (u "false") (JBool false) s
          else scan_number s
      end
  end.

(** [json.loads(s)] for a [str]: [None] is JSONDecodeError, or a document
    outside the model. *)
Definition loads (s : pystr) : option json :=
  match s with
  | c :: _ => if c =? 0xFEFF then None else
      match scan_once (S (length s)) (skip_ws s) with
      | Some (v, rest) => match skip_ws rest with [] => Some v | _ => None end
      | None => None
      end
  | [] => None
  end.

(** [json.loads(b)] for [bytes] that [detect_encoding] takes for UTF-8. *)
Definition loads_bytes (b : bytes) : option json :=
  match decode_utf8 true b with
  | Some s => loads s
  | None => None
  end.

(** *** Well-formed values *)

(** A [str] of well-formed text: code points up to U+10FFFF, and no high
    surrogate directly before a low one (the decoder joins the escapes of
    such a pair into one character, so [json.loads] never returns one). *)
Fixpoint str_ok (s : pystr) : Prop :=
  match s with
  | [] => True
  | c :: r =>
      c < 0x110000
      /\ (is_high_surrogate c = true ->
          match r with c2 :: _ => is_low_surrogate c2 = false | [] => True end)
      /\ str_ok r
  end.

(** A value of well-formed strings, the keys of every dictionary pairwise
    distinct. *)
Fixpoint json_ok (v : json) : Prop :=
  match v with
  | JStr s => str_ok s
  | JArr l =>
      (fix all (l : list json) : Prop :=
         match l with [] => True | x :: r => json_ok x /\ all r end) l
  | JObj o =>
      NoDup (map fst o)
      /\ (fix all (o : dict) : Prop :=
            match o with
            | [] => True
            | kv :: r => (str_ok (fst kv) /\ json_ok (snd kv)) /\ all r
            end) o
  | _ => True
  end.

(** The number of values in a value. *)
Fixpoint size (v : json) : nat :=
  match v with
  | JArr l => S (list_sum (map size l))
  | JObj o => S (list_sum (map (fun kv => size (snd kv)) o))
  | _ => 1
  end.

End JsonDecoder.
Export JsonDecoder.

(* ===================================================================== *)
(** ** The shape of a document *)
(* ===================================================================== *)

(** What the encoder writes, in the terms the scanner reads it. *)
Module DocumentShape.

Definition ascii_only (s : pystr) : Prop := Forall (fun c => c < 0x80) s.

Definition ws_only (w : pystr) : Prop := forallb is_ws w = true.

(** What follows a value in a document: the end, white space, a comma or
    a closing bracket. *)
Definition delimited (rest : pystr) : Prop :=
  match rest with
  | [] => True
  | c :: _ => is_ws c = true \/ c = 44 \/ c = 93 \/ c = 125
  end.

(** The separator between two items: a comma, then white space. *)
Definition separator_space (indent : option nat) (level : nat) : pystr :=
  match indent with Some _ => [] | None => [32] end ++ newline_indent indent level.

(** A value starts with a character that is neither white space nor a
    closing bracket. *)
Definition value_start (s : pystr) : Prop :=
  match s with
  | c :: _ => is_ws c = false /\ c <> 93 /\ c <> 0xFEFF
  | [] => False
  end.

(** What may follow the escape of a high surrogate: nothing that reads as
    the escape of a low surrogate. *)
Definition safe_after_high (tail : pystr) : Prop :=
  match tail with
  | e1 :: e2 :: r3 =>
      ((e1 =? 92) && (e2 =? 117)) = true ->
      exists uni2 r4,
        r3 = hex4 uni2 ++ r4 /\ uni2 < 65536 /\ is_low_surrogate uni2 = false
  | _ => True
  end.

Section Items.
Variable scan : pystr -> option (json * pystr).
Variable enc : json -> pystr.

(** [scan] reads back the encoding of [x], whatever delimiter follows. *)
Definition reads_back (x : json) : Prop :=
  (forall r, delimited r -> scan (enc x ++ r) = Some (x, r))
  /\ value_start (enc x).

(** A member of an object: the key, the colon, the value. *)
Definition member (kv : pystr * json) : pystr :=
  encode_basestring_ascii (fst kv) ++ key_separator ++ enc (snd kv).

End Items.

End DocumentShape.
Export DocumentShape.

(* ===================================================================== *)
(** ** The running process: state, exceptions, events *)
(* ===================================================================== *)

Module Runtime.

(** The value of an attribute chain on an object, or the message of the
    AttributeError that evaluating the chain raises. *)
Inductive attribute (A : Type) :=
| Has (a : A)
| Lacks (message : pystr).
Arguments Has {A} a.
Arguments Lacks {A} message.

(** Exceptions, all of them subclasses of [Exception]; [exn_str] is
    [str(e)].  A BlockedPromptException is given with what
    [e.response.prompt_feedback.block_reason.name] evaluates to on it. *)
Inductive exn_class :=
| RuntimeError
| BlockedPromptException (block_reason_name : attribute pystr)
| JSONDecodeError
| AttributeError
| KeyError
| TypeError
| ValueError
| UnicodeEncodeError
| OtherException.

Record exn := Exn { exn_class_of : exn_class; exn_str : pystr }.

(** Streamlit's [st.stop()] and [st.rerun()] end the run by a
    script-control exception, which derives from [BaseException]:
    [except Exception] does not catch it. *)
Inductive control := StopException | RerunException.

(** How a call into a library or the provider ends. *)
Inductive outcome (A : Type) :=
| Returns (a : A)
| Raises (e : exn).
Arguments Returns {A} a.
Arguments Raises {A} e.

(** How a computation of the script ends. *)
Inductive result (A : Type) :=
| Done (a : A)
| Error (e : exn)
| Halt (c : control).
Arguments Done {A} a.
Arguments Error {A} e.
Arguments Halt {A} c.

(** The provider's answer to [generate_content]: a response is a list of
    candidates, a candidate has a content (falsy when unset), a content a
    list of parts, a part its text. *)
Record part := { text : pystr }.
Record content := { parts : list part }.
Record candidate := { candidate_content : option content }.
Record response := { candidates : list candidate }.

Record model_info := { name : pystr; supported_generation_methods : list pystr }.

(** [genai.GenerativeModel(model_name)] *)
Record GenerativeModel := { model_name : pystr }.

(** The hosted service, with a state [W] of its own: whatever a call
    returns or raises may depend on all earlier calls. *)
Record provider (W : Type) := {
  list_models : W -> outcome (list model_info) * W;
  new_GenerativeModel : pystr -> W -> outcome GenerativeModel * W;
  generate_content :
    GenerativeModel -> pystr -> option json -> W -> outcome (option response) * W
}.
Arguments list_models {W} _ _.
Arguments new_GenerativeModel {W} _ _ _.
Arguments generate_content {W} _ _ _ _ _.

(** Values held in [st.session_state]. *)
Inductive sval :=
| SBool (b : bool)
| SStr (s : pystr)
| SJson (v : json).

Inductive event :=
| ev_list_models
| ev_generate_content (model : GenerativeModel) (prompt : pystr) (schema : option json)
| st_warning (body : pystr)
| st_info (body : pystr)
| st_error (body : pystr)
| st_success (body : pystr)
| st_markdown (body : pystr)
| st_exception (e : exn)
| st_download_button (label : pystr) (data : bytes) (file_name mime key : pystr)
| st_iframe (src : pystr).

(** The Python process: the provider, the module global of ai_logic.py,
    whether ai_logic has been imported, and Streamlit's session state. *)
Record process (W : Type) := {
  world : W;
  ai_logic_imported : bool;
  _gemini_model_instance : option GenerativeModel;
  session_state : gmap string sval
}.
Arguments world {W} _.
Arguments ai_logic_imported {W} _.
Arguments _gemini_model_instance {W} _.
Arguments session_state {W} _.

Section Monad.
Context {W : Type}.

(** A computation runs from a process state to a result, the state it
    leaves (kept when it raises) and the events it emitted. *)
Definition M (A : Type) : Type :=
  process W -> result A * process W * list event.

Definition ret {A} (a : A) : M A := fun st => (Done a, st, []).
Definition raise {A} (e : exn) : M A := fun st => (Error e, st, []).
Definition halt {A} (c : control) : M A := fun st => (Halt c, st, []).
Definition bind {A B} (m : M A) (k : A -> M B) : M B :=
  fun st =>
    match m st with
    | (Done a, st1, tr1) =>
        match k a st1 with (r, st2, tr2) => (r, st2, tr1 ++ tr2) end
    | (Error e, st1, tr1) => (Error e, st1, tr1)
    | (Halt c, st1, tr1) => (Halt c, st1, tr1)
    end.
(** [try: m  except Exception as e: h e] *)
Definition try_except {A} (m : M A) (h : exn -> M A) : M A :=
  fun st =>
    match m st with
    | (Error e, st1, tr1) =>
        match h e st1 with (r, st2, tr2) => (r, st2, tr1 ++ tr2) end
    | other => other
    end.
(** [try: r = m  except Exception as e: ...], the outcome handed to the
    code after the [try]. *)
Definition attempt {A} (m : M A) : M (outcome A) :=
  fun st =>
    match m st with
    | (Done a, st1, tr1) => (Done (Returns a), st1, tr1)
    | (Error e, st1, tr1) => (Done (Raises e), st1, tr1)
    | (Halt c, st1, tr1) => (Halt c, st1, tr1)
    end.
Definition emit (e : event) : M unit := fun st => (Done tt, st, [e]).
Definition get_state : M (process W) := fun st => (Done st, st, []).
Definition put_state (st' : process W) : M unit := fun _ => (Done tt, st', []).
(** An outcome of a library call, continued or raised. *)
Definition lift {A} (o : outcome A) : M A :=
  match o with
  | Returns a => ret a
  | Raises e => raise e
  end.
End Monad.

Notation "'let*' x ':=' m 'in' k" := (bind m (fun x => k))
  (at level 10, x name, m at level 100, k at level 200).
Notation "m ';;;' k" := (bind m (fun _ => k))
  (at level 100, k at level 200, right associativity).

Definition set_world {W} (w : W) (st : process W) : process W :=
  {| world := w; ai_logic_imported := ai_logic_imported st;
     _gemini_model_instance := _gemini_model_instance st;
     session_state := session_state st |}.
Definition set_instance {W} (m : option GenerativeModel) (st : process W) : process W :=
  {| world := world st; ai_logic_imported := ai_logic_imported st;
     _gemini_model_instance := m; session_state := session_state st |}.
Definition set_session {W} (s : gmap string sval) (st : process W) : process W :=
  {| world := world st; ai_logic_imported := ai_logic_imported st;
     _gemini_model_instance := _gemini_model_instance st; session_state := s |}.
Definition set_imported {W} (b : bool) (st : process W) : process W :=
  {| world := world st; ai_logic_imported := b;
     _gemini_model_instance := _gemini_model_instance st;
     session_state := session_state st |}.

(** A call to the provider: the event is recorded, the provider's state
    advances, the outcome is returned or raised. *)
Definition call {W A} (evs : list event) (f : W -> outcome A * W) : M (W:=W) A :=
  fun st =>
    match f (world st) with
    | (Returns a, w) => (Done a, set_world w st, evs)
    | (Raises e, w) => (Error e, set_world w st, evs)
    end.

End Runtime.
Export Runtime.

(* ===================================================================== *)
(** ** ai_logic.py *)
(* ===================================================================== *)

Module AiLogic.

Definition placeholder_key : pystr := u "YOUR_ACTUAL_GEMINI_API_KEY_HERE".

(** Lines 13-20, run when the module is imported: [GOOGLE_API_KEY] is the
    value of the environment variable after the .env file was loaded. *)
Definition api_key_error_message : pystr :=
  u "❌ GEMINI_API_KEY not found or is the placeholder value in your .env file. Please set it correctly to use AI features. Refer to the README for setup instructions.".

Definition api_key_rejected (GOOGLE_API_KEY : option pystr) : bool :=
  match GOOGLE_API_KEY with
  | None => true
  | Some k => pystr_eqb k [] || pystr_eqb k placeholder_key
  end.

Definition import_ai_logic {W} (GOOGLE_API_KEY : option pystr) : M (W:=W) unit :=
  let* st := get_state in
  if ai_logic_imported st then ret tt
  else if api_key_rejected GOOGLE_API_KEY
  then raise (Exn RuntimeError api_key_error_message)
  else put_state (set_imported true (set_instance None st)).

Definition preferred_order : list pystr :=
  [u "models/gemini-1.5-flash"; u "models/gemini-pro"; u "models/gemini-1.5-pro"].

Definition pystr_in (x : pystr) (l : list pystr) : bool := existsb (pystr_eqb x) l.

(** Lines 38-41 *)
Definition available_models (ms : list model_info) : list pystr :=
  map name
    (List.filter (fun m => pystr_in (u "generateContent") (supported_generation_methods m)) ms).

(** Lines 50-54: the loop over [preferred_order] with its [break]. *)
Fixpoint first_preferred (prefs available : list pystr) : option pystr :=
  match prefs with
  | [] => None
  | preferred_model :: rest =>
      if pystr_in preferred_model available then Some preferred_model
      else first_preferred rest available
  end.

(** Lines 50-57 *)
Definition choose_model_name (available : list pystr) : option pystr :=
  match first_preferred preferred_order available with
  | Some n => Some n
  | None => match available with a :: _ => Some a | [] => None end
  end.

Definition no_suitable_model : exn :=
  Exn OtherException
    (u "No suitable Gemini model found that supports 'generateContent'. Please ensure your API key is correct and valid, or check Google AI Studio for available models.").

Definition failed_to_initialize (chosen_model_name : pystr) : exn :=
  Exn OtherException
    (u "Failed to initialize Gemini model '" ++ chosen_model_name
     ++ u "'. Please check your API key and network access.").

Section Gateway.
Context {W : Type}.
Variable genai : provider W.
(** [json.loads] on the text of a part: the parsed value,
    [JSONDecodeError], or whatever else it raises. *)
Variable json_loads : pystr -> outcome json.

Local Abbreviation M := (M (W:=W)).

Definition get_gemini_model : M GenerativeModel :=
  let* st := get_state in
  match _gemini_model_instance st with
  | Some inst => ret inst
  | None =>
      let* ms := call [ev_list_models] (list_models genai) in
      let available := available_models ms in
      match choose_model_name available with
      | Some chosen_model_name =>
          if negb (pystr_eqb chosen_model_name []) then
            try_except
              (let* inst := call [] (new_GenerativeModel genai chosen_model_name) in
               let* st := get_state in
               put_state (set_instance (Some inst) st) ;;;
               ret inst)
              (fun e => raise (failed_to_initialize chosen_model_name))
          else raise no_suitable_model
      | None => raise no_suitable_model
      end
  end.

(** Lines 89-92: the text of the first part of the first candidate, when
    the response has one. *)
Definition first_part_text (r : option response) : option pystr :=
  match r with
  | Some r =>
      match candidates r with
      | c :: _ =>
          match candidate_content c with
          | Some ct => match parts ct with p :: _ => Some (text p) | [] => None end
          | None => None
          end
      | [] => None
      end
  | None => None
  end.

Definition ask_gemini_text (prompt : pystr) : M pystr :=
  let* got := attempt get_gemini_model in
  match got with
  | Raises e => ret (u "❌ AI Service Error: " ++ exn_str e)
  | Returns model_instance =>
     if pystr_eqb (strip prompt) [] then
       ret (u "❌ Please provide a valid prompt for the AI to process.")
     else
       try_except
         (let* response :=
            call [ev_generate_content model_instance prompt None]
              (generate_content genai model_instance prompt None) in
          match first_part_text response with
          | Some t => ret t
          | None =>
              ret (u "❌ AI did not return a valid text response. The AI might have refused the query or an internal error occurred. Please try again with different or simpler code.")
          end)
         (fun e =>
            match exn_class_of e with
            | BlockedPromptException (Has block_reason_name) =>
                ret (u "❌ AI Blocked Content: Your request for text generation was blocked due to safety policy. Details: "
                     ++ block_reason_name ++ u ".")
            | BlockedPromptException (Lacks message) =>
                raise (Exn AttributeError message)
            | _ =>
                ret (u "❌ Gemini Text API Call Failed: " ++ exn_str e
                     ++ u ". Possible issues: network problem, rate limit, or invalid API key/model access.")
            end)
  end.

Definition error_dict (msg : pystr) : json := JObj [(u "error", JStr msg)].

Definition ask_gemini_structured (prompt : pystr) (response_schema : json) : M json :=
  let* got := attempt get_gemini_model in
  match got with
  | Raises e => ret (error_dict (u "❌ AI Service Error (Structured): " ++ exn_str e))
  | Returns model_instance =>
     if pystr_eqb (strip prompt) [] then
       ret (error_dict (u "❌ Please provide a valid prompt for structured AI processing."))
     else if negb (truthy response_schema) then
       ret (error_dict (u "❌ A response_schema is required for structured AI output."))
     else
       try_except
         (let* response :=
            call [ev_generate_content model_instance prompt (Some response_schema)]
              (generate_content genai model_instance prompt (Some response_schema)) in
          match first_part_text response with
          | Some json_text =>
              match json_loads json_text with
              | Returns parsed_json => ret parsed_json
              | Raises json_e =>
                  match exn_class_of json_e with
                  | JSONDecodeError =>
                      ret (error_dict (u "❌ AI returned malformed JSON: " ++ exn_str json_e
                                       ++ u ". Raw: " ++ take 200 json_text ++ u "..."))
                  | _ => raise json_e
                  end
              end
          | None =>
              ret (error_dict (u "❌ AI did not return a valid structured response. It might have refused the query or an internal error occurred."))
          end)
         (fun e =>
            match exn_class_of e with
            | BlockedPromptException (Has block_reason_name) =>
                ret (error_dict (u "❌ AI Blocked Content (Structured): Your request for structured generation was blocked due to safety policy. Details: "
                                 ++ block_reason_name ++ u "."))
            | BlockedPromptException (Lacks message) =>
                raise (Exn AttributeError message)
            | _ =>
                ret (error_dict (u "❌ Gemini Structured API Call Failed: " ++ exn_str e
                                 ++ u ". Possible issues: network problem, rate limit, or invalid API key/model access."))
            end)
  end.

(** The call of [ask_gemini_text] went through: a handle was obtained, the
    prompt was not blank, the provider returned a response and [s] is the
    text of its first part. *)
Definition text_call_succeeds (prompt : pystr) (st : process W) (s : pystr) : Prop :=
  exists inst st1 tr1 response w2,
    get_gemini_model st = (Done inst, st1, tr1)
    /\ strip prompt <> []
    /\ generate_content genai inst prompt None (world st1) = (Returns response, w2)
    /\ first_part_text response = Some s.

(** The call of [ask_gemini_structured] went through, and [v] is the
    text of the first part, parsed. *)
Definition structured_call_succeeds (prompt : pystr) (schema : json)
  (st : process W) (v : json) : Prop :=
  exists inst st1 tr1 response w2 json_text,
    get_gemini_model st = (Done inst, st1, tr1)
    /\ strip prompt <> []
    /\ truthy schema = true
    /\ generate_content genai inst prompt (Some schema) (world st1)
       = (Returns response, w2)
    /\ first_part_text response = Some json_text
    /\ json_loads json_text = Returns v.

(** The handler of a blocked prompt raised [e]: an exception of class
    BlockedPromptException was raised on which the attribute chain of the
    handler (lines 97 and 146) cannot be evaluated, and [e] is the
    AttributeError of the chain. *)
Definition handler_of_block_raises (blocked e : exn) : Prop :=
  exists message,
    exn_class_of blocked = BlockedPromptException (Lacks message)
    /\ e = Exn AttributeError message.

(** The call of [ask_gemini_text] raised [e]: the provider blocked the
    prompt and the handler of the block raised. *)
Definition text_call_escapes (prompt : pystr) (st : process W) (e : exn) : Prop :=
  exists inst st1 tr1 blocked w2,
    get_gemini_model st = (Done inst, st1, tr1)
    /\ strip prompt <> []
    /\ generate_content genai inst prompt None (world st1) = (Raises blocked, w2)
    /\ handler_of_block_raises blocked e.

(** The call of [ask_gemini_structured] raised [e]: the handler of the
    block raised, on an exception of the provider or of the parser. *)
Definition structured_call_escapes (prompt : pystr) (schema : json)
  (st : process W) (e : exn) : Prop :=
  exists inst st1 tr1 blocked,
    get_gemini_model st = (Done inst, st1, tr1)
    /\ strip prompt <> []
    /\ truthy schema = true
    /\ handler_of_block_raises blocked e
    /\ ((exists w2,
           generate_content genai inst prompt (Some schema) (world st1)
           = (Raises blocked, w2))
        \/ (exists response w2 json_text,
              generate_content genai inst prompt (Some schema) (world st1)
              = (Returns response, w2)
              /\ first_part_text response = Some json_text
              /\ json_loads json_text = Raises blocked)).
End Gateway.

End AiLogic.

(* ===================================================================== *)
(** ** lineage_visualizer.py *)
(* ===================================================================== *)

Module Visualizer.

(** Graph nodes are dictionary keys: they must be hashable, and two keys
    are the same when Python's [==] says so ([True == 1], [False == 0]). *)
Definition hashable (k : json) : bool :=
  match k with
  | JArr _ | JObj _ => false
  | _ => true
  end.

Definition key_eqb (a b : json) : bool :=
  match a, b with
  | JNull, JNull => true
  | JStr s, JStr t => pystr_eqb s t
  | JInt x, JInt y => Z.eqb x y
  | JBool x, JBool y => Bool.eqb x y
  | JBool x, JInt y | JInt y, JBool x => Z.eqb (if x then 1 else 0)%Z y
  | _, _ => false
  end.

(** [networkx.DiGraph]: the node dictionary [_node], in insertion order,
    and the edge data [_succ[u][v]], listed here under the pair [(u, v)] in
    the order the pairs were first added. *)
Record DiGraph := {
  _node : list (json * dict);
  _succ : list ((json * json) * dict)
}.

Definition empty_graph : DiGraph := {| _node := []; _succ := [] |}.

(** [d.update(attr)] *)
Definition dict_update (attr d : dict) : dict :=
  fold_left (fun d kv => dict_set (fst kv) (snd kv) d) attr d.

Fixpoint node_lookup (n : json) (nodes : list (json * dict)) : option dict :=
  match nodes with
  | [] => None
  | (k, d) :: r => if key_eqb k n then Some d else node_lookup n r
  end.

Fixpoint node_update (n : json) (attr : dict) (nodes : list (json * dict))
  : list (json * dict) :=
  match nodes with
  | [] => []
  | (k, d) :: r =>
      if key_eqb k n then (k, dict_update attr d) :: r
      else (k, d) :: node_update n attr r
  end.

Definition edge_key_eqb (a b : json * json) : bool :=
  key_eqb (fst a) (fst b) && key_eqb (snd a) (snd b).

Fixpoint edge_lookup (e : json * json) (edges : list ((json * json) * dict))
  : option dict :=
  match edges with
  | [] => None
  | (k, d) :: r => if edge_key_eqb k e then Some d else edge_lookup e r
  end.

Fixpoint edge_update (e : json * json) (attr : dict)
  (edges : list ((json * json) * dict)) : list ((json * json) * dict) :=
  match edges with
  | [] => []
  | (k, d) :: r =>
      if edge_key_eqb k e then (k, dict_update attr d) :: r
      else (k, d) :: edge_update e attr r
  end.

Definition unhashable : exn := Exn TypeError (u "unhashable type").
Definition none_node : exn := Exn ValueError (u "None cannot be a node").

(** [G.add_node(n, **attr)] *)
Definition add_node (n : json) (attr : dict) (G : DiGraph) : outcome DiGraph :=
  if negb (hashable n) then Raises unhashable
  else
    match node_lookup n (_node G) with
    | Some _ =>
        Returns {| _node := node_update n attr (_node G); _succ := _succ G |}
    | None =>
        match n with
        | JNull => Raises none_node
        | _ => Returns {| _node := _node G ++ [(n, dict_update attr [])];
                          _succ := _succ G |}
        end
    end.

(** The first half of [add_edge]: an endpoint that is not yet a node is
    added with no attributes. *)
Definition ensure_node (n : json) (G : DiGraph) : outcome DiGraph :=
  if negb (hashable n) then Raises unhashable
  else
    match node_lookup n (_node G) with
    | Some _ => Returns G
    | None =>
        match n with
        | JNull => Raises none_node
        | _ => Returns {| _node := _node G ++ [(n, [])]; _succ := _succ G |}
        end
    end.

(** [G.add_edge(u, v, **attr)] *)
Definition add_edge (source target : json) (attr : dict) (G : DiGraph)
  : outcome DiGraph :=
  match ensure_node source G with
  | Raises e => Raises e
  | Returns G1 =>
      match ensure_node target G1 with
      | Raises e => Raises e
      | Returns G2 =>
          match edge_lookup (source, target) (_succ G2) with
          | Some _ =>
              Returns {| _node := _node G2;
                         _succ := edge_update (source, target) attr (_succ G2) |}
          | None =>
              Returns {| _node := _node G2;
                         _succ := _succ G2 ++ [((source, target), dict_update attr [])] |}
          end
      end
  end.

Definition no_attribute_get : exn :=
  Exn AttributeError (u "object has no attribute 'get'").
Definition not_iterable : exn := Exn TypeError (u "object is not iterable").

(** [for x in v]: a list yields its elements, a [str] its characters, a
    [dict] its keys; nothing else here can be iterated. *)
Definition py_iter (v : json) : outcome (list json) :=
  match v with
  | JArr l => Returns l
  | JStr s => Returns (map (fun c => JStr [c]) s)
  | JObj o => Returns (map (fun kv => JStr (fst kv)) o)
  | _ => Raises not_iterable
  end.

Section Render.
Context {W : Type}.
(** [repr] of a list or a dictionary, as an f-string would show it. *)
Variable container_repr : json -> pystr.
(** Lines 50-135: the pyvis network made from the graph, written to a
    temporary file, read back and base64-encoded into the iframe source;
    raises what pyvis or the file system raise. *)
Variable iframe_src : DiGraph -> outcome pystr.

(** [str(x)], as the replacement fields of an f-string apply it *)
Definition py_str (v : json) : pystr :=
  match v with
  | JNull => u "None"
  | JBool true => u "True"
  | JBool false => u "False"
  | JInt z => int_repr z
  | JStr s => s
  | _ => container_repr v
  end.

(** Lines 31-39: the body of the loop over the nodes. *)
Definition add_node_data (node_data : json) (G : DiGraph) : outcome DiGraph :=
  match node_data with
  | JObj node_data =>
      let node_id := dict_get_default (u "id") JNull node_data in
      let label := dict_get_default (u "label") node_id node_data in
      let group := dict_get_default (u "group") (JStr (u "unknown")) node_data in
      let title_text :=
        dict_get_default (u "title")
          (JStr (u "ID: " ++ py_str node_id ++ u "\nType: " ++ py_str group))
          node_data in
      let title := JStr (dumps None title_text) in
      add_node node_id
        [(u "label", label); (u "group", group); (u "title", title)] G
  | _ => Raises no_attribute_get
  end.

(** Lines 42-48: the body of the loop over the edges. *)
Definition add_edge_data (edge_data : json) (G : DiGraph) : outcome DiGraph :=
  match edge_data with
  | JObj edge_data =>
      let source := dict_get_default (u "source") JNull edge_data in
      let target := dict_get_default (u "target") JNull edge_data in
      let label := dict_get_default (u "label") (JStr []) edge_data in
      let title_text := dict_get_default (u "title") label edge_data in
      let title := JStr (dumps None title_text) in
      add_edge source target [(u "title", title); (u "label", label)] G
  | _ => Raises no_attribute_get
  end.

(** The graph node and the graph edge that one entry of the response
    stands for: the key, and the attributes the loops attach. *)
Definition node_id_of (node_data : dict) : json :=
  dict_get_default (u "id") JNull node_data.

Definition node_of (node_data : dict) : json * dict :=
  let node_id := node_id_of node_data in
  let label := dict_get_default (u "label") node_id node_data in
  let group := dict_get_default (u "group") (JStr (u "unknown")) node_data in
  let title_text :=
    dict_get_default (u "title")
      (JStr (u "ID: " ++ py_str node_id ++ u "\nType: " ++ py_str group))
      node_data in
  (node_id,
   [(u "label", label); (u "group", group);
    (u "title", JStr (dumps None title_text))]).

Definition edge_ends (edge_data : dict) : json * json :=
  (dict_get_default (u "source") JNull edge_data,
   dict_get_default (u "target") JNull edge_data).

Definition edge_of (edge_data : dict) : (json * json) * dict :=
  let label := dict_get_default (u "label") (JStr []) edge_data in
  let title_text := dict_get_default (u "title") label edge_data in
  (edge_ends edge_data,
   [(u "title", JStr (dumps None title_text)); (u "label", label)]).

(** A [for] loop whose body may raise. *)
Fixpoint for_each {A} (body : A -> DiGraph -> outcome DiGraph) (l : list A)
  (G : DiGraph) : outcome DiGraph :=
  match l with
  | [] => Returns G
  | x :: r =>
      match body x G with
      | Returns G' => for_each body r G'
      | Raises e => Raises e
      end
  end.

(** Lines 27-48: the directed graph built from the response. *)
Definition build_graph (structured_lineage_data : dict) : outcome DiGraph :=
  match py_iter (dict_get_default (u "nodes") (JArr []) structured_lineage_data) with
  | Raises e => Raises e
  | Returns nodes =>
      match for_each add_node_data nodes empty_graph with
      | Raises e => Raises e
      | Returns G =>
          match py_iter (dict_get_default (u "edges") (JArr []) structured_lineage_data) with
          | Raises e => Raises e
          | Returns edges => for_each add_edge_data edges G
          end
      end
  end.

Definition no_data_message : pystr :=
  u "No structured lineage data available to generate the graph. Please generate the lineage report first.".
Definition struggled_message : pystr :=
  u "The AI might have struggled to produce valid structured lineage. Try simplifying your code or review the AI's plain text explanation.".
Definition malformed_message : pystr :=
  u "This might happen if the structured lineage data is malformed or graph library issues. Check console for details.".

Definition render_lineage_graph (structured_lineage_data : json) : M (W:=W) unit :=
  if negb (truthy structured_lineage_data) then emit (st_info no_data_message)
  else
    match structured_lineage_data with
    | JObj d =>
        match dict_get (u "nodes") d with
        | None | Some JNull => emit (st_info no_data_message)
        | Some _ =>
            if truthy_opt (dict_get (u "error") d) then
              emit (st_error (u "Error generating graph data from AI: "
                              ++ py_str (dict_get_default (u "error") JNull d))) ;;;
              emit (st_info struggled_message)
            else
              let rendered :=
                match build_graph d with
                | Returns G => iframe_src G
                | Raises e => Raises e
                end in
              match rendered with
              | Returns src => emit (st_iframe src)
              | Raises e =>
                  emit (st_error (u "Error rendering interactive graph: " ++ exn_str e)) ;;;
                  emit (st_info malformed_message) ;;;
                  emit (st_exception e)
              end
        end
    | _ => raise no_attribute_get
    end.
End Render.

(** Keys, and pairs of keys, no two of which are the same key. *)
Fixpoint distinct_keys (l : list json) : Prop :=
  match l with
  | [] => True
  | k :: r => Forall (fun k' => key_eqb k k' = false) r /\ distinct_keys r
  end.

Fixpoint distinct_edges (l : list (json * json)) : Prop :=
  match l with
  | [] => True
  | e :: r => Forall (fun e' => edge_key_eqb e e' = false) r /\ distinct_edges r
  end.

(** [k] is the key of one of the nodes. *)
Definition is_node_id (ids : list json) (k : json) : Prop :=
  Exists (fun k' => key_eqb k' k = true) ids.

(** The [groups] entry of the options handed to the network: shape and
    colour per node group. *)
Definition group_styles : list (pystr * (pystr * pystr)) :=
  [(u "table", (u "box", u "#58A6FF"));
   (u "column", (u "dot", u "#3FB950"));
   (u "transformation", (u "diamond", u "#DD9F1B"));
   (u "unknown", (u "triangle", u "#768390"))].

Fixpoint style_of (group : pystr) (styles : list (pystr * (pystr * pystr)))
  : option (pystr * pystr) :=
  match styles with
  | [] => None
  | (g, st) :: r => if pystr_eqb g group then Some st else style_of group r
  end.

End Visualizer.

(* ===================================================================== *)
(** ** features.py, additional_features.py, main.py *)
(* ===================================================================== *)

Module App.
Import AiLogic Visualizer.

(** What one run of the script reads from outside the process: the
    environment variable (after the .env file is loaded) and the widgets. *)
Record inputs := {
  GEMINI_API_KEY : option pystr;
  dark_mode_toggle : bool;
  etl_code_input : pystr;
  map_lineage_button : bool;
  clear_all_button : bool
}.

(** The schema of main.py, lines 214-247. *)
Definition str_type : json := JObj [(u "type", JStr (u "string"))].
Definition enum_type (values : list string) : json :=
  JObj [(u "type", JStr (u "string"));
        (u "enum", JArr (map (fun v => JStr (u v)) values))].
Definition array_of (properties : dict) (required : list string) : json :=
  JObj [(u "type", JStr (u "array"));
        (u "items",
         JObj [(u "type", JStr (u "object"));
               (u "properties", JObj properties);
               (u "required", JArr (map (fun v => JStr (u v)) required))])].

Definition response_schema : json :=
  JObj [(u "type", JStr (u "object"));
        (u "properties",
         JObj [(u "nodes",
                array_of
                  [(u "id", str_type); (u "label", str_type);
                   (u "group", enum_type ["table"%string; "column"%string; "transformation"%string]);
                   (u "title", str_type)]
                  ["id"%string; "label"%string; "group"%string]);
               (u "edges",
                array_of
                  [(u "source", str_type); (u "target", str_type);
                   (u "label",
                    enum_type ["FLOWS_TO"%string; "PRODUCES"%string; "CONSUMES"%string; "IS_PART_OF"%string]);
                   (u "title", str_type);
                   (u "confidence_score", JObj [(u "type", JStr (u "integer"))])]
                  ["source"%string; "target"%string; "label"%string]);
               (u "error", str_type)]);
        (u "required", JArr [JStr (u "nodes"); JStr (u "edges")])].

Section Script.
Context {W : Type}.
Variable genai : provider W.
Variable json_loads : pystr -> outcome json.
Variable container_repr : json -> pystr.
Variable iframe_src : DiGraph -> outcome pystr.
(** The two f-string templates of main.py (lines 96-134 and 137-211),
    as functions of the pasted code they embed. *)
Variable text_prompt : pystr -> pystr.
Variable structured_prompt : pystr -> pystr.

Local Abbreviation M := (M (W:=W)).

(** *** Session state *)

Definition key_error (k : string) : exn := Exn KeyError (u k).
Definition type_error : exn := Exn TypeError (u "unexpected type").

(** [st.session_state[k]] *)
Definition session_read (k : string) : M sval :=
  let* st := get_state in
  match session_state st !! k with
  | Some v => ret v
  | None => raise (key_error k)
  end.

(** [st.session_state[k] = v] *)
Definition session_write (k : string) (v : sval) : M unit :=
  let* st := get_state in
  put_state (set_session (<[k := v]> (session_state st)) st).

(** [if k not in st.session_state: st.session_state[k] = v] *)
Definition session_init (k : string) (v : sval) : M unit :=
  let* st := get_state in
  match session_state st !! k with
  | Some _ => ret tt
  | None => session_write k v
  end.

(** [if k in st.session_state: del st.session_state[k]] *)
Definition session_discard (k : string) : M unit :=
  let* st := get_state in
  match session_state st !! k with
  | Some _ => put_state (set_session (delete k (session_state st)) st)
  | None => ret tt
  end.

Definition read_str (k : string) : M pystr :=
  let* v := session_read k in
  match v with SStr s => ret s | _ => raise type_error end.

Definition read_json (k : string) : M json :=
  let* v := session_read k in
  match v with SJson j => ret j | _ => raise type_error end.

Definition read_bool (k : string) : M bool :=
  let* v := session_read k in
  match v with SBool b => ret b | _ => raise type_error end.

(** *** features.py *)

(** [render_code_input_section]: the editor is a keyed widget, so Streamlit
    keeps its value under the key in the session state; the function
    returns it. *)
Definition render_code_input_section (inp : inputs) : M pystr :=
  session_write "etl_code_input" (SStr (etl_code_input inp)) ;;;
  ret (etl_code_input inp).

Definition render_lineage_output (lineage_text_output : pystr) : M unit :=
  if negb (pystr_eqb lineage_text_output [])
     && negb (startswith sentinel lineage_text_output) then
    emit (st_markdown (u "<div class='lineage-display-box'>" ++ lineage_text_output
                       ++ u "</div>")) ;;;
    emit (st_success (u "Lineage mapping complete! 🎉 Your data flow insights are ready."))
  else if startswith sentinel lineage_text_output then
    emit (st_error (u "Failed to generate lineage map: " ++ lineage_text_output)) ;;;
    emit (st_info (u "Please ensure your API key is correctly configured and the input code is valid. If the issue persists, try simplifying the code snippet."))
  else
    emit (st_info (u "No lineage map generated yet. Paste your ETL code/SQL and click 'Map Data Lineage' to see results.")).

(** *** additional_features.py *)

Definition unicode_encode_error : exn :=
  Exn UnicodeEncodeError (u "'utf-8' codec can't encode character: surrogates not allowed").

(** [s.encode('utf-8')] *)
Definition encode (s : pystr) : M bytes :=
  match encode_utf8 s with
  | Some b => ret b
  | None => raise unicode_encode_error
  end.

Definition download_md_button (data : bytes) : event :=
  st_download_button (u "⬇️ Download Markdown Report") data
    (u "data_lineage_report.md") (u "text/markdown") (u "download_md_report").

Definition download_json_button (data : bytes) : event :=
  st_download_button (u "⬇️ Download Structured JSON") data
    (u "data_lineage_structured.json") (u "application/json")
    (u "download_json_report").

Definition generate_first_message : pystr :=
  u "Generate lineage data first to enable download options.".

Definition render_download_section (lineage_data_structured : json)
  (lineage_text_report : pystr) : M unit :=
  if truthy lineage_data_structured && negb (pystr_eqb lineage_text_report []) then
    let* md := encode lineage_text_report in
    emit (download_md_button md) ;;;
    let* json_data := encode (dumps (Some 2%nat) lineage_data_structured) in
    emit (download_json_button json_data)
  else
    emit (st_info generate_first_message).


Definition render_clear_button (inp : inputs) : M unit :=
  if clear_all_button inp then
    session_discard "etl_code_input" ;;;
    session_discard "lineage_result" ;;;
    session_discard "structured_lineage_data" ;;;
    halt RerunException
  else ret tt.

(** *** main.py *)

Definition api_key_set (inp : inputs) : bool :=
  match GEMINI_API_KEY inp with
  | Some k => negb (pystr_eqb k placeholder_key)
  | None => false
  end.

Definition key_warning : pystr :=
  u "🚨 **Google Gemini API Key** not found or is the placeholder! AI features will not work.".
Definition key_info : pystr :=
  u "💡 Please set your `GEMINI_API_KEY` in a `.env` file in your project root (`GEMINI_API_KEY=" ++ dq ++ u "YOUR_API_KEY" ++ dq ++ u "`) or as an environment variable.".

Definition paste_warning : pystr :=
  u "Please paste some ETL code or SQL script to analyze.".

(** Lines 255-257: what is appended to the report. *)
Definition graph_issue_note (error : json) : pystr :=
  u "

---

❌ **Graph Generation Issue:** " ++ py_str container_repr error ++ u "

The AI struggled to provide data for the interactive graph. Please review the text report and consider simplifying the input for graph generation.".

(** Lines 87-260: what the click on the map-lineage button runs. *)
Definition map_lineage_handler (current_etl_code_input : pystr) : M unit :=
  if negb (pystr_eqb (strip current_etl_code_input) []) then
    session_write "lineage_text_output" (SStr []) ;;;
    session_write "structured_lineage_data" (SJson (JObj [])) ;;;
    let* report := ask_gemini_text genai (text_prompt current_etl_code_input) in
    session_write "lineage_text_output" (SStr report) ;;;
    let* structured :=
      ask_gemini_structured genai json_loads
        (structured_prompt current_etl_code_input) response_schema in
    session_write "structured_lineage_data" (SJson structured) ;;;
    let* data := read_json "structured_lineage_data" in
    match data with
    | JObj d =>
        if truthy_opt (dict_get (u "error") d) then
          let* report := read_str "lineage_text_output" in
          session_write "lineage_text_output"
            (SStr (report ++ graph_issue_note (dict_get_default (u "error") JNull d)))
        else ret tt
    | _ => raise no_attribute_get
    end
  else
    emit (st_warning paste_warning).

(** The renderer on a dictionary with a truthy [error] entry: the
    no-data notice when [nodes] is absent or null, the error and the hint
    otherwise. *)
Definition error_diagnostic (d : dict) : list event :=
  match dict_get (u "nodes") d with
  | None | Some JNull => [st_info no_data_message]
  | Some _ =>
      [st_error (u "Error generating graph data from AI: "
                 ++ py_str container_repr (dict_get_default (u "error") JNull d));
       st_info struggled_message]
  end.

(** Lines 262-280 *)
Definition display_output_section (inp : inputs) : M unit :=
  let* report := read_str "lineage_text_output" in
  let* data := read_json "structured_lineage_data" in
  if negb (pystr_eqb report []) || truthy data then
    render_lineage_output report ;;;
    render_lineage_graph container_repr iframe_src data ;;;
    render_download_section data report ;;;
    render_clear_button inp
  else ret tt.

(** Lines 61-70: the toggle is stored; the rerun is asked for when the
    stored value differs from [_prev_dark_mode_state], which defaults to
    the stored value itself. *)
Definition dark_mode_section (inp : inputs) : M unit :=
  session_write "dark_mode" (SBool (dark_mode_toggle inp)) ;;;
  let* dark_mode := read_bool "dark_mode" in
  let* st := get_state in
  let previous :=
    default (SBool dark_mode) (session_state st !! "_prev_dark_mode_state") in
  match previous with
  | SBool p =>
      if Bool.eqb dark_mode p then ret tt
      else session_write "_prev_dark_mode_state" (SBool dark_mode) ;;; halt RerunException
  | _ => session_write "_prev_dark_mode_state" (SBool dark_mode) ;;; halt RerunException
  end.

(** Lines 49-283: the script past the check of the key. *)
Definition after_key_check (inp : inputs) : M unit :=
  session_init "lineage_text_output" (SStr []) ;;;
  session_init "structured_lineage_data" (SJson (JObj [])) ;;;
  dark_mode_section inp ;;;
  let* current_etl_code_input := render_code_input_section inp in
  (if map_lineage_button inp then map_lineage_handler current_etl_code_input
   else ret tt) ;;;
  display_output_section inp.

(** One run of main.py, top to bottom: the imports (line 9 runs
    ai_logic.py on the first run), the dark-mode default, the check of the
    key with [st.stop()], and the rest. *)
Definition main (inp : inputs) : M unit :=
  import_ai_logic (GEMINI_API_KEY inp) ;;;
  session_init "dark_mode" (SBool true) ;;;
  if negb (api_key_set inp) then
    emit (st_warning key_warning) ;;;
    emit (st_info key_info) ;;;
    halt StopException
  else after_key_check inp.

End Script.
End App.


(* ===================================================================== *)
(** ** Scenarios *)
(* ===================================================================== *)

(** Concrete providers, responses, sessions and clicks, on which the
    model is run. *)
Module Scenarios.
Import AiLogic Visualizer App.

(** A provider with two models, one of them for content generation; it
    answers every request with [reply]. *)
Definition demo_models : list model_info :=
  [ {| name := u "models/embedding-001";
       supported_generation_methods := [u "embedContent"] |};
    {| name := u "models/gemini-pro";
       supported_generation_methods := [u "generateContent"; u "countTokens"] |} ].

Definition demo_response (t : pystr) : option response :=
  Some {| candidates :=
            [ {| candidate_content := Some {| parts := [ {| text := t |} ] |} |} ] |}.

Definition demo_provider (reply : pystr) : provider unit :=
  {| list_models := fun w => (Returns demo_models, w);
     new_GenerativeModel := fun n w => (Returns {| model_name := n |}, w);
     generate_content := fun _ _ _ w => (Returns (demo_response reply), w) |}.

(** The same models, with a constructor that fails. *)
Definition failing_constructor : provider unit :=
  {| list_models := fun w => (Returns demo_models, w);
     new_GenerativeModel :=
       fun n w => (Raises (Exn OtherException (u "invalid model")), w);
     generate_content := fun _ _ _ w => (Returns None, w) |}.

(** A provider that blocks every prompt, with an exception on which the
    chain [response.prompt_feedback.block_reason.name] gives [reason]: the
    name of the reason, or the AttributeError of an exception object that
    has no [response]. *)
Definition no_response_attribute : pystr :=
  u "'BlockedPromptException' object has no attribute 'response'".

Definition blocking_provider (reason : attribute pystr) : provider unit :=
  {| list_models := fun w => (Returns demo_models, w);
     new_GenerativeModel := fun n w => (Returns {| model_name := n |}, w);
     generate_content :=
       fun _ _ _ w =>
         (Raises (Exn (BlockedPromptException reason) (u "block_reason: SAFETY")), w) |}.

(** The process before the first run of the script, and after the import
    of ai_logic. *)
Definition first_run : process unit :=
  {| world := tt; ai_logic_imported := false; _gemini_model_instance := None;
     session_state := ∅ |}.

Definition fresh_process : process unit :=
  {| world := tt; ai_logic_imported := true; _gemini_model_instance := None;
     session_state := ∅ |}.

(** The example of the specification: two columns and the flow between
    them. *)
Definition column (id label : string) : dict :=
  [(u "id", JStr (u id)); (u "label", JStr (u label)); (u "group", JStr (u "column"))].

Definition flow_a_b : dict :=
  [(u "source", JStr (u "t.a")); (u "target", JStr (u "t.b"));
   (u "label", JStr (u "FLOWS_TO")); (u "confidence_score", JInt 5)].

Definition select_a_as_b : dict :=
  [(u "nodes", JArr [JObj (column "t.a" "a"); JObj (column "t.b" "b")]);
   (u "edges", JArr [JObj flow_a_b])].

(** One node given twice. *)
Definition repeated_node : dict :=
  [(u "nodes", JArr [JObj (column "t.a" "a"); JObj (column "t.a" "a")]);
   (u "edges", JArr [])].

(** An edge to a node that was not given. *)
Definition dangling_edge : dict :=
  [(u "nodes", JArr [JObj (column "t.a" "a")]);
   (u "edges", JArr [JObj flow_a_b])].

(** The answer of the model when it finds no lineage. *)
Definition no_lineage_reply : pystr :=
  u "{" ++ dq ++ u "nodes" ++ dq ++ u ":[]," ++ dq ++ u "edges" ++ dq ++ u ":[],"
  ++ dq ++ u "error" ++ dq ++ u ":" ++ dq ++ u "Could not extract lineage." ++ dq
  ++ u "}".

Definition no_lineage : dict :=
  [(u "nodes", JArr []); (u "edges", JArr []);
   (u "error", JStr (u "Could not extract lineage."))].

(** A session as the script leaves it after a mapping. *)
Definition demo_report : pystr := u "## Data Flow Summary".

Definition demo_session : gmap string sval :=
  <["structured_lineage_data" := SJson (JObj select_a_as_b)]>
    (<["lineage_text_output" := SStr demo_report]>
       (<["dark_mode" := SBool true]> ∅)).

Definition demo_process : process unit :=
  {| world := tt; ai_logic_imported := true;
     _gemini_model_instance := Some {| model_name := u "models/gemini-pro" |};
     session_state := demo_session |}.

(** [json.loads] of the model, as the gateway sees it. *)
Definition loads_outcome (s : pystr) : outcome json :=
  match loads s with
  | Some v => Returns v
  | None => Raises (Exn JSONDecodeError (u "Expecting value"))
  end.

(** The widgets: nothing clicked, the clear button clicked, and a run
    with an empty key in the environment. *)
Definition a_key : option pystr := Some (u "AIzaSyExampleKey").

Definition no_click : inputs :=
  {| GEMINI_API_KEY := a_key; dark_mode_toggle := true; etl_code_input := [];
     map_lineage_button := false; clear_all_button := false |}.

Definition clear_click : inputs :=
  {| GEMINI_API_KEY := a_key; dark_mode_toggle := true; etl_code_input := [];
     map_lineage_button := false; clear_all_button := true |}.

Definition empty_key : inputs :=
  {| GEMINI_API_KEY := Some []; dark_mode_toggle := true; etl_code_input := [];
     map_lineage_button := false; clear_all_button := false |}.

(** The script and its parts over the demo provider; a pasted code is
    its own prompt, and the network renders to an empty page. *)
Definition demo_main : inputs -> M (W:=unit) unit :=
  main (demo_provider []) loads_outcome (fun _ => []) (fun _ => Returns [])
    (fun s => s) (fun s => s).

Definition demo_after_key_check : inputs -> M (W:=unit) unit :=
  after_key_check (demo_provider []) loads_outcome (fun _ => [])
    (fun _ => Returns []) (fun s => s) (fun s => s).

Definition demo_handler (reply : pystr) : pystr -> M (W:=unit) unit :=
  map_lineage_handler (demo_provider reply) loads_outcome (fun _ => [])
    (fun s => s) (fun s => s).

End Scenarios.

(* ===================================================================== *)
(** ** features.py: the schema inference *)
(* ===================================================================== *)

Module Features.
Import AiLogic.

Definition bool_type : json := JObj [(u "type", JStr (u "boolean"))].

(** Lines 202-224: a list of tables, each with its columns. *)
Definition response_schema : json :=
  App.array_of
    [(u "table_name", App.str_type);
     (u "columns",
      App.array_of
        [(u "name", App.str_type); (u "type", App.str_type);
         (u "is_pk", bool_type); (u "not_null", bool_type); (u "unique", bool_type);
         (u "default_value", App.str_type); (u "references", App.str_type)]
        ["name"%string; "type"%string])]
    ["table_name"%string; "columns"%string].

(** [type(v).__name__] *)
Definition type_name (v : json) : pystr :=
  match v with
  | JNull => u "NoneType"
  | JBool _ => u "bool"
  | JInt _ => u "int"
  | JStr _ => u "str"
  | JArr _ => u "list"
  | JObj _ => u "dict"
  end.

(** What [v.get] raises when [v] is no dictionary. *)
Definition has_no_get (v : json) : exn :=
  Exn AttributeError (u "'" ++ type_name v ++ u "' object has no attribute 'get'").

(** Line 233 *)
Definition inference_failed (e : exn) : json :=
  JObj [(u "error",
         JStr (u "AI inference failed: " ++ exn_str e
               ++ u ". Ensure your input is clear."))].

(** [k in d] *)
Definition dict_has (k : pystr) (d : dict) : bool :=
  match dict_get k d with Some _ => true | None => false end.

Section Infer.
Context {W : Type}.
Variable genai : provider W.
Variable json_loads : pystr -> outcome json.
(** The f-string template of lines 168-200, as a function of the raw
    text it embeds. *)
Variable schema_prompt : pystr -> pystr.

(** Lines 226-233 *)
Definition ask_gemini_infer_structured_schema (raw_input_text : pystr)
  : M (W:=W) json :=
  try_except
    (let* ai_response :=
       ask_gemini_structured genai json_loads (schema_prompt raw_input_text)
         response_schema in
     if truthy ai_response then
       match ai_response with
       | JObj d =>
           if negb (truthy_opt (dict_get (u "error") d)) then
             if dict_has (u "table_name") d then ret (JArr [ai_response])
             else ret ai_response
           else ret ai_response
       | _ => raise (has_no_get ai_response)
       end
     else ret ai_response)
    (fun e => ret (inference_failed e)).

End Infer.
End Features.

(* ===================================================================== *)
(** ** Shapes of requests, graphs and session states *)
(* ===================================================================== *)

Module GatewaySpec.

Section Requests.
Context {W : Type}.

(** What a call of the gateway may send to the provider, from the state
    [st] to the state [st']: the listing of the models when no handle is
    stored, then nothing more or one generation request to the handle
    stored afterwards. *)
Definition requests (st : process W) (prompt : pystr) (schema : option json)
  (st' : process W) (tr : list event) : Prop :=
  let listing :=
    match _gemini_model_instance st with Some _ => [] | None => [ev_list_models] end in
  tr = listing
  \/ exists model,
       _gemini_model_instance st' = Some model
       /\ tr = listing ++ [ev_generate_content model prompt schema].

End Requests.
End GatewaySpec.

Module GraphSpec.
Import Visualizer.

(** The shape every graph of the builder has: no key twice, every key
    one that can be a node, no pair of ends twice, and the ends of every
    edge among the nodes. *)
Definition well_keyed (G : DiGraph) : Prop :=
  let keys := map fst (_node G) in
  distinct_keys keys
  /\ Forall (fun k => hashable k = true /\ k <> JNull) keys
  /\ distinct_edges (map fst (_succ G))
  /\ Forall (fun e => is_node_id keys e.1 /\ is_node_id keys e.2) (map fst (_succ G)).

(** An entry of [nodes] that the loop can add: a dictionary whose [id] is
    present, not null and hashable. *)
Definition node_entry_ok (x : json) : bool :=
  match x with
  | JObj node_data =>
      match node_id_of node_data with
      | JNull | JArr _ | JObj _ => false
      | _ => true
      end
  | _ => false
  end.

(** An entry of [edges] that the loop can add. *)
Definition edge_entry_ok (x : json) : bool :=
  match x with
  | JObj edge_data =>
      match edge_ends edge_data with
      | (JNull, _) | (JArr _, _) | (JObj _, _)
      | (_, JNull) | (_, JArr _) | (_, JObj _) => false
      | _ => true
      end
  | _ => false
  end.

(** What the loops raise. *)
Definition builder_error (e : exn) : Prop :=
  e = no_attribute_get \/ e = unhashable \/ e = none_node.

(** What a step of the builder does to the keys: they stay, in their
    order, and at most the new one is appended. *)
Definition grows_by (n : json) (G G' : DiGraph) : Prop :=
  (map fst (_node G') = map fst (_node G) /\ is_node_id (map fst (_node G)) n)
  \/ (map fst (_node G') = map fst (_node G) ++ [n]
      /\ hashable n = true /\ n <> JNull
      /\ Forall (fun k' => key_eqb k' n = false) (map fst (_node G))).

End GraphSpec.

Module ScriptSpec.
Import App.

(** The session state as the script keeps it: under the two keys of the
    lineage data, when present, a [str] and a JSON value; and no
    [_prev_dark_mode_state]. *)
Definition script_session (s : gmap string sval) : Prop :=
  (forall v, s !! "lineage_text_output" = Some v -> exists t, v = SStr t)
  /\ (forall v, s !! "structured_lineage_data" = Some v -> exists j, v = SJson j)
  /\ s !! "_prev_dark_mode_state" = None.

(** Both keys are set, as after lines 50-53. *)
Definition initialised (s : gmap string sval) : Prop :=
  (exists t, s !! "lineage_text_output" = Some (SStr t))
  /\ (exists j, s !! "structured_lineage_data" = Some (SJson j)).

(** An event of the page, as opposed to a request to the provider. *)
Definition ui_event (ev : event) : Prop :=
  match ev with
  | ev_list_models | ev_generate_content _ _ _ => False
  | _ => True
  end.

End ScriptSpec.

(** More cases on which the model is run. *)
Module Cases.
Import AiLogic Visualizer App Scenarios.

(** The answer with one table, as an object and inside a list. *)
Definition one_table : dict :=
  [(u "table_name", JStr (u "orders")); (u "columns", JArr [])].

Definition one_table_reply : pystr := dumps None (JObj one_table).
Definition table_list_reply : pystr := dumps None (JArr [JObj one_table]).

Definition demo_infer (reply : pystr) : pystr -> M (W:=unit) json :=
  Features.ask_gemini_infer_structured_schema (demo_provider reply) loads_outcome
    (fun s => u "Raw Schema Text: " ++ s).

(** A response with a node entry that has no [id]. *)
Definition node_without_id : dict :=
  [(u "nodes", JArr [JObj [(u "label", JStr (u "a"))]]); (u "edges", JArr [])].

(** A report with a lone surrogate. *)
Definition lone_surrogate : pystr := [0xD800].

(** The answers of the model: the lineage of the example, and a list. *)
Definition mapped_reply : pystr := dumps None (JObj select_a_as_b).
Definition list_reply : pystr := u "[1]".

End Cases.


(* ===================================================================== *)
(** * Properties *)
(* ===================================================================== *)

Module PyStrFacts.

Lemma sentinel_code_point : sentinel = [0x274C].
Proof. reflexivity. Qed.

Lemma startswith_app p s : startswith p (p ++ s) = true.
Proof.
  induction p as [|a p IH]; simpl; [done|].
  by rewrite N.eqb_refl, IH.
Qed.

Lemma lstrip_all_space s : forallb py_isspace s = true -> lstrip s = [].
Proof.
  induction s as [|c s IH]; simpl; [done|].
  intros [Hc Hs]%andb_prop. rewrite Hc. auto.
Qed.

Lemma lstrip_nil_inv s : lstrip s = [] -> forallb py_isspace s = true.
Proof.
  induction s as [|c s IH]; simpl; [done|].
  destruct (py_isspace c); [auto | discriminate].
Qed.

(** [s.strip()] is empty exactly for the empty and the whitespace-only
    strings. *)
Lemma strip_empty_iff s : strip s = [] <-> forallb py_isspace s = true.
Proof.
  unfold strip. split.
  - intros H. destruct (lstrip s) as [|c r] eqn:E.
    + by apply lstrip_nil_inv.
    + exfalso. apply (f_equal (@rev N)) in H. rewrite rev_involutive in H.
      simpl in H.
      assert (Hc : py_isspace c = false).
      { destruct s as [|c0 s0]; [discriminate|].
        clear H. revert c r E. induction (c0 :: s0) as [|d l IH]; intros c r E.
        - discriminate.
        - simpl in E. destruct (py_isspace d) eqn:Ed.
          + eauto.
          + by inversion E; subst. }
      apply lstrip_nil_inv in H. rewrite forallb_app in H.
      apply andb_prop in H as [_ H]. simpl in H. rewrite Hc in H. discriminate.
  - intros H. by rewrite (lstrip_all_space _ H).
Qed.


Lemma startswith_app_l p s x : startswith p s = true -> startswith p (s ++ x) = true.
Proof.
  revert s. induction p as [|a p IH]; intros [|b s]; simpl; try done.
  intros [-> Hp]%andb_prop. simpl. auto.
Qed.

Lemma pystr_eqb_eq a b : pystr_eqb a b = true <-> a = b.
Proof. unfold pystr_eqb. apply bool_decide_eq_true. Qed.

Lemma pystr_eqb_refl a : pystr_eqb a a = true.
Proof. by apply pystr_eqb_eq. Qed.

Lemma pystr_eqb_neq a b : pystr_eqb a b = false <-> a <> b.
Proof. unfold pystr_eqb. apply bool_decide_eq_false. Qed.

End PyStrFacts.
Import PyStrFacts.

(** Unfolds the monad of the process down to state-passing terms. *)
Ltac run_M :=
  unfold bind, ret, raise, halt, try_except, attempt, call, emit, lift,
    get_state, put_state in *.

(** A message that starts with the sentinel, whatever is appended to it. *)
Ltac sentinel_prefix :=
  repeat rewrite <- app_assoc;
  first [ apply startswith_app_l; vm_compute; reflexivity
        | vm_compute; reflexivity ].

Module JsonFacts.

(** *** The text [json.dumps] writes is ASCII *)

Lemma ascii_only_app a b : ascii_only a -> ascii_only b -> ascii_only (a ++ b).
Proof. apply Forall_app_2. Qed.

Lemma hex_digit_ascii n : n < 16 -> hex_digit n < 0x80.
Proof. unfold hex_digit. destruct (n <? 10); lia. Qed.

Lemma hex4_ascii n : ascii_only (hex4 n).
Proof.
  unfold hex4. repeat apply Forall_cons_2; try apply Forall_nil_2;
    apply hex_digit_ascii; by apply N.mod_lt.
Qed.

Lemma escape_char_ascii c : ascii_only (escape_char c).
Proof.
  unfold escape_char.
  repeat (case_match; [repeat constructor; done|]).
  case_match.
  - apply andb_prop in H1 as [_ H1%N.leb_le]. repeat constructor. lia.
  - repeat (case_match; [repeat constructor; done|]).
    case_match.
    + apply ascii_only_app; [repeat constructor; done | apply hex4_ascii].
    + repeat first [ apply hex4_ascii | apply ascii_only_app
                   | by repeat constructor ].
Qed.

Lemma encode_basestring_ascii_ascii s : ascii_only (encode_basestring_ascii s).
Proof.
  unfold encode_basestring_ascii. apply ascii_only_app; [by repeat constructor|].
  apply ascii_only_app; [|by repeat constructor].
  induction s as [|c s IH]; simpl; [constructor|].
  apply ascii_only_app; [apply escape_char_ascii | exact IH].
Qed.

Lemma digits_of_uint_ascii d : ascii_only (digits_of_uint d).
Proof. induction d; simpl; constructor; done. Qed.

Lemma int_repr_ascii z : ascii_only (int_repr z).
Proof.
  destruct z; simpl; [by repeat constructor | apply digits_of_uint_ascii |].
  constructor; [done | apply digits_of_uint_ascii].
Qed.

Lemma newline_indent_ascii indent level : ascii_only (newline_indent indent level).
Proof.
  unfold newline_indent. destruct indent; [|constructor].
  constructor; [done|]. apply Forall_forall. intros x Hx%list_elem_of_In.
  apply repeat_spec in Hx. by subst.
Qed.

Lemma item_separator_ascii indent : ascii_only (item_separator indent).
Proof. destruct indent; repeat constructor; done. Qed.

Lemma join_ascii sep parts :
  ascii_only sep -> Forall ascii_only parts -> ascii_only (join sep parts).
Proof.
  intros Hsep. induction 1 as [|p ps Hp Hps IH]; simpl; [constructor|].
  destruct ps; [done|]. repeat apply ascii_only_app; done.
Qed.

Lemma iterencode_ascii indent v : forall level, ascii_only (iterencode indent v level).
Proof.
  induction v as [| [] | z | s | l IH | o IH] using json_nested_ind; intros level.
  - by vm_compute; repeat constructor.
  - by vm_compute; repeat constructor.
  - by vm_compute; repeat constructor.
  - apply int_repr_ascii.
  - apply encode_basestring_ascii_ascii.
  - destruct l as [|x l]; [by vm_compute; repeat constructor|].
    cbn [iterencode].
    repeat first [ apply newline_indent_ascii | apply item_separator_ascii
                 | apply ascii_only_app | apply join_ascii
                 | by repeat constructor ].
    apply Forall_map. eapply Forall_impl; [exact IH|]. intros v Hv. apply Hv.
  - destruct o as [|kv o]; [by vm_compute; repeat constructor|].
    cbn [iterencode].
    repeat first [ apply newline_indent_ascii | apply item_separator_ascii
                 | apply ascii_only_app | apply join_ascii
                 | by repeat constructor ].
    apply Forall_map. eapply Forall_impl; [exact IH|]. intros kv' Hkv. cbn beta.
    repeat first [ apply encode_basestring_ascii_ascii | apply ascii_only_app
                 | by repeat constructor | apply Hkv ].
Qed.

Lemma encode_utf8_ascii s :
  ascii_only s -> encode_utf8 s = Some (map byte_of_N s).
Proof.
  induction 1 as [|c s Hc Hs IH]; simpl; [done|].
  unfold encode_char. apply N.ltb_lt in Hc. rewrite Hc, IH. done.
Qed.

(** The JSON download always encodes. *)
Lemma encode_dumps indent v :
  encode_utf8 (dumps indent v) = Some (map byte_of_N (dumps indent v)).
Proof. apply encode_utf8_ascii, iterencode_ascii. Qed.

End JsonFacts.
Import JsonFacts.

Module RoundTrip.

(** *** Hexadecimal escapes *)

Lemma hex_val_hex_digit d : d < 16 -> hex_val (hex_digit d) = Some d.
Proof.
  intros H. unfold hex_digit, hex_val.
  destruct (d <? 10) eqn:E.
  - apply N.ltb_lt in E.
    assert ((48 <=? 48 + d) && (48 + d <=? 57) = true) as ->.
    { apply andb_true_intro. split; apply N.leb_le; lia. }
    f_equal. lia.
  - apply N.ltb_ge in E.
    assert ((48 <=? 87 + d) && (87 + d <=? 57) = false) as ->.
    { apply andb_false_iff. right. apply N.leb_gt. lia. }
    assert ((97 <=? 87 + d) && (87 + d <=? 102) = true) as ->.
    { apply andb_true_intro. split; apply N.leb_le; lia. }
    f_equal. lia.
Qed.

Lemma hex4_split n :
  n < 65536 ->
  (n / 4096 mod 16) * 4096 + (n / 256 mod 16) * 256 + (n / 16 mod 16) * 16 + n mod 16 = n.
Proof.
  intros H.
  pose proof (N.div_mod n 16 ltac:(lia)).
  pose proof (N.div_mod (n / 16) 16 ltac:(lia)).
  pose proof (N.div_mod (n / 16 / 16) 16 ltac:(lia)).
  rewrite !N.Div0.div_div in *.
  change (16 * 16) with 256 in *. change (256 * 16) with 4096 in *.
  assert (n / 4096 < 16) by (apply N.Div0.div_lt_upper_bound; lia).
  rewrite (N.mod_small (n / 4096) 16) by done.
  pose proof (N.mod_lt (n / 256) 16 ltac:(lia)).
  pose proof (N.mod_lt (n / 16) 16 ltac:(lia)).
  pose proof (N.mod_lt n 16 ltac:(lia)).
  assert (n / 256 / 16 = n / 4096) as E by (rewrite N.Div0.div_div; done).
  lia.
Qed.

Lemma decode_hex4 n :
  n < 65536 ->
  decode_uXXXX (hex_digit (n / 4096 mod 16)) (hex_digit (n / 256 mod 16))
    (hex_digit (n / 16 mod 16)) (hex_digit (n mod 16)) = Some n.
Proof.
  intros H. unfold decode_uXXXX.
  rewrite !hex_val_hex_digit by (apply N.mod_lt; lia).
  f_equal. by apply hex4_split.
Qed.

(** *** Surrogate pairs *)

Lemma lor_shiftl_add a b k : b < 2 ^ k -> N.lor (N.shiftl a k) b = a * 2 ^ k + b.
Proof.
  intros Hb. rewrite <- N.shiftl_mul_pow2.
  rewrite <- N.lxor_lor, <- N.add_nocarry_lxor; try reflexivity.
  all: apply N.bits_inj_0; intros n; rewrite N.land_spec.
  all: destruct (N.lt_ge_cases n k) as [Hn|Hn].
  all: try (rewrite N.shiftl_spec_low by done; reflexivity).
  all: destruct (N.eq_dec b 0) as [->|Hb0]; [rewrite N.bits_0; apply andb_false_r|].
  all: rewrite (N.bits_above_log2 b n); [apply andb_false_r|].
  all: apply N.log2_lt_pow2 in Hb; lia.
Qed.

Lemma surrogate_pair c :
  0x10000 <= c -> c < 0x110000 ->
  let n := c - 0x10000 in
  let s1 := N.lor 0xD800 (N.land (N.shiftr n 10) 0x3FF) in
  let s2 := N.lor 0xDC00 (N.land n 0x3FF) in
  s1 < 65536 /\ s2 < 65536
  /\ is_high_surrogate s1 = true /\ is_low_surrogate s2 = true
  /\ 0x10000 + N.lor (N.shiftl (s1 - 0xD800) 10) (s2 - 0xDC00) = c.
Proof.
  intros Hlo Hhi n s1 s2.
  assert (Hn : n < 2 ^ 20) by (unfold n; change (2 ^ 20) with 1048576; lia).
  assert (E1 : N.land (N.shiftr n 10) 0x3FF = n / 1024).
  { change 0x3FF with (N.ones 10). rewrite N.land_ones, N.shiftr_div_pow2.
    change (2 ^ 10) with 1024. apply N.mod_small.
    apply N.Div0.div_lt_upper_bound. change (2 ^ 20) with 1048576 in Hn. lia. }
  assert (E2 : N.land n 0x3FF = n mod 1024).
  { change 0x3FF with (N.ones 10). by rewrite N.land_ones. }
  assert (B1 : n / 1024 < 1024).
  { apply N.Div0.div_lt_upper_bound. change (2 ^ 20) with 1048576 in Hn. lia. }
  assert (B2 : n mod 1024 < 1024) by (apply N.mod_lt; lia).
  assert (S1 : s1 = 0xD800 + n / 1024).
  { unfold s1. rewrite E1. change 0xD800 with (N.shiftl 54 10).
    rewrite lor_shiftl_add by (change (2 ^ 10) with 1024; done).
    reflexivity. }
  assert (S2 : s2 = 0xDC00 + n mod 1024).
  { unfold s2. rewrite E2. change 0xDC00 with (N.shiftl 55 10).
    rewrite lor_shiftl_add by (change (2 ^ 10) with 1024; done).
    reflexivity. }
  rewrite S1, S2. unfold is_high_surrogate, is_low_surrogate.
  repeat split; try lia.
  - apply andb_true_intro. split; apply N.leb_le; lia.
  - apply andb_true_intro. split; apply N.leb_le; lia.
  - replace (55296 + n / 1024 - 55296) with (n / 1024) by lia.
    replace (56320 + n mod 1024 - 56320) with (n mod 1024) by lia.
    rewrite lor_shiftl_add by (change (2 ^ 10) with 1024; done).
    change (2 ^ 10) with 1024. pose proof (N.div_mod n 1024 ltac:(lia)).
    unfold n in *. lia.
Qed.

(** *** Strings *)

Lemma scanstring_u_escape uni tail :
  uni < 65536 ->
  (is_high_surrogate uni = true -> safe_after_high tail) ->
  scanstring ([92; 117] ++ hex4 uni ++ tail) = prepend uni (scanstring tail).
Proof.
  intros Huni Hsafe. cbn -[decode_uXXXX N.div N.modulo hex_digit].
  rewrite decode_hex4 by done.
  destruct tail as [|e1 [|e2 r3]]; try reflexivity.
  destruct (is_high_surrogate uni && (e1 =? 92) && (e2 =? 117)) eqn:E; [|reflexivity].
  apply andb_prop in E as [[Hh H1]%andb_prop H2].
  destruct (Hsafe Hh) as (uni2 & r4 & -> & Hu2 & Hlow).
  { simpl. by rewrite H1, H2. }
  cbn -[decode_uXXXX N.div N.modulo hex_digit].
  rewrite decode_hex4 by done. by rewrite Hlow.
Qed.

Lemma scanstring_escape_char c tail :
  c < 0x110000 ->
  (is_high_surrogate c = true -> safe_after_high tail) ->
  scanstring (escape_char c ++ tail) = prepend c (scanstring tail).
Proof.
  intros Hc Hsafe. unfold escape_char.
  destruct (c =? 34) eqn:E34; [apply N.eqb_eq in E34; subst; reflexivity|].
  destruct (c =? 92) eqn:E92; [apply N.eqb_eq in E92; subst; reflexivity|].
  destruct ((32 <=? c) && (c <=? 126)) eqn:Eprint.
  { apply andb_prop in Eprint as [H1 H2]. apply N.leb_le in H1.
    simpl. rewrite E34, E92.
    assert ((c <? 32) = false) as -> by (apply N.ltb_ge; lia). reflexivity. }
  destruct (c =? 10) eqn:E10; [apply N.eqb_eq in E10; subst; reflexivity|].
  destruct (c =? 13) eqn:E13; [apply N.eqb_eq in E13; subst; reflexivity|].
  destruct (c =? 9) eqn:E9; [apply N.eqb_eq in E9; subst; reflexivity|].
  destruct (c =? 8) eqn:E8; [apply N.eqb_eq in E8; subst; reflexivity|].
  destruct (c =? 12) eqn:E12; [apply N.eqb_eq in E12; subst; reflexivity|].
  destruct (c <? 65536) eqn:Ebmp.
  - apply N.ltb_lt in Ebmp. rewrite <- app_assoc.
    by apply scanstring_u_escape.
  - apply N.ltb_ge in Ebmp.
    destruct (surrogate_pair c Ebmp Hc) as (B1 & B2 & Hh & Hl & Hc').
    cbv zeta. set (n := c - 65536) in *.
    set (s1 := N.lor 55296 (N.land (N.shiftr n 10) 1023)) in *.
    set (s2 := N.lor 56320 (N.land n 1023)) in *.
    rewrite <- !app_assoc.
    cbn -[decode_uXXXX N.div N.modulo hex_digit N.lor N.shiftl N.sub N.add].
    rewrite !decode_hex4 by done. rewrite Hh, Hl. cbn [andb].
    by rewrite Hc'.
Qed.

(** The escapes of a string that does not start with a low surrogate are
    safe after a high surrogate. *)
Lemma safe_after_high_escapes s rest :
  match s with c2 :: _ => is_low_surrogate c2 = false /\ c2 < 0x110000 | [] => True end ->
  safe_after_high (flat_map escape_char s ++ 34 :: rest).
Proof.
  destruct s as [|c2 s]; simpl.
  - intros _. destruct rest; [done|]. intros H. discriminate.
  - intros [Hlow Hc2]. rewrite <- app_assoc.
    generalize (flat_map escape_char s ++ 34 :: rest). intros tail.
    unfold escape_char.
    destruct (c2 =? 34) eqn:E34; [simpl; discriminate|].
    destruct (c2 =? 92) eqn:E92; [simpl; discriminate|].
    destruct ((32 <=? c2) && (c2 <=? 126)) eqn:Eprint.
    { simpl. destruct tail; [done|].
      intros [H1%N.eqb_eq _]%andb_prop. subst. discriminate. }
    destruct (c2 =? 10) eqn:E10; [simpl; discriminate|].
    destruct (c2 =? 13) eqn:E13; [simpl; discriminate|].
    destruct (c2 =? 9) eqn:E9; [simpl; discriminate|].
    destruct (c2 =? 8) eqn:E8; [simpl; discriminate|].
    destruct (c2 =? 12) eqn:E12; [simpl; discriminate|].
    destruct (c2 <? 65536) eqn:Ebmp.
    + apply N.ltb_lt in Ebmp. intros _. eexists c2, _. rewrite <- !app_assoc.
      split; [reflexivity|]. done.
    + apply N.ltb_ge in Ebmp.
      destruct (surrogate_pair c2 Ebmp Hc2) as (B1 & B2 & Hh & Hl & Hc').
      intros _. eexists _, _. rewrite <- !app_assoc. split; [reflexivity|].
      split; [exact B1|]. cbv zeta in Hh.
      unfold is_high_surrogate in Hh. unfold is_low_surrogate.
      apply andb_prop in Hh as [H1 H2%N.leb_le].
      apply andb_false_iff. left. apply N.leb_gt. lia.
Qed.

(** [scanstring] reads back what [encode_basestring_ascii] wrote. *)
Lemma scanstring_escapes s rest :
  str_ok s -> scanstring (flat_map escape_char s ++ 34 :: rest) = Some (s, rest).
Proof.
  induction s as [|c s IH]; simpl.
  - reflexivity.
  - intros (Hc & Hnext & Hs). rewrite <- app_assoc.
    rewrite scanstring_escape_char, IH; try done.
    intros Hh. apply safe_after_high_escapes. destruct s as [|c2 s]; [done|].
    split; [auto|]. apply Hs.
Qed.

(** *** Numbers *)

Lemma delimited_not_digit rest :
  delimited rest ->
  match rest with c :: _ => is_digit c = false | [] => True end
  /\ fraction_follows rest = false /\ exponent_follows rest = false.
Proof.
  destruct rest as [|c r]; [done|]. simpl.
  intros [H | [-> | [-> | ->]]]; try (by destruct r).
  unfold is_ws in H.
  repeat (apply orb_prop in H as [H|H]); apply N.eqb_eq in H; subst;
    by destruct r.
Qed.

Lemma span_digits_digits d rest :
  match rest with c :: _ => is_digit c = false | [] => True end ->
  span_digits (digits_of_uint d ++ rest) = (digits_of_uint d, rest).
Proof.
  intros Hrest. induction d; simpl; try (rewrite IHd; reflexivity).
  destruct rest as [|c r]; [done|]. simpl. by rewrite Hrest.
Qed.

Lemma uint_of_digits_digits d : uint_of_digits (digits_of_uint d) = d.
Proof. induction d; simpl; by rewrite ?IHd. Qed.

Lemma to_uint_head p : forall d, Pos.to_uint p <> Decimal.D0 d.
Proof.
  intros d E.
  pose proof (DecimalPos.Unsigned.to_of (Pos.to_uint p)) as H.
  rewrite DecimalPos.Unsigned.of_to in H. simpl in H.
  rewrite E, DecimalFacts.unorm_D0 in H.
  destruct d as [| | | | | | | | | |];
    try (match type of H with
         | _ = Decimal.unorm ?u =>
             pose proof (DecimalFacts.nb_digits_unorm u ltac:(discriminate)) as Hn;
             rewrite <- H in Hn; simpl in Hn; lia
         end).
  apply (DecimalPos.Unsigned.to_uint_nonzero p). exact E.
Qed.

Lemma integer_part_to_uint p rest :
  match rest with c :: _ => is_digit c = false | [] => True end ->
  integer_part (digits_of_uint (Pos.to_uint p) ++ rest)
  = Some (digits_of_uint (Pos.to_uint p), rest).
Proof.
  intros Hrest. pose proof (to_uint_head p) as Hhead.
  pose proof (DecimalPos.Unsigned.to_uint_nonnil p) as Hnil.
  destruct (Pos.to_uint p) as [|d|d|d|d|d|d|d|d|d|d]; try done;
    try (exfalso; by eapply Hhead);
    simpl; by rewrite span_digits_digits.
Qed.

Lemma of_uint_to_uint p d : Pos.to_uint p = d -> N.of_uint d = Npos p.
Proof. intros <-. apply DecimalPos.Unsigned.of_to. Qed.

Lemma scan_number_int_repr z rest :
  delimited rest -> scan_number (int_repr z ++ rest) = Some (JInt z, rest).
Proof.
  intros (Hd & Hf & He)%delimited_not_digit. unfold scan_number.
  destruct z as [|p|p]; unfold int_repr.
  - simpl. by rewrite Hf, He.
  - pose proof (to_uint_head p) as Hhead.
    pose proof (DecimalPos.Unsigned.to_uint_nonnil p) as Hnil.
    destruct (Pos.to_uint p) as [|d|d|d|d|d|d|d|d|d|d] eqn:E; try done;
      try (exfalso; by eapply Hhead);
      cbn -[N.of_uint]; rewrite span_digits_digits by done; rewrite Hf, He;
      cbn -[N.of_uint]; rewrite uint_of_digits_digits;
      rewrite (of_uint_to_uint p _ E); reflexivity.
  - pose proof (to_uint_head p) as Hhead.
    pose proof (DecimalPos.Unsigned.to_uint_nonnil p) as Hnil.
    destruct (Pos.to_uint p) as [|d|d|d|d|d|d|d|d|d|d] eqn:E; try done;
      try (exfalso; by eapply Hhead);
      cbn -[N.of_uint]; rewrite span_digits_digits by done; rewrite Hf, He;
      cbn -[N.of_uint]; rewrite uint_of_digits_digits;
      rewrite (of_uint_to_uint p _ E); reflexivity.
Qed.

(** *** White space and the first character of a value *)

Lemma skip_ws_app w t : ws_only w -> skip_ws (w ++ t) = skip_ws t.
Proof.
  unfold ws_only. induction w as [|c w IH]; simpl; [done|].
  intros [Hc Hw]%andb_prop. rewrite Hc. auto.
Qed.

Lemma newline_indent_ws indent level : ws_only (newline_indent indent level).
Proof.
  unfold ws_only, newline_indent. destruct indent as [n|]; [|done].
  simpl. induction (n * level)%nat; simpl; auto.
Qed.

Lemma ws_only_app a b : ws_only a -> ws_only b -> ws_only (a ++ b).
Proof. unfold ws_only. intros Ha Hb. by rewrite forallb_app, Ha, Hb. Qed.

Lemma delimited_ws_then w c rest :
  ws_only w -> c = 44 \/ c = 93 \/ c = 125 -> delimited (w ++ c :: rest).
Proof.
  destruct w as [|a w]; simpl; [auto|].
  intros [Ha _]%andb_prop _. by left.
Qed.

Lemma separator_eq indent level :
  item_separator indent ++ newline_indent indent level
  = 44 :: separator_space indent level.
Proof. unfold item_separator, separator_space. by destruct indent. Qed.

Lemma separator_space_ws indent level : ws_only (separator_space indent level).
Proof.
  unfold separator_space. apply ws_only_app; [by destruct indent|].
  apply newline_indent_ws.
Qed.

Lemma digits_start d : d <> Decimal.Nil -> value_start (digits_of_uint d).
Proof. destruct d; simpl; done. Qed.

Lemma iterencode_start indent v level : value_start (iterencode indent v level).
Proof.
  destruct v as [| [] | z | s | l | o].
  - by vm_compute.
  - by vm_compute.
  - by vm_compute.
  - destruct z as [|p|p]; cbn [iterencode int_repr]; try done.
    apply digits_start, DecimalPos.Unsigned.to_uint_nonnil.
  - cbn [iterencode]. unfold encode_basestring_ascii. simpl. done.
  - destruct l; [by vm_compute|]. cbn [iterencode]. simpl. done.
  - destruct o; [by vm_compute|]. cbn [iterencode]. simpl. done.
Qed.

Lemma skip_ws_value s r : value_start s -> skip_ws (s ++ r) = s ++ r.
Proof. destruct s as [|c s]; [done|]. simpl. intros (-> & _). done. Qed.

Lemma join_cons sep p ps t :
  join sep (p :: ps) ++ t
  = p ++ match ps with [] => t | _ => sep ++ join sep ps ++ t end.
Proof. destruct ps; simpl; [done|]. by rewrite <- !app_assoc. Qed.

Lemma value_start_app s t : value_start s -> value_start (s ++ t).
Proof. by destruct s. Qed.

Lemma join_start sep p ps : value_start p -> value_start (join sep (p :: ps)).
Proof. destruct ps; simpl; [done|]. apply value_start_app. Qed.

(** *** The loops *)

Section Loops.
Variable scan : pystr -> option (json * pystr).
Variable enc : json -> pystr.
Variables w w' rest : pystr.
Hypothesis Hw : ws_only w.
Hypothesis Hw' : ws_only w'.

Local Abbreviation reads_back := (reads_back scan enc).
Local Abbreviation member := (member enc).

Lemma array_loop_join (l : list json) : forall values n,
  (length l <= n)%nat -> l <> [] -> Forall reads_back l ->
  array_loop scan n (join (44 :: w) (map enc l) ++ w' ++ 93 :: rest) values
  = Some (JArr (values ++ l), rest).
Proof.
  induction l as [|x l IH]; intros values n Hn Hne Hall; [done|].
  inversion Hall as [|? ? [Hx Hstart] Hall']; subst.
  destruct n as [|n]; [simpl in Hn; lia|]. simpl in Hn.
  rewrite map_cons, join_cons. cbn [array_loop].
  destruct l as [|y l].
  - cbn [map]. rewrite Hx by (apply delimited_ws_then; auto).
    rewrite skip_ws_app by done. simpl. reflexivity.
  - rewrite (map_cons _ y l). rewrite Hx by (simpl; auto). cbn -[join map].
    rewrite skip_ws_app by done.
    inversion Hall' as [|? ? [_ Hy] _]; subst.
    rewrite skip_ws_value by (by apply join_start).
    change (enc y :: map enc l) with (map enc (y :: l)).
    rewrite IH; try done; [|simpl in *; lia].
    by rewrite <- app_assoc.
Qed.

Lemma member_eq kv t :
  member kv ++ t
  = 34 :: flat_map escape_char kv.1 ++ 34 :: 58 :: 32 :: enc kv.2 ++ t.
Proof.
  unfold member, encode_basestring_ascii, key_separator. simpl.
  by rewrite <- !app_assoc.
Qed.

Lemma object_loop_join (l : list (pystr * json)) : forall pairs n body,
  (length l <= n)%nat -> l <> [] ->
  Forall (fun kv => str_ok kv.1 /\ reads_back kv.2) l ->
  join (44 :: w) (map member l) ++ w' ++ 125 :: rest = 34 :: body ->
  object_loop scan n body pairs = Some (JObj (dict_of_pairs (pairs ++ l)), rest).
Proof.
  induction l as [|[k v] l IH]; intros pairs n body Hn Hne Hall Hbody; [done|].
  inversion Hall as [|? ? (Hk & Hv & Hstart) Hall']; subst.
  destruct n as [|n]; [simpl in Hn; lia|]. simpl in Hn.
  rewrite map_cons, join_cons, member_eq in Hbody.
  cbn [fst snd] in *.
  injection Hbody as <-. cbn [object_loop].
  rewrite scanstring_escapes by done. cbn -[join map dict_of_pairs member].
  rewrite skip_ws_value by done.
  destruct l as [|kv' l].
  - cbn [map]. rewrite Hv by (apply delimited_ws_then; auto).
    rewrite skip_ws_app by done. simpl. reflexivity.
  - rewrite (map_cons _ kv' l). rewrite Hv by (simpl; auto).
    cbn -[join map dict_of_pairs member].
    rewrite skip_ws_app by done.
    rewrite join_cons, member_eq. cbn -[join map dict_of_pairs member].
    erewrite IH; [by rewrite <- app_assoc | simpl in *; lia | done | done |].
    rewrite map_cons, join_cons, member_eq. reflexivity.
Qed.

End Loops.

(** *** Dictionaries *)

Lemma dict_set_fresh k v d : k ∉ map fst d -> dict_set k v d = d ++ [(k, v)].
Proof.
  induction d as [|[k' v'] d IH]; simpl; [done|].
  intros H. apply not_elem_of_cons in H as [Hne Hd].
  apply not_eq_sym, pystr_eqb_neq in Hne. rewrite Hne. by rewrite IH.
Qed.

Lemma dict_of_pairs_app acc l :
  NoDup (map fst (acc ++ l)) ->
  fold_left (fun d kv => dict_set kv.1 kv.2 d) l acc = acc ++ l.
Proof.
  revert acc. induction l as [|[k v] l IH]; intros acc Hnd; simpl.
  - by rewrite app_nil_r.
  - rewrite dict_set_fresh.
    + rewrite IH; [by rewrite <- app_assoc | by rewrite <- app_assoc].
    + rewrite map_app in Hnd. apply NoDup_app in Hnd as (_ & Hdisj & _).
      intros Hin. apply (Hdisj k Hin). simpl. left.
Qed.

Lemma dict_of_pairs_nodup l : NoDup (map fst l) -> dict_of_pairs l = l.
Proof. intros H. unfold dict_of_pairs. by rewrite dict_of_pairs_app. Qed.

(** *** Well-formed values, as lists *)

Lemma json_ok_arr l : json_ok (JArr l) <-> Forall json_ok l.
Proof.
  simpl. induction l as [|x l IH].
  - split; [constructor | done].
  - rewrite Forall_cons, <- IH. done.
Qed.

Lemma json_ok_obj o :
  json_ok (JObj o)
  <-> NoDup (map fst o) /\ Forall (fun kv => str_ok kv.1 /\ json_ok kv.2) o.
Proof.
  simpl. apply and_iff_compat_l. induction o as [|kv o IH].
  - split; [constructor | done].
  - rewrite Forall_cons, <- IH. done.
Qed.

Lemma size_pos v : (1 <= size v)%nat.
Proof. destruct v; simpl; lia. Qed.

Lemma list_sum_bound {A} (f : A -> nat) l :
  (forall x, 1 <= f x)%nat ->
  (length l <= list_sum (map f l))%nat
  /\ Forall (fun x => f x <= list_sum (map f l))%nat l.
Proof.
  intros Hf. induction l as [|x l [IH1 IH2]]; simpl.
  - split; [lia | constructor].
  - split; [pose proof (Hf x); lia|]. constructor; [lia|].
    eapply Forall_impl; [exact IH2|]. simpl. intros. lia.
Qed.

(** *** The scanner reads back what the encoder wrote *)

Section Indent.
Variable indent : option nat.

Lemma scan_once_literal fuel lit v rest :
  match lit with
  | c :: _ => c = 110 \/ c = 116 \/ c = 102
  | [] => False
  end ->
  scan_once (S fuel) (lit ++ rest) = expect lit v (lit ++ rest) ->
  scan_once (S fuel) (lit ++ rest) = Some (v, rest).
Proof.
  intros _ ->. unfold expect. rewrite startswith_app.
  by rewrite drop_app_length.
Qed.

Lemma scan_once_number fuel s :
  match s with
  | c :: _ => is_digit c = true \/ c = 45
  | [] => False
  end ->
  scan_once (S fuel) s = scan_number s.
Proof.
  destruct s as [|c s]; [done|]. intros Hc. cbn [scan_once].
  assert ((c =? 34) = false /\ (c =? 123) = false /\ (c =? 91) = false
          /\ (c =? 110) = false /\ (c =? 116) = false /\ (c =? 102) = false)
    as (-> & -> & -> & -> & -> & ->); [|done].
  destruct Hc as [Hc | ->]; [|done].
  unfold is_digit in Hc. apply andb_prop in Hc as [H1 H2].
  apply N.leb_le in H1, H2. repeat split; apply N.eqb_neq; lia.
Qed.

Lemma int_repr_head z :
  match int_repr z with
  | c :: _ => is_digit c = true \/ c = 45
  | [] => False
  end.
Proof.
  destruct z as [|p|p]; simpl; auto.
  pose proof (DecimalPos.Unsigned.to_uint_nonnil p).
  destruct (Pos.to_uint p); simpl; auto.
Qed.

Theorem scan_once_iterencode v :
  json_ok v ->
  forall level fuel rest,
    (size v <= fuel)%nat -> delimited rest ->
    scan_once fuel (iterencode indent v level ++ rest) = Some (v, rest).
Proof.
  induction v as [| b | z | s | l IH | o IH] using json_nested_ind;
    intros Hok level fuel rest Hfuel Hrest;
    (destruct fuel as [|fuel]; [simpl in Hfuel; lia|]).
  - reflexivity.
  - destruct b; reflexivity.
  - cbn [iterencode]. rewrite scan_once_number.
    + by apply scan_number_int_repr.
    + pose proof (int_repr_head z). by destruct (int_repr z).
  - cbn [iterencode]. unfold encode_basestring_ascii. rewrite <- !app_assoc.
    cbn [app scan_once]. cbn [N.eqb Pos.eqb].
    rewrite scanstring_escapes by done. reflexivity.
  - destruct l as [|x l]; [reflexivity|].
    cbn [iterencode]. rewrite separator_eq. rewrite <- !app_assoc.
    cbn [app scan_once]. cbn [N.eqb Pos.eqb]. unfold JSONArray.
    rewrite skip_ws_app by apply newline_indent_ws.
    pose proof (iterencode_start indent x (S level)) as Hx.
    rewrite skip_ws_value by (rewrite map_cons; by apply join_start).
    destruct (join _ _ ++ _) as [|c r] eqn:Ejoin.
    { rewrite map_cons, join_cons in Ejoin.
      destruct (iterencode indent x (S level)); done. }
    assert ((c =? 93) = false) as ->.
    { rewrite map_cons, join_cons in Ejoin.
      destruct (iterencode indent x (S level)) as [|c' ?]; [done|].
      injection Ejoin as <- _. apply N.eqb_neq. apply Hx. }
    rewrite <- Ejoin. change (93 :: rest) with ([93] ++ rest).
    simpl in Hfuel. apply le_S_n in Hfuel.
    destruct (list_sum_bound size (x :: l) size_pos) as [Hlen Hsizes].
    apply json_ok_arr in Hok. cbn [app].
    rewrite (array_loop_join (scan_once fuel)
               (fun v => iterencode indent v (S level))).
    + reflexivity.
    + apply separator_space_ws.
    + apply newline_indent_ws.
    + simpl in Hlen |- *. lia.
    + done.
    + rewrite Forall_forall in IH, Hok, Hsizes. apply Forall_forall.
      intros y Hy. split; [|apply iterencode_start].
      intros r' Hr. apply IH; auto. specialize (Hsizes y Hy). simpl in Hsizes. lia.
  - destruct o as [|kv o]; [reflexivity|].
    cbn [iterencode]. rewrite separator_eq. rewrite <- !app_assoc.
    cbn [app scan_once]. cbn [N.eqb Pos.eqb]. unfold JSONObject.
    rewrite skip_ws_app by apply newline_indent_ws.
    change (fun kv0 : pystr * json =>
              encode_basestring_ascii kv0.1 ++ key_separator
              ++ iterencode indent kv0.2 (S level))
      with (member (fun v => iterencode indent v (S level))).
    destruct (join _ _ ++ _) as [|c r] eqn:Ejoin.
    { rewrite map_cons, join_cons, member_eq in Ejoin. done. }
    pose proof Ejoin as Ejoin'.
    rewrite map_cons, join_cons, member_eq in Ejoin'.
    injection Ejoin' as <- _. cbn [skip_ws is_ws N.eqb Pos.eqb orb].
    simpl in Hfuel. apply le_S_n in Hfuel.
    destruct (list_sum_bound (fun kv => size kv.2) (kv :: o)
                (fun kv => size_pos kv.2)) as [Hlen Hsizes].
    apply json_ok_obj in Hok as [Hnd Hok].
    rewrite (object_loop_join (scan_once fuel)
               (fun v => iterencode indent v (S level))
               (separator_space indent (S level)) (newline_indent indent level)
               rest (separator_space_ws _ _) (newline_indent_ws _ _)
               (kv :: o) [] fuel r).
    + cbn [app]. by rewrite dict_of_pairs_nodup.
    + simpl in Hlen |- *. lia.
    + done.
    + rewrite Forall_forall in IH, Hok, Hsizes. apply Forall_forall.
      intros y Hy. destruct (Hok y Hy) as [Hk Hv]. split; [done|].
      split; [|apply iterencode_start].
      intros r' Hr. apply IH; auto. specialize (Hsizes y Hy). simpl in Hsizes. lia.
    + exact Ejoin.
Qed.

End Indent.

(** *** Fuel: a document is at least as long as its value is large *)

Lemma length_join sep parts :
  (list_sum (map length parts) <= length (join sep parts))%nat.
Proof.
  induction parts as [|p ps IH]; simpl; [lia|].
  destruct ps as [|q ps]; [simpl; lia|].
  rewrite !length_app. simpl in IH |- *. lia.
Qed.

Lemma list_sum_le {A} (f g : A -> nat) l :
  Forall (fun x => f x <= g x)%nat l ->
  (list_sum (map f l) <= list_sum (map g l))%nat.
Proof. induction 1; simpl; lia. Qed.

Lemma size_le_length indent v :
  forall level, (size v <= length (iterencode indent v level))%nat.
Proof.
  induction v as [| b | z | s | l IH | o IH] using json_nested_ind; intros level.
  - vm_compute. lia.
  - destruct b; vm_compute; lia.
  - pose proof (int_repr_head z). cbn [iterencode size].
    destruct (int_repr z); [done | simpl; lia].
  - cbn [iterencode size]. unfold encode_basestring_ascii. simpl. lia.
  - destruct l as [|x l]; [vm_compute; lia|].
    cbn [iterencode size]. rewrite !length_app.
    pose proof (length_join
                  (item_separator indent ++ newline_indent indent (S level))
                  (map (fun v => iterencode indent v (S level)) (x :: l))) as Hj.
    rewrite map_map in Hj.
    assert (list_sum (map size (x :: l))
            <= list_sum (map (fun v => length (iterencode indent v (S level)))
                           (x :: l)))%nat as Hs.
    { apply list_sum_le. eapply Forall_impl; [exact IH|].
      intros y Hy. apply Hy. }
    simpl length at 1. lia.
  - destruct o as [|kv o]; [vm_compute; lia|].
    cbn [iterencode size]. rewrite !length_app.
    pose proof (length_join
                  (item_separator indent ++ newline_indent indent (S level))
                  (map (fun kv => encode_basestring_ascii kv.1 ++ key_separator
                                  ++ iterencode indent kv.2 (S level))
                     (kv :: o))) as Hj.
    rewrite map_map in Hj.
    assert (list_sum (map (fun kv => size kv.2) (kv :: o))
            <= list_sum
                 (map (fun kv => length (encode_basestring_ascii kv.1 ++ key_separator
                                         ++ iterencode indent kv.2 (S level)))
                    (kv :: o)))%nat as Hs.
    { apply list_sum_le. eapply Forall_impl; [exact IH|].
      intros kv' Hkv. cbn beta. rewrite !length_app.
      specialize (Hkv (S level)). lia. }
    simpl length at 1. lia.
Qed.

(** [json.loads(json.dumps(v))] and [json.loads(json.dumps(v, indent=n))]
    give [v] back. *)
Theorem loads_dumps indent v : json_ok v -> loads (dumps indent v) = Some v.
Proof.
  intros Hok. unfold loads, dumps.
  pose proof (iterencode_start indent v 0) as Hstart.
  pose proof (size_le_length indent v 0) as Hsize.
  pose proof (scan_once_iterencode indent v Hok 0
                (S (length (iterencode indent v 0))) [] ltac:(lia) I) as Hscan.
  rewrite app_nil_r in Hscan.
  destruct (iterencode indent v 0) as [|c s] eqn:E; [done|].
  destruct Hstart as (Hws & _ & Hbom). apply N.eqb_neq in Hbom. rewrite Hbom.
  cbn [skip_ws]. rewrite Hws. rewrite Hscan. reflexivity.
Qed.

(** *** The bytes of an ASCII text *)

Lemma to_N_byte_of_N n : n < 256 -> Byte.to_N (byte_of_N n) = n.
Proof.
  intros H. unfold byte_of_N. destruct (Byte.of_N n) as [b|] eqn:E.
  - by apply Byte.to_of_N.
  - apply Byte.of_N_None_iff in E. lia.
Qed.

Lemma decode_utf8_N_ascii pass s :
  ascii_only s -> decode_utf8_N pass s = Some s.
Proof.
  induction 1 as [|c s Hc Hs IH]; [done|]. cbn [decode_utf8_N].
  apply N.ltb_lt in Hc. by rewrite Hc, IH.
Qed.

Lemma decode_utf8_ascii pass s :
  ascii_only s -> decode_utf8 pass (map byte_of_N s) = Some s.
Proof.
  intros Hs. unfold decode_utf8. rewrite map_map.
  assert (map (fun x => Byte.to_N (byte_of_N x)) s = s) as ->.
  { induction Hs as [|c s Hc Hs IH]; simpl; [done|].
    rewrite to_N_byte_of_N by lia. by rewrite IH. }
  by apply decode_utf8_N_ascii.
Qed.

End RoundTrip.
Import RoundTrip.

Module AiLogicFacts.
Import AiLogic Scenarios.

Lemma pystr_in_spec x l : pystr_in x l = true <-> x ∈ l.
Proof.
  unfold pystr_in. rewrite existsb_exists. split.
  - intros (y & Hy & E). apply pystr_eqb_eq in E. subst. by apply list_elem_of_In.
  - intros H. exists x. split; [by apply list_elem_of_In | apply pystr_eqb_refl].
Qed.

Lemma pystr_in_false x l : pystr_in x l = false <-> x ∉ l.
Proof.
  rewrite <- pystr_in_spec. destruct (pystr_in x l); split; try done.
Qed.

(** The loop returns the first entry of the preference list that is
    available. *)
Lemma first_preferred_Some prefs available p :
  first_preferred prefs available = Some p <->
  exists before after,
    prefs = before ++ p :: after /\ p ∈ available
    /\ forall q, q ∈ before -> q ∉ available.
Proof.
  induction prefs as [|a prefs IH]; simpl.
  - split; [done|]. intros (before & after & E & _). by destruct before.
  - destruct (pystr_in a available) eqn:Ha.
    + split.
      * intros [= <-]. exists [], prefs. split; [done|]. split.
        -- by apply pystr_in_spec.
        -- intros q Hq. by apply not_elem_of_nil in Hq.
      * intros (before & after & E & Hp & Hb). destruct before as [|b before].
        -- simpl in E. by inversion E.
        -- simpl in E. inversion E; subst b. exfalso.
           apply (Hb a); [left | by apply pystr_in_spec].
    + rewrite IH. split.
      * intros (before & after & -> & Hp & Hb). exists (a :: before), after.
        split; [done|]. split; [done|]. intros q [->|Hq]%elem_of_cons; [|auto].
        by apply pystr_in_false.
      * intros (before & after & E & Hp & Hb). destruct before as [|b before].
        -- simpl in E. inversion E; subst a. apply pystr_in_spec in Hp. congruence.
        -- simpl in E. inversion E; subst b. exists before, after.
           split; [done|]. split; [done|]. intros q Hq. apply Hb. by right.
Qed.

Lemma first_preferred_None prefs available :
  first_preferred prefs available = None <-> forall q, q ∈ prefs -> q ∉ available.
Proof.
  induction prefs as [|a prefs IH]; simpl.
  - split; [|done]. intros _ q Hq. by apply not_elem_of_nil in Hq.
  - destruct (pystr_in a available) eqn:Ha.
    + split; [done|]. intros H. exfalso. apply (H a); [left|by apply pystr_in_spec].
    + rewrite IH. split.
      * intros H q [->|Hq]%elem_of_cons; [by apply pystr_in_false | auto].
      * intros H q Hq. apply H. by right.
Qed.

Lemma preferred_names_nonempty p : p ∈ preferred_order -> p <> [].
Proof.
  unfold preferred_order. rewrite !elem_of_cons, elem_of_nil.
  intros [->|[->|[->|[]]]]; by vm_compute.
Qed.

Section Gateway.
Context {W : Type}.
Variable genai : provider W.
Variable json_loads : pystr -> outcome json.

(** Once a handle is stored, the call returns it: the provider is not
    asked and nothing changes. *)
Lemma get_gemini_model_cached (st : process W) inst :
  _gemini_model_instance st = Some inst ->
  get_gemini_model genai st = (Done inst, st, []).
Proof. intros H. unfold get_gemini_model. run_M. by rewrite H. Qed.

Lemma set_world_instance (w : W) (st : process W) :
  _gemini_model_instance (set_world w st) = _gemini_model_instance st.
Proof. done. Qed.

(** A call never ends by a script-control exception, and a handle it
    returns is the one stored afterwards. *)
Lemma get_gemini_model_result (st : process W) :
  match get_gemini_model genai st with
  | (Done inst, st', _) => _gemini_model_instance st' = Some inst
  | (Error _, _, _) => True
  | (Halt _, _, _) => False
  end.
Proof.
  unfold get_gemini_model. run_M.
  destruct (_gemini_model_instance st) eqn:E; [done|].
  destruct (list_models genai (world st)) as [[ms|e] w1]; [|done].
  destruct (choose_model_name (available_models ms)) as [n|]; [|done].
  destruct (pystr_eqb n []); simpl; [done|].
  destruct (new_GenerativeModel genai n _) as [[inst|e] w2]; simpl; done.
Qed.


(** The gateway leaves Streamlit's session state alone. *)
Lemma get_gemini_model_session (st : process W) :
  session_state (get_gemini_model genai st).1.2 = session_state st.
Proof.
  unfold get_gemini_model. run_M.
  destruct (_gemini_model_instance st) eqn:E; [done|].
  destruct (list_models genai (world st)) as [[ms|e] w1]; [|done].
  destruct (choose_model_name (available_models ms)) as [n|]; [|done].
  destruct (pystr_eqb n []); simpl; [done|].
  destruct (new_GenerativeModel genai n _) as [[inst|e] w2]; simpl; done.
Qed.

Lemma ask_gemini_text_session prompt (st : process W) :
  session_state (ask_gemini_text genai prompt st).1.2 = session_state st.
Proof.
  unfold ask_gemini_text. run_M.
  pose proof (get_gemini_model_session st) as Hs.
  destruct (get_gemini_model genai st) as [[[inst|e|c] st1] tr1]; simpl in *; try done.
  destruct (pystr_eqb (strip prompt) []); [done|].
  destruct (generate_content genai inst prompt None (world st1)) as [[r|e] w2]; simpl.
  - by destruct (first_part_text r).
  - by destruct (exn_class_of e) as [|[]| | | | | | |].
Qed.

Lemma ask_gemini_structured_session prompt schema (st : process W) :
  session_state (ask_gemini_structured genai json_loads prompt schema st).1.2
  = session_state st.
Proof.
  unfold ask_gemini_structured. run_M.
  pose proof (get_gemini_model_session st) as Hs.
  destruct (get_gemini_model genai st) as [[[inst|e|c] st1] tr1]; simpl in *; try done.
  destruct (pystr_eqb (strip prompt) []); [done|].
  destruct (truthy schema); simpl; [|done].
  destruct (generate_content genai inst prompt (Some schema) (world st1))
    as [[r|e] w2]; simpl.
  - destruct (first_part_text r) as [t|]; [|done].
    destruct (json_loads t) as [v|je]; [done|].
    destruct (exn_class_of je) as [|[]| | | | | | |] eqn:Hc; simpl; rewrite ?Hc; done.
  - by destruct (exn_class_of e) as [|[]| | | | | | |].
Qed.

(** How the text call ends: with a string, which is the text of the
    first part when the call went through and starts with the sentinel
    otherwise; or with the AttributeError of the handler of a blocked
    prompt. *)
Lemma ask_gemini_text_outcome prompt (st : process W) :
  match ask_gemini_text genai prompt st with
  | (Done s, _, _) =>
      text_call_succeeds genai prompt st s \/ startswith sentinel s = true
  | (Error e, _, _) => text_call_escapes genai prompt st e
  | (Halt _, _, _) => False
  end.
Proof.
  unfold ask_gemini_text, text_call_succeeds, text_call_escapes,
    handler_of_block_raises.
  run_M.
  pose proof (get_gemini_model_result st) as Hres.
  destruct (get_gemini_model genai st) as [[[inst|e|c] st1] tr1]; [| |done].
  - destruct (pystr_eqb (strip prompt) []) eqn:Hp.
    { right. sentinel_prefix. }
    apply pystr_eqb_neq in Hp.
    destruct (generate_content genai inst prompt None (world st1))
      as [[response|e] w2] eqn:Hg.
    + destruct (first_part_text response) as [t|] eqn:Ht.
      * left. exists inst, st1, tr1, response, w2. done.
      * right. sentinel_prefix.
    + destruct (exn_class_of e) as [|[n|message]| | | | | | |] eqn:Hc;
        try (right; sentinel_prefix).
      exists inst, st1, tr1, e, w2. repeat split; try done. by exists message.
  - right. sentinel_prefix.
Qed.

(** How the structured call ends: with a value, which is the parsed text
    of the first part when the call went through and the dictionary with
    the single key [error] otherwise; or with the AttributeError of the
    handler of a blocked prompt. *)
Lemma ask_gemini_structured_outcome prompt schema (st : process W) :
  match ask_gemini_structured genai json_loads prompt schema st with
  | (Done v, _, _) =>
      structured_call_succeeds genai json_loads prompt schema st v
      \/ exists msg, v = JObj [(u "error", JStr msg)]
                     /\ startswith sentinel msg = true
  | (Error e, _, _) => structured_call_escapes genai json_loads prompt schema st e
  | (Halt _, _, _) => False
  end.
Proof.
  unfold ask_gemini_structured, structured_call_succeeds, structured_call_escapes,
    handler_of_block_raises, error_dict.
  run_M.
  pose proof (get_gemini_model_result st) as Hres.
  destruct (get_gemini_model genai st) as [[[inst|e|c] st1] tr1]; [| |done].
  - destruct (pystr_eqb (strip prompt) []) eqn:Hp.
    { right. eexists. split; [reflexivity|]. sentinel_prefix. }
    apply pystr_eqb_neq in Hp.
    destruct (truthy schema) eqn:Hs; simpl.
    2:{ right. eexists. split; [reflexivity|]. sentinel_prefix. }
    destruct (generate_content genai inst prompt (Some schema) (world st1))
      as [[response|e] w2] eqn:Hg.
    + destruct (first_part_text response) as [json_text|] eqn:Ht.
      * destruct (json_loads json_text) as [parsed|json_e] eqn:Hl.
        -- left. exists inst, st1, tr1, response, w2, json_text. done.
        -- destruct (exn_class_of json_e) as [|[n|message]| | | | | | |] eqn:Hc;
             simpl; try rewrite Hc;
             try (right; eexists; split; [reflexivity|]; sentinel_prefix).
           exists inst, st1, tr1, json_e. repeat split; try done.
           ++ by exists message.
           ++ right. by exists response, w2, json_text.
      * right. eexists. split; [reflexivity|]. sentinel_prefix.
    + destruct (exn_class_of e) as [|[n|message]| | | | | | |] eqn:Hc;
        try (right; eexists; split; [reflexivity|]; sentinel_prefix).
      exists inst, st1, tr1, e. repeat split; try done.
      * by exists message.
      * left. by exists w2.
  - right. eexists. split; [reflexivity|]. sentinel_prefix.
Qed.

(** C5, as the code has it.  With no handle stored and the models listed:
    the name chosen is the first entry of the preference list that is
    among the models supporting content generation, and the first such
    model when no entry is; the call raises [no_suitable_model] when no
    model supports content generation (or the chosen name is empty),
    raises [failed_to_initialize] when constructing the handle raises, and
    otherwise returns the handle and stores it; a later call returns the
    stored handle without asking the provider. *)
Theorem model_initialization (st : process W) ms w1 :
  _gemini_model_instance st = None ->
  list_models genai (world st) = (Returns ms, w1) ->
  let available := available_models ms in
  (forall p before after,
      preferred_order = before ++ p :: after -> p ∈ available ->
      (forall q, q ∈ before -> q ∉ available) ->
      choose_model_name available = Some p)
  /\ ((forall q, q ∈ preferred_order -> q ∉ available) ->
      choose_model_name available = head available)
  /\ match choose_model_name available with
     | None =>
         available = []
         /\ get_gemini_model genai st
            = (Error no_suitable_model, set_world w1 st, [ev_list_models])
     | Some n =>
         n ∈ available
         /\ if pystr_eqb n [] then
              get_gemini_model genai st
              = (Error no_suitable_model, set_world w1 st, [ev_list_models])
            else
              match new_GenerativeModel genai n w1 with
              | (Returns inst, w2) =>
                  let st' := set_instance (Some inst) (set_world w2 st) in
                  get_gemini_model genai st' = (Done inst, st', [])
                  /\ get_gemini_model genai st = (Done inst, st', [ev_list_models])
              | (Raises e, w2) =>
                  get_gemini_model genai st
                  = (Error (failed_to_initialize n), set_world w2 st, [ev_list_models])
              end
     end.
Proof.
  intros Hnone Hlist available. split; [|split].
  - intros p before after Hsplit Hp Hbefore. unfold choose_model_name.
    assert (first_preferred preferred_order available = Some p) as ->; [|done].
    apply first_preferred_Some. by exists before, after.
  - intros Hno. unfold choose_model_name.
    apply first_preferred_None in Hno. rewrite Hno. by destruct available.
  - unfold get_gemini_model. run_M. rewrite Hnone, Hlist. fold available.
    unfold choose_model_name.
    destruct (first_preferred preferred_order available) as [n|] eqn:Hfp.
    + apply first_preferred_Some in Hfp as (before & after & Hsplit & Hn & _).
      split; [done|].
      assert (n <> []) as Hne.
      { apply preferred_names_nonempty. rewrite Hsplit.
        apply elem_of_app. right. left. }
      apply pystr_eqb_neq in Hne. rewrite Hne. simpl.
      destruct (new_GenerativeModel genai n w1) as [[inst|e] w2]; simpl; [|done].
      split; done.
    + destruct available as [|a rest]; [done|].
      split; [left|].
      destruct (pystr_eqb a []); simpl; [done|].
      destruct (new_GenerativeModel genai a w1) as [[inst|e] w2]; simpl; [|done].
      split; done.
Qed.

End Gateway.

(** C2 on the code: the handler of a blocked prompt can raise.  Lines 96-97
    and 145-146 evaluate [e.response.prompt_feedback.block_reason.name]
    inside the except clause; on an exception object without this chain
    the AttributeError is raised there, where the except clause after it
    does not catch it, and both calls end with this exception in place of
    the sentinel text and the error dictionary.  With the chain there, the
    same block is reported as the claim says. *)
Theorem blocked_prompt_escapes_the_gateway :
  let prompt := u "SELECT a AS b FROM t" in
  let model := {| model_name := u "models/gemini-pro" |} in
  ask_gemini_text (blocking_provider (Lacks no_response_attribute)) prompt demo_process
  = (Error (Exn AttributeError no_response_attribute), demo_process,
     [ev_generate_content model prompt None])
  /\ ask_gemini_structured (blocking_provider (Lacks no_response_attribute))
       loads_outcome prompt App.response_schema demo_process
     = (Error (Exn AttributeError no_response_attribute), demo_process,
        [ev_generate_content model prompt (Some App.response_schema)])
  /\ ask_gemini_text (blocking_provider (Has (u "SAFETY"))) prompt demo_process
     = (Done (u "❌ AI Blocked Content: Your request for text generation was blocked due to safety policy. Details: SAFETY."),
        demo_process, [ev_generate_content model prompt None])
  /\ ask_gemini_structured (blocking_provider (Has (u "SAFETY")))
       loads_outcome prompt App.response_schema demo_process
     = (Done (JObj [(u "error",
                     JStr (u "❌ AI Blocked Content (Structured): Your request for structured generation was blocked due to safety policy. Details: SAFETY."))]),
        demo_process, [ev_generate_content model prompt (Some App.response_schema)]).
Proof. repeat split; vm_compute; reflexivity. Qed.

Lemma model_initialization_witness :
  get_gemini_model (demo_provider []) fresh_process
  = (Done {| model_name := u "models/gemini-pro" |},
     set_instance (Some {| model_name := u "models/gemini-pro" |}) fresh_process,
     [ev_list_models]).
Proof.
  pose proof (model_initialization (demo_provider []) fresh_process demo_models tt
                eq_refl eq_refl) as (_ & _ & H).
  vm_compute in H. destruct H as (_ & _ & H). vm_compute. exact H.
Defined.

(** A model supports content generation, and the call still raises. *)
Lemma model_initialization_raises_with_models :
  available_models demo_models = [u "models/gemini-pro"]
  /\ get_gemini_model failing_constructor fresh_process
     = (Error (failed_to_initialize (u "models/gemini-pro")), fresh_process,
        [ev_list_models]).
Proof. split; reflexivity. Qed.

End AiLogicFacts.

Module VisualizerFacts.
Import Visualizer Scenarios.

Lemma key_eqb_refl k : hashable k = true -> key_eqb k k = true.
Proof.
  destruct k as [| [] | z | s | |]; simpl; try done; intros _.
  - apply Z.eqb_refl.
  - apply pystr_eqb_refl.
Qed.

Lemma key_eqb_hashable k n : key_eqb k n = true -> hashable n = true.
Proof. destruct k as [| [] | | | |], n as [| [] | | | |]; simpl; done. Qed.

Lemma node_lookup_None n nodes :
  node_lookup n nodes = None <-> Forall (fun kd => key_eqb kd.1 n = false) nodes.
Proof.
  induction nodes as [|[k d] nodes IH]; simpl.
  - split; [constructor | done].
  - destruct (key_eqb k n) eqn:E.
    + split; [done|]. intros H. inversion H; simpl in *; congruence.
    + rewrite IH. split; [by constructor | intros H; by inversion H].
Qed.

Lemma node_lookup_Some n nodes d :
  node_lookup n nodes = Some d -> Exists (fun kd => key_eqb kd.1 n = true) nodes.
Proof.
  induction nodes as [|[k d'] nodes IH]; simpl; [done|].
  destruct (key_eqb k n) eqn:E; [by left | right; auto].
Qed.

Lemma node_lookup_is_Some n nodes :
  Exists (fun kd => key_eqb kd.1 n = true) nodes -> is_Some (node_lookup n nodes).
Proof.
  induction 1 as [[k d] nodes H | [k d] nodes H IH]; simpl in *.
  - by rewrite H.
  - by destruct (key_eqb k n).
Qed.

Lemma node_lookup_app_new n nodes d :
  hashable n = true -> node_lookup n nodes = None ->
  node_lookup n (nodes ++ [(n, d)]) = Some d.
Proof.
  intros Hn. induction nodes as [|[k d'] nodes IH]; simpl.
  - by rewrite key_eqb_refl.
  - destruct (key_eqb k n); [done | auto].
Qed.

Lemma node_lookup_update n attr nodes d :
  node_lookup n nodes = Some d ->
  node_lookup n (node_update n attr nodes) = Some (dict_update attr d).
Proof.
  induction nodes as [|[k d'] nodes IH]; simpl; [done|].
  destruct (key_eqb k n) eqn:E; simpl; rewrite E; [by intros [= ->] | auto].
Qed.

Lemma edge_lookup_None e edges :
  edge_lookup e edges = None <-> Forall (fun kd => edge_key_eqb kd.1 e = false) edges.
Proof.
  induction edges as [|[k d] edges IH]; simpl.
  - split; [constructor | done].
  - destruct (edge_key_eqb k e) eqn:E.
    + split; [done|]. intros H. inversion H; simpl in *; congruence.
    + rewrite IH. split; [by constructor | intros H; by inversion H].
Qed.

Lemma dict_get_set_eq k v d : dict_get k (dict_set k v d) = Some v.
Proof.
  induction d as [|[k' v'] d IH]; simpl.
  - by rewrite pystr_eqb_refl.
  - destruct (pystr_eqb k' k) eqn:E; simpl; rewrite E; done.
Qed.

Lemma dict_get_set_ne k k' v d :
  k <> k' -> dict_get k (dict_set k' v d) = dict_get k d.
Proof.
  intros Hne. induction d as [|[k0 v0] d IH]; simpl.
  - apply not_eq_sym, pystr_eqb_neq in Hne. by rewrite Hne.
  - destruct (pystr_eqb k0 k') eqn:E; simpl.
    + apply pystr_eqb_eq in E. subst k0.
      apply not_eq_sym, pystr_eqb_neq in Hne. by rewrite Hne.
    + by rewrite IH.
Qed.

Lemma label_group_title_distinct :
  u "label" <> u "group" /\ u "label" <> u "title" /\ u "group" <> u "title".
Proof. repeat split; by vm_compute. Qed.

(** The three keyword arguments of [add_node], as a fresh attribute
    dictionary and as an update of an old one. *)
Lemma node_attributes_fresh l g t :
  dict_update [(u "label", l); (u "group", g); (u "title", t)] []
  = [(u "label", l); (u "group", g); (u "title", t)].
Proof.
  destruct label_group_title_distinct as (H1 & H2 & H3).
  apply pystr_eqb_neq in H1, H2, H3.
  unfold dict_update. simpl. by rewrite ?H1, ?H2, ?H3.
Qed.

Lemma node_attributes_get l g t d :
  let attrs := dict_update [(u "label", l); (u "group", g); (u "title", t)] d in
  dict_get (u "label") attrs = Some l
  /\ dict_get (u "group") attrs = Some g
  /\ dict_get (u "title") attrs = Some t.
Proof.
  destruct label_group_title_distinct as (H1 & H2 & H3).
  unfold dict_update. simpl. repeat split.
  - rewrite dict_get_set_ne by done. rewrite dict_get_set_ne by done.
    apply dict_get_set_eq.
  - rewrite dict_get_set_ne by done. apply dict_get_set_eq.
  - apply dict_get_set_eq.
Qed.

Lemma edge_attributes_fresh t l :
  dict_update [(u "title", t); (u "label", l)] []
  = [(u "title", t); (u "label", l)].
Proof.
  assert (pystr_eqb (u "title") (u "label") = false) as H by by vm_compute.
  unfold dict_update. simpl. by rewrite ?H.
Qed.

Section Render.
Variable container_repr : json -> pystr.

Local Abbreviation node_of := (node_of container_repr).
Local Abbreviation add_node_data := (add_node_data container_repr).
Local Abbreviation build_graph := (build_graph container_repr).

(** C9. A node entry whose [id] can be a node (hashable, not null) is
    added whatever else it lacks: its graph node has the label of the
    entry, or the id when the entry has none; the group of the entry, or
    [unknown]; and as title the JSON text of the entry's title, or of the
    string made of the id and the group.  The group [unknown] has a style
    of its own among the options. *)
Theorem node_defaults (node_data : dict) (G : DiGraph) :
  let node_id := dict_get_default (u "id") JNull node_data in
  let label := default node_id (dict_get (u "label") node_data) in
  let group := default (JStr (u "unknown")) (dict_get (u "group") node_data) in
  let title_text :=
    default (JStr (u "ID: " ++ py_str container_repr node_id ++ u "\nType: "
                   ++ py_str container_repr group))
      (dict_get (u "title") node_data) in
  hashable node_id = true -> node_id <> JNull ->
  (exists G' attrs,
      add_node_data (JObj node_data) G = Returns G'
      /\ node_lookup node_id (_node G') = Some attrs
      /\ dict_get (u "label") attrs = Some label
      /\ dict_get (u "group") attrs = Some group
      /\ dict_get (u "title") attrs = Some (JStr (dumps None title_text)))
  /\ style_of (u "unknown") group_styles = Some (u "triangle", u "#768390")
  /\ (forall g, g ∈ [u "table"; u "column"; u "transformation"] ->
      exists shape colour,
        style_of g group_styles = Some (shape, colour)
        /\ shape <> u "triangle" /\ colour <> u "#768390").
Proof.
  intros node_id label group title_text Hhash Hnull. split; [|split].
  - unfold add_node_data, Visualizer.add_node_data, add_node.
    fold node_id. unfold dict_get_default at 1 2 3.
    fold label group title_text. rewrite Hhash. cbn [negb].
    destruct (node_lookup node_id (_node G)) as [d|] eqn:Hl.
    + eexists _, _. split; [reflexivity|]. cbn [_node].
      split; [by apply node_lookup_update|]. apply node_attributes_get.
    + destruct node_id eqn:Hid; try done;
        (eexists _, _; split; [reflexivity|]; cbn [_node];
         split; [by apply node_lookup_app_new|]; apply node_attributes_get).
  - reflexivity.
  - intros g. rewrite !elem_of_cons, elem_of_nil.
    intros [->|[->|[->|[]]]]; eexists _, _;
      (split; [reflexivity|]; split; by vm_compute).
Qed.


Local Abbreviation add_edge_data := (Visualizer.add_edge_data).
Local Abbreviation for_each := (Visualizer.for_each).

Lemma distinct_keys_app_cons a k r :
  distinct_keys (a ++ k :: r) ->
  Forall (fun k' => key_eqb k' k = false) a /\ distinct_keys ((a ++ [k]) ++ r).
Proof.
  induction a as [|x a IH]; simpl.
  - intros [H1 H2]. split; [constructor | done].
  - intros [H1 H2]. apply IH in H2 as [H2 H3]. split.
    + constructor; [|done]. rewrite Forall_app in H1. destruct H1 as [_ H1].
      by inversion H1.
    + split; [|done]. by rewrite <- app_assoc.
Qed.

Lemma distinct_edges_app_cons a e r :
  distinct_edges (a ++ e :: r) ->
  Forall (fun e' => edge_key_eqb e' e = false) a /\ distinct_edges ((a ++ [e]) ++ r).
Proof.
  induction a as [|x a IH]; simpl.
  - intros [H1 H2]. split; [constructor | done].
  - intros [H1 H2]. apply IH in H2 as [H2 H3]. split.
    + constructor; [|done]. rewrite Forall_app in H1. destruct H1 as [_ H1].
      by inversion H1.
    + split; [|done]. by rewrite <- app_assoc.
Qed.

(** The loop over the nodes appends one graph node per entry, as long as
    no id repeats. *)
Lemma nodes_loop (nodes : list dict) : forall G0,
  Forall (fun nd => hashable (node_id_of nd) = true /\ node_id_of nd <> JNull) nodes ->
  distinct_keys (map fst (_node G0) ++ map node_id_of nodes) ->
  for_each add_node_data (map JObj nodes) G0
  = Returns {| _node := _node G0 ++ map node_of nodes; _succ := _succ G0 |}.
Proof.
  induction nodes as [|nd nodes IH]; intros G0 Hok Hdist; simpl.
  - rewrite app_nil_r. by destruct G0.
  - inversion Hok as [|? ? [Hhash Hnull] Hok']; subst.
    simpl in Hdist. apply distinct_keys_app_cons in Hdist as [Hnew Hdist].
    unfold add_node.
    change (dict_get_default (u "id") JNull nd) with (node_id_of nd).
    rewrite Hhash. cbn [negb].
    assert (node_lookup (node_id_of nd) (_node G0) = None) as ->.
    { apply node_lookup_None. by apply Forall_map in Hnew. }
    rewrite node_attributes_fresh.
    assert (forall (X : Type) (a b : X),
               match node_id_of nd with JNull => a | _ => b end = b) as ->.
    { intros X a b. by destruct (node_id_of nd). }
    rewrite IH.
    + cbn [_node _succ]. rewrite <- app_assoc. reflexivity.
    + done.
    + cbn [_node]. rewrite map_app. exact Hdist.
Qed.

Lemma ensure_node_present n G :
  is_node_id (map fst (_node G)) n -> ensure_node n G = Returns G.
Proof.
  intros H. unfold ensure_node, is_node_id in *.
  assert (hashable n = true) as ->.
  { apply Exists_exists in H as (k & _ & Hk). by apply key_eqb_hashable in Hk. }
  cbn [negb]. apply Exists_map in H.
  apply node_lookup_is_Some in H as [d ->]. done.
Qed.

(** The loop over the edges appends one graph edge per entry, as long as
    no pair of ends repeats and the ends are nodes already. *)
Lemma edges_loop (edges : list dict) : forall G0,
  Forall (fun ed => is_node_id (map fst (_node G0)) (edge_ends ed).1
                    /\ is_node_id (map fst (_node G0)) (edge_ends ed).2) edges ->
  distinct_edges (map fst (_succ G0) ++ map edge_ends edges) ->
  for_each add_edge_data (map JObj edges) G0
  = Returns {| _node := _node G0; _succ := _succ G0 ++ map edge_of edges |}.
Proof.
  induction edges as [|ed edges IH]; intros G0 Hok Hdist; simpl.
  - rewrite app_nil_r. by destruct G0.
  - inversion Hok as [|? ? [Hsrc Htgt] Hok']; subst.
    simpl in Hdist. apply distinct_edges_app_cons in Hdist as [Hnew Hdist].
    unfold add_edge. simpl in Hsrc, Htgt.
    rewrite (ensure_node_present _ _ Hsrc), (ensure_node_present _ _ Htgt).
    change (dict_get_default (u "source") JNull ed,
            dict_get_default (u "target") JNull ed) with (edge_ends ed).
    assert (edge_lookup (edge_ends ed) (_succ G0) = None) as ->.
    { apply edge_lookup_None. by apply Forall_map in Hnew. }
    rewrite edge_attributes_fresh. rewrite IH.
    + cbn [_node _succ]. rewrite <- app_assoc. reflexivity.
    + done.
    + cbn [_succ]. rewrite map_app. exact Hdist.
Qed.

Section Iframe.
Context {W : Type}.
Variable iframe_src : DiGraph -> outcome pystr.

(** C1, as the code has it.  A response without a truthy [error], whose
    [nodes] are entries with ids that can be nodes and do not repeat, and
    whose [edges] are entries that join these ids, no pair of ends twice:
    the graph built has exactly the nodes [node_of] of the entries and the
    edges [edge_of] of the entries, so one graph node per entry under its
    id, with its label and group, and one graph edge per entry between its
    ends, with its label; the attributes of an edge are [title] and [label]
    only, [confidence_score] is not among them.  This graph is what the
    renderer hands to the network. *)
Theorem graph_matches_response (d : dict) (nodes edges : list dict)
  (st : process W) :
  dict_get (u "nodes") d = Some (JArr (map JObj nodes)) ->
  dict_get_default (u "edges") (JArr []) d = JArr (map JObj edges) ->
  truthy_opt (dict_get (u "error") d) = false ->
  Forall (fun nd => hashable (node_id_of nd) = true /\ node_id_of nd <> JNull) nodes ->
  distinct_keys (map node_id_of nodes) ->
  Forall (fun ed => is_node_id (map node_id_of nodes) (edge_ends ed).1
                    /\ is_node_id (map node_id_of nodes) (edge_ends ed).2) edges ->
  distinct_edges (map edge_ends edges) ->
  let G := {| _node := map node_of nodes; _succ := map edge_of edges |} in
  build_graph d = Returns G
  /\ length (_node G) = length nodes
  /\ length (_succ G) = length edges
  /\ map fst (_node G) = map node_id_of nodes
  /\ map fst (_succ G) = map edge_ends edges
  /\ (forall nd, nd ∈ nodes ->
      exists title,
        (node_id_of nd,
         [(u "label", dict_get_default (u "label") (node_id_of nd) nd);
          (u "group", dict_get_default (u "group") (JStr (u "unknown")) nd);
          (u "title", title)]) ∈ _node G)
  /\ (forall ed, ed ∈ edges ->
      exists title,
        (edge_ends ed,
         [(u "title", title);
          (u "label", dict_get_default (u "label") (JStr []) ed)]) ∈ _succ G)
  /\ render_lineage_graph container_repr iframe_src (JObj d) st
     = (Done tt, st,
        match iframe_src G with
        | Returns src => [st_iframe src]
        | Raises e =>
            [st_error (u "Error rendering interactive graph: " ++ exn_str e);
             st_info malformed_message; st_exception e]
        end).
Proof.
  intros Hnodes Hedges Herr Hok Hdist Hends Hdiste G.
  assert (Hbuild : build_graph d = Returns G).
  { unfold build_graph, Visualizer.build_graph, dict_get_default at 1.
    rewrite Hnodes. cbn [default from_option id py_iter].
    rewrite (nodes_loop nodes empty_graph Hok Hdist). cbn [_node _succ app].
    rewrite Hedges. cbn [py_iter].
    rewrite edges_loop.
    - reflexivity.
    - unfold empty_graph. cbn [_node app]. rewrite map_map. exact Hends.
    - exact Hdiste. }
  split; [exact Hbuild|]. unfold G at 1 2 3 4 5 6. cbn [_node _succ].
  split; [apply length_map|]. split; [apply length_map|].
  split; [by rewrite map_map|]. split; [by rewrite map_map|].
  split; [|split].
  - intros nd Hnd. eexists. apply (list_elem_of_fmap_2 node_of) in Hnd. exact Hnd.
  - intros ed Hed. eexists. apply (list_elem_of_fmap_2 edge_of) in Hed. exact Hed.
  - unfold render_lineage_graph.
    assert (d <> []) as Hd by (intros ->; discriminate).
    destruct d as [|kv d']; [done|]. cbn [truthy negb].
    rewrite Hnodes, Herr, Hbuild. run_M.
    destruct (iframe_src G); reflexivity.
Qed.

End Iframe.
End Render.

(** On the example of the specification the edge entry has a
    [confidence_score] and the graph edge has none; two entries for one
    id give one graph node; an edge to an id without an entry gives a
    graph node more than there are entries. *)
Lemma graph_drops_confidence_score :
  (exists G attrs,
      build_graph (fun _ => []) select_a_as_b = Returns G
      /\ dict_get (u "confidence_score") flow_a_b = Some (JInt 5)
      /\ edge_lookup (JStr (u "t.a"), JStr (u "t.b")) (_succ G) = Some attrs
      /\ dict_get (u "confidence_score") attrs = None)
  /\ (exists G,
        build_graph (fun _ => []) repeated_node = Returns G
        /\ map fst (_node G) = [JStr (u "t.a")])
  /\ (exists G,
        build_graph (fun _ => []) dangling_edge = Returns G
        /\ map fst (_node G) = [JStr (u "t.a"); JStr (u "t.b")]).
Proof.
  split; [|split].
  - eexists _, _. split; [vm_compute; reflexivity|]. split; [reflexivity|].
    split; vm_compute; reflexivity.
  - eexists. split; vm_compute; reflexivity.
  - eexists. split; vm_compute; reflexivity.
Qed.

Lemma graph_matches_response_witness :
  render_lineage_graph (W:=unit) (fun _ => []) (fun _ => Returns [])
    (JObj select_a_as_b) fresh_process
  = (Done tt, fresh_process, [st_iframe []])
  /\ build_graph (fun _ => []) select_a_as_b
     = Returns {| _node := map (node_of (fun _ => []))
                             [column "t.a" "a"; column "t.b" "b"];
                  _succ := map edge_of [flow_a_b] |}.
Proof.
  destruct (graph_matches_response (fun _ => []) (fun _ => Returns []) select_a_as_b
              [column "t.a" "a"; column "t.b" "b"] [flow_a_b] fresh_process)
    as (Hbuild & _ & _ & _ & _ & _ & _ & Hrender).
  - reflexivity.
  - reflexivity.
  - reflexivity.
  - repeat (constructor; [split; [reflexivity | discriminate]|]). constructor.
  - simpl. repeat split; repeat constructor.
  - constructor; [|constructor]. split.
    + apply Exists_cons_hd. reflexivity.
    + apply Exists_cons_tl, Exists_cons_hd. reflexivity.
  - simpl. repeat split; repeat constructor.
  - split; [exact Hrender | exact Hbuild].
Defined.

Lemma node_defaults_witness :
  exists G' attrs,
    add_node_data (fun _ => []) (JObj [(u "id", JStr (u "t.a"))]) empty_graph
    = Returns G'
    /\ node_lookup (JStr (u "t.a")) (_node G') = Some attrs
    /\ dict_get (u "label") attrs = Some (JStr (u "t.a"))
    /\ dict_get (u "group") attrs = Some (JStr (u "unknown"))
    /\ dict_get (u "title") attrs
       = Some (JStr (dq ++ u "ID: t.a\\nType: unknown" ++ dq)).
Proof.
  destruct (node_defaults (fun _ => []) [(u "id", JStr (u "t.a"))] empty_graph)
    as ((G' & attrs & H) & _).
  - reflexivity.
  - discriminate.
  - exists G', attrs. exact H.
Defined.

End VisualizerFacts.

Module AppFacts.
Import AiLogic Visualizer App Scenarios AiLogicFacts VisualizerFacts.

Section Script.
Context {W : Type}.
Variable genai : provider W.
Variable json_loads : pystr -> outcome json.
Variable container_repr : json -> pystr.
Variable iframe_src : DiGraph -> outcome pystr.
Variable text_prompt : pystr -> pystr.
Variable structured_prompt : pystr -> pystr.

Local Abbreviation handler :=
  (map_lineage_handler genai json_loads container_repr text_prompt structured_prompt).
Local Abbreviation error_diagnostic := (error_diagnostic container_repr).

(** C6. For an empty or whitespace-only input the click on the
    map-lineage button leaves the whole process state as it was (the
    stored report and graph included), emits the warning and nothing else:
    no call to the provider is made. *)
Theorem blank_input_is_noop (input : pystr) (st : process W) :
  forallb py_isspace input = true ->
  handler input st = (Done tt, st, [st_warning paste_warning]).
Proof.
  intros Hblank. apply strip_empty_iff in Hblank.
  unfold map_lineage_handler. rewrite Hblank. reflexivity.
Qed.

Lemma truthy_opt_nonempty (d : dict) k : truthy_opt (dict_get k d) = true -> d <> [].
Proof. by destruct d. Qed.

Lemma render_error_response (d : dict) (st : process W) :
  truthy_opt (dict_get (u "error") d) = true ->
  render_lineage_graph container_repr iframe_src (JObj d) st
  = (Done tt, st, error_diagnostic d).
Proof.
  intros Herr. unfold render_lineage_graph, error_diagnostic.
  destruct d as [|kv d]; [done|]. cbn [truthy negb].
  destruct (dict_get (u "nodes") (kv :: d)) as [[]|]; try reflexivity;
    rewrite Herr; reflexivity.
Qed.

(** The note of lines 255-257, character by character. *)
Lemma graph_issue_note_text (error : json) :
  graph_issue_note container_repr error
  = [10; 10] ++ u "---" ++ [10; 10] ++ u "❌ **Graph Generation Issue:** "
    ++ py_str container_repr error ++ [10; 10]
    ++ u "The AI struggled to provide data for the interactive graph. Please review the text report and consider simplifying the input for graph generation.".
Proof.
  unfold graph_issue_note.
  transitivity
    (([10; 10] ++ u "---" ++ [10; 10] ++ u "❌ **Graph Generation Issue:** ")
     ++ py_str container_repr error
     ++ ([10; 10]
         ++ u "The AI struggled to provide data for the interactive graph. Please review the text report and consider simplifying the input for graph generation.")).
  - apply (f_equal2 (@app N)); [by vm_compute|].
    apply (f_equal2 (@app N)); [done | by vm_compute].
  - by rewrite <- !app_assoc.
Qed.

(** C3. A structured response with a non-empty (truthy) [error] entry.
    The renderer shows a diagnostic and nothing else, and leaves the state
    alone: the no-data notice when [nodes] is absent or null, and
    otherwise the error message, which quotes the error, with the hint;
    there is no iframe among these events, no graph was built.  When the
    click on the map-lineage button receives such a response, the report
    stored is the text answer followed by the note: a rule, the line
    [Graph Generation Issue] with the error, which is the error text
    itself when the error is a string, and the advice to simplify the
    input. *)
Theorem error_response_is_reported (input report : pystr) (d : dict)
  (st st2 st4 : process W) (tr2 tr4 : list event) :
  truthy_opt (dict_get (u "error") d) = true ->
  strip input <> [] ->
  let st1 :=
    set_session (<["structured_lineage_data" := SJson (JObj [])]>
                   (<["lineage_text_output" := SStr []]> (session_state st))) st in
  ask_gemini_text genai (text_prompt input) st1 = (Done report, st2, tr2) ->
  let st3 :=
    set_session (<["lineage_text_output" := SStr report]> (session_state st2)) st2 in
  ask_gemini_structured genai json_loads (structured_prompt input) response_schema st3
  = (Done (JObj d), st4, tr4) ->
  let error := py_str container_repr (dict_get_default (u "error") JNull d) in
  let diagnostic :=
    match dict_get (u "nodes") d with
    | None | Some JNull =>
        [st_info (u "No structured lineage data available to generate the graph. Please generate the lineage report first.")]
    | Some _ =>
        [st_error (u "Error generating graph data from AI: " ++ error);
         st_info (u "The AI might have struggled to produce valid structured lineage. Try simplifying your code or review the AI's plain text explanation.")]
    end in
  let note :=
    [10; 10] ++ u "---" ++ [10; 10] ++ u "❌ **Graph Generation Issue:** " ++ error
    ++ [10; 10]
    ++ u "The AI struggled to provide data for the interactive graph. Please review the text report and consider simplifying the input for graph generation." in
  (forall st' : process W, render_lineage_graph container_repr iframe_src (JObj d) st'
               = (Done tt, st', diagnostic))
  /\ (forall ev, ev ∈ diagnostic -> forall src, ev <> st_iframe src)
  /\ (forall msg, dict_get (u "error") d = Some (JStr msg) -> error = msg)
  /\ exists st',
       handler input st = (Done tt, st', tr2 ++ tr4)
       /\ session_state st' !! "lineage_text_output" = Some (SStr (report ++ note))
       /\ session_state st' !! "structured_lineage_data" = Some (SJson (JObj d)).
Proof.
  intros Herr Hinput st1 Htext st3 Hstruct error diagnostic note.
  split; [|split; [|split]].
  - intros st'. by apply render_error_response.
  - intros ev Hev src ->. unfold diagnostic in Hev.
    destruct (dict_get (u "nodes") d) as [[]|];
      repeat (apply elem_of_cons in Hev as [Hev|Hev]; [discriminate|]);
      by apply elem_of_nil in Hev.
  - intros msg Hmsg. unfold error, dict_get_default. by rewrite Hmsg.
  - unfold note, error. rewrite <- graph_issue_note_text.
    pose proof (ask_gemini_text_session genai (text_prompt input) st1) as Hs2.
    pose proof (ask_gemini_structured_session genai json_loads
                  (structured_prompt input) response_schema st3) as Hs4.
    rewrite Htext in Hs2. rewrite Hstruct in Hs4. simpl in Hs2, Hs4.
    apply pystr_eqb_neq in Hinput.
    unfold map_lineage_handler. rewrite Hinput. cbn [negb].
    unfold session_write, read_json, read_str, session_read. run_M.
    match goal with
    | |- context [ask_gemini_text genai (text_prompt input) ?s] => change s with st1
    end.
    rewrite Htext.
    match goal with
    | |- context [ask_gemini_structured genai json_loads _ _ ?s] => change s with st3
    end.
    rewrite Hstruct. cbn [session_state set_session].
    rewrite lookup_insert_eq. rewrite Herr.
    cbn [session_state set_session].
    rewrite lookup_insert_ne by done. rewrite Hs4, lookup_insert_eq.
    eexists. split.
    + rewrite !app_nil_r. simpl. reflexivity.
    + cbn [session_state set_session]. split.
      * by rewrite lookup_insert_eq.
      * rewrite lookup_insert_ne by done. by rewrite lookup_insert_eq.
Qed.

Lemma bind_run {A B} (m : M A) (k : A -> M B) (st st1 : process W) a tr1 :
  m st = (Done a, st1, tr1) ->
  bind m k st = (let '(r, st2, tr2) := k a st1 in (r, st2, tr1 ++ tr2)).
Proof. intros H. unfold bind. by rewrite H. Qed.

Lemma session_discard_run k (st : process W) :
  session_discard k st
  = (Done tt, set_session (delete k (session_state st)) st, []).
Proof.
  unfold session_discard. run_M.
  destruct (session_state st !! k) eqn:E; simpl; [reflexivity|].
  rewrite (delete_id _ _ E). by destruct st.
Qed.

Lemma session_init_run k v (st : process W) :
  exists st',
    session_init k v st = (Done tt, st', [])
    /\ ai_logic_imported st' = ai_logic_imported st
    /\ _gemini_model_instance st' = _gemini_model_instance st.
Proof.
  unfold session_init, session_write. run_M.
  destruct (session_state st !! k); eexists; (split; [reflexivity|]); done.
Qed.

(** What the clear button deletes, and what it leaves. *)
Lemma render_clear_button_clicked (inp : inputs) (st : process W) :
  clear_all_button inp = true ->
  render_clear_button inp st
  = (Halt RerunException,
     set_session
       (delete "structured_lineage_data"
          (delete "lineage_result" (delete "etl_code_input" (session_state st))))
       st,
     []).
Proof.
  intros Hclick. unfold render_clear_button. rewrite Hclick.
  rewrite (bind_run _ _ _ _ _ _ (session_discard_run _ _)).
  rewrite (bind_run _ _ _ _ _ _ (session_discard_run _ _)).
  rewrite (bind_run _ _ _ _ _ _ (session_discard_run _ _)).
  reflexivity.
Qed.

(** Both buttons, when there is something to download. *)
Lemma render_download_section_offers (data : json) (report : pystr) (md : bytes)
  (st : process W) :
  encode_utf8 report = Some md -> truthy data = true -> report <> [] ->
  render_download_section data report st
  = (Done tt, st,
     [download_md_button md;
      download_json_button (map byte_of_N (dumps (Some 2%nat) data))]).
Proof.
  intros Henc Hdata Hreport%pystr_eqb_neq.
  unfold render_download_section, encode. rewrite Hdata, Hreport. simpl.
  run_M. rewrite Henc, encode_dumps. reflexivity.
Qed.

(** C7. The structured data offered for download, when it is well formed
    (strings of well-formed text, distinct keys): the JSON button carries
    the bytes of [json.dumps(data, indent=2)], and [json.loads] of these
    bytes, as of the text, is the data itself; so the re-parsed dictionary
    has the same [nodes] and the same [edges], each in the same order. *)
Theorem export_round_trip (data : json) (report : pystr) (md : bytes)
  (st : process W) :
  json_ok data -> truthy data = true -> report <> [] ->
  encode_utf8 report = Some md ->
  let document := map byte_of_N (dumps (Some 2%nat) data) in
  render_download_section data report st
  = (Done tt, st, [download_md_button md; download_json_button document])
  /\ loads (dumps (Some 2%nat) data) = Some data
  /\ loads_bytes document = Some data
  /\ (forall d, data = JObj d ->
      exists d',
        loads_bytes document = Some (JObj d')
        /\ dict_get (u "nodes") d' = dict_get (u "nodes") d
        /\ dict_get (u "edges") d' = dict_get (u "edges") d).
Proof.
  intros Hok Hdata Hreport Henc document.
  assert (Hbytes : loads_bytes document = Some data).
  { unfold loads_bytes, document.
    rewrite decode_utf8_ascii by apply iterencode_ascii.
    by apply loads_dumps. }
  split; [by apply render_download_section_offers|].
  split; [by apply loads_dumps|]. split; [exact Hbytes|].
  intros d ->. by exists d.
Qed.


(** The first run of the script.  A key that is absent, empty or the
    placeholder ends the run at the import of ai_logic with the
    RuntimeError whose message starts with the sentinel: nothing was
    emitted and the state is untouched; with any other key the run passes
    the import and the check of line 41 and goes on with the rest of the
    script. *)
Lemma startup_key_check (inp : inputs) (st : process W) :
  ai_logic_imported st = false ->
  let run := main genai json_loads container_repr iframe_src text_prompt
               structured_prompt in
  startswith sentinel api_key_error_message = true
  /\ (GEMINI_API_KEY inp = None \/ GEMINI_API_KEY inp = Some []
      \/ GEMINI_API_KEY inp = Some placeholder_key ->
      run inp st = (Error (Exn RuntimeError api_key_error_message), st, []))
  /\ (forall key, GEMINI_API_KEY inp = Some key -> key <> [] ->
      key <> placeholder_key ->
      exists st0,
        ai_logic_imported st0 = true
        /\ _gemini_model_instance st0 = None
        /\ run inp st
           = after_key_check genai json_loads container_repr iframe_src
               text_prompt structured_prompt inp st0).
Proof.
  intros Hfirst run. split; [by vm_compute|]. split.
  - intros Hkey. unfold run, main, import_ai_logic. run_M. rewrite Hfirst.
    assert (api_key_rejected (GEMINI_API_KEY inp) = true) as ->; [|done].
    destruct Hkey as [-> | [-> | ->]]; [done | done |].
    unfold api_key_rejected. by rewrite pystr_eqb_refl, orb_true_r.
  - intros key Hkey Hne%pystr_eqb_neq Hph%pystr_eqb_neq.
    assert (Himport : import_ai_logic (GEMINI_API_KEY inp) st
                      = (Done tt, set_imported true (set_instance None st), [])).
    { unfold import_ai_logic. run_M. rewrite Hfirst, Hkey. unfold api_key_rejected.
      by rewrite Hne, Hph. }
    destruct (session_init_run "dark_mode" (SBool true)
                (set_imported true (set_instance None st)))
      as (st0 & Hinit & Himp & Hinst).
    exists st0. split; [by rewrite Himp|]. split; [by rewrite Hinst|].
    unfold run, main.
    rewrite (bind_run _ _ _ _ _ _ Himport), (bind_run _ _ _ _ _ _ Hinit).
    unfold api_key_set. rewrite Hkey, Hph. cbn [negb].
    match goal with |- context [after_key_check ?a ?b ?c ?d ?e ?f ?g ?h] =>
      destruct (after_key_check a b c d e f g h) as [[r st'] tr]
    end.
    reflexivity.
Qed.

End Script.

(** C4 on the code: the clear button deletes [lineage_result], a key that
    is never written, where the report is kept under
    [lineage_text_output].  After the click and the rerun it asks for, the
    graph data is back to the empty dictionary, and the report is still
    in the session state and is displayed again. *)
Theorem clear_keeps_the_report :
  exists st1 tr1 st2 tr2,
    demo_main clear_click demo_process = (Halt RerunException, st1, tr1)
    /\ session_state st1 !! "structured_lineage_data" = None
    /\ session_state st1 !! "lineage_text_output" = Some (SStr demo_report)
    /\ demo_main no_click st1 = (Done tt, st2, tr2)
    /\ session_state st2 !! "structured_lineage_data" = Some (SJson (JObj []))
    /\ session_state st2 !! "lineage_text_output" = Some (SStr demo_report)
    /\ st_markdown (u "<div class='lineage-display-box'>" ++ demo_report ++ u "</div>")
       ∈ tr2.
Proof.
  do 4 eexists. split; [vm_compute; reflexivity|].
  split; [vm_compute; reflexivity|]. split; [vm_compute; reflexivity|].
  split; [vm_compute; reflexivity|].
  split; [vm_compute; reflexivity|]. split; [vm_compute; reflexivity|].
  vm_compute. left.
Qed.

(** C8 on the code: the two checks of the key disagree.  The empty key is
    present and is not the placeholder, and the check of main.py (line 39:
    not None, not the placeholder) accepts it; the check of ai_logic.py
    (line 16: falsy, or the placeholder) rejects it.  So with this key the
    first run does not proceed past the check: it ends at the import with
    the RuntimeError, before the warning of main.py or anything else is
    shown.  Once ai_logic is imported, the same key passes the check of
    main.py and the script runs to its end. *)
Theorem startup_rejects_empty_key :
  GEMINI_API_KEY empty_key = Some []
  /\ GEMINI_API_KEY empty_key <> Some placeholder_key
  /\ api_key_set empty_key = true
  /\ api_key_rejected (GEMINI_API_KEY empty_key) = true
  /\ demo_main empty_key first_run
     = (Error (Exn RuntimeError
                 (u "❌ GEMINI_API_KEY not found or is the placeholder value in your .env file. Please set it correctly to use AI features. Refer to the README for setup instructions.")),
        first_run, [])
  /\ exists st' tr, demo_main empty_key fresh_process = (Done tt, st', tr).
Proof.
  repeat split; try discriminate; try reflexivity.
  eexists _, _. vm_compute. reflexivity.
Qed.

Lemma startup_key_check_witness :
  exists st0,
    ai_logic_imported st0 = true
    /\ demo_main no_click first_run = demo_after_key_check no_click st0.
Proof.
  destruct (startup_key_check (demo_provider []) loads_outcome (fun _ => [])
              (fun _ => Returns []) (fun s => s) (fun s => s) no_click first_run
              eq_refl)
    as (_ & _ & H).
  destruct (H (u "AIzaSyExampleKey") eq_refl) as (st0 & H1 & _ & H2).
  - vm_compute. discriminate.
  - vm_compute. discriminate.
  - exists st0. split; [exact H1 | exact H2].
Defined.

(** Checks [json_ok] on a given value. *)
Ltac json_ok_tac :=
  vm_compute; repeat split; try reflexivity; try (intros; discriminate);
  try (apply (bool_decide_unpack _); vm_compute; exact I).

Lemma export_round_trip_witness :
  loads_bytes (map byte_of_N (dumps (Some 2%nat) (JObj select_a_as_b)))
  = Some (JObj select_a_as_b).
Proof.
  refine (proj1 (proj2 (proj2
            (export_round_trip (JObj select_a_as_b) demo_report
               (map byte_of_N demo_report) demo_process _ _ _ _)))).
  - json_ok_tac.
  - reflexivity.
  - vm_compute. discriminate.
  - vm_compute. reflexivity.
Defined.


Lemma error_response_is_reported_witness :
  render_lineage_graph (W:=unit) (fun _ => []) (fun _ => Returns [])
    (JObj no_lineage) demo_process
  = (Done tt, demo_process,
     [st_error (u "Error generating graph data from AI: Could not extract lineage.");
      st_info (u "The AI might have struggled to produce valid structured lineage. Try simplifying your code or review the AI's plain text explanation.")])
  /\ exists st' tr,
       demo_handler no_lineage_reply (u "SELECT a AS b FROM t") demo_process
       = (Done tt, st', tr)
       /\ session_state st' !! "lineage_text_output"
          = Some (SStr (no_lineage_reply ++ [10; 10] ++ u "---" ++ [10; 10]
                        ++ u "❌ **Graph Generation Issue:** Could not extract lineage."
                        ++ [10; 10]
                        ++ u "The AI struggled to provide data for the interactive graph. Please review the text report and consider simplifying the input for graph generation.")).
Proof.
  edestruct (error_response_is_reported (demo_provider no_lineage_reply)
               loads_outcome (fun _ => []) (fun _ => Returns [])
               (fun s => s) (fun s => s)
               (u "SELECT a AS b FROM t") no_lineage_reply no_lineage demo_process)
    as (Hrender & _ & _ & st' & Hrun & Hreport & _).
  - reflexivity.
  - vm_compute. discriminate.
  - vm_compute. reflexivity.
  - vm_compute. reflexivity.
  - split; [exact (Hrender demo_process)|]. exists st'. eexists. split; [exact Hrun|].
    exact Hreport.
Defined.

Lemma blank_input_is_noop_witness :
  demo_handler [] (u "  
	 ") demo_process
  = (Done tt, demo_process, [st_warning paste_warning]).
Proof. apply blank_input_is_noop. reflexivity. Defined.

End AppFacts.

(* ===================================================================== *)
(** * Further properties of the code *)
(* ===================================================================== *)

(** ** ai_logic.py: what the gateway sends and keeps *)

Module GatewayFacts.
Import AiLogic Scenarios AiLogicFacts GatewaySpec.

Section Gateway.
Context {W : Type}.
Variable genai : provider W.
Variable json_loads : pystr -> outcome json.

(** The provider is asked for its models exactly when no handle is
    stored, whatever the call then does. *)
Lemma get_gemini_model_trace (st : process W) :
  (get_gemini_model genai st).2
  = match _gemini_model_instance st with Some _ => [] | None => [ev_list_models] end.
Proof.
  unfold get_gemini_model. run_M.
  destruct (_gemini_model_instance st) eqn:E; [done|].
  destruct (list_models genai (world st)) as [[ms|e] w1]; [|done].
  destruct (choose_model_name (available_models ms)) as [n|]; [|done].
  destruct (pystr_eqb n []); simpl; [done|].
  destruct (new_GenerativeModel genai n _) as [[inst|e] w2]; simpl; done.
Qed.

(** A handle that is stored stays; none is stored when the call raises. *)
Lemma get_gemini_model_instance (st : process W) :
  match get_gemini_model genai st with
  | (Done inst, st', _) =>
      _gemini_model_instance st' = Some inst
      /\ (forall h, _gemini_model_instance st = Some h -> h = inst)
  | (Error _, st', _) =>
      _gemini_model_instance st = None /\ _gemini_model_instance st' = None
  | (Halt _, _, _) => False
  end.
Proof.
  unfold get_gemini_model. run_M.
  destruct (_gemini_model_instance st) eqn:E.
  { split; [done|]. by intros h [= ->]. }
  destruct (list_models genai (world st)) as [[ms|e] w1]; [|done].
  destruct (choose_model_name (available_models ms)) as [n|]; [|done].
  destruct (pystr_eqb n []); simpl; [done|].
  destruct (new_GenerativeModel genai n _) as [[inst|e] w2]; simpl; done.
Qed.

(** X1. A prompt that is empty or whitespace only is never sent: both
    calls first obtain the model handle (which may list the models),
    then return the fixed message of the blank prompt, or the service
    error when no handle could be obtained; the state and the events are
    those of obtaining the handle, and no generation request is among
    them. *)
Theorem blank_prompt_is_refused prompt schema (st : process W) :
  strip prompt = [] ->
  match get_gemini_model genai st with
  | (Done _, st1, tr1) =>
      ask_gemini_text genai prompt st
      = (Done (u "❌ Please provide a valid prompt for the AI to process."), st1, tr1)
      /\ ask_gemini_structured genai json_loads prompt schema st
         = (Done (error_dict
                    (u "❌ Please provide a valid prompt for structured AI processing.")),
            st1, tr1)
  | (Error e, st1, tr1) =>
      ask_gemini_text genai prompt st
      = (Done (u "❌ AI Service Error: " ++ exn_str e), st1, tr1)
      /\ ask_gemini_structured genai json_loads prompt schema st
         = (Done (error_dict (u "❌ AI Service Error (Structured): " ++ exn_str e)),
            st1, tr1)
  | (Halt _, _, _) => False
  end
  /\ (forall model p s,
        (ev_generate_content model p s ∉ (ask_gemini_text genai prompt st).2)
        /\ (ev_generate_content model p s
            ∉ (ask_gemini_structured genai json_loads prompt schema st).2)).
Proof.
  intros Hblank%pystr_eqb_eq.
  pose proof (get_gemini_model_trace st) as Htr.
  pose proof (get_gemini_model_result genai st) as Hres.
  unfold ask_gemini_text, ask_gemini_structured. run_M.
  destruct (get_gemini_model genai st) as [[[inst|e|c] st1] tr1]; [| |done];
    rewrite ?Hblank; simpl in *; rewrite !app_nil_r;
    (split; [done|]); intros model p s; subst tr1;
    destruct (_gemini_model_instance st);
    split; intros H;
    repeat (apply elem_of_cons in H as [H|H]; [discriminate|]);
    by apply elem_of_nil in H.
Qed.

(** X2. Once a handle is stored in the module global, a call of
    [ask_gemini_text] or [ask_gemini_structured] leaves it there, leaves
    the session state as it was and does not list the models again,
    whatever the provider answers. *)
Theorem stored_handle_is_kept prompt schema (st : process W) h :
  _gemini_model_instance st = Some h ->
  (let '(_, st', tr) := ask_gemini_text genai prompt st in
   _gemini_model_instance st' = Some h
   /\ session_state st' = session_state st
   /\ ev_list_models ∉ tr)
  /\ (let '(_, st', tr) := ask_gemini_structured genai json_loads prompt schema st in
      _gemini_model_instance st' = Some h
      /\ session_state st' = session_state st
      /\ ev_list_models ∉ tr).
Proof.
  intros Hh. unfold ask_gemini_text, ask_gemini_structured. run_M.
  rewrite (get_gemini_model_cached genai st h Hh).
  assert (Hnil : ev_list_models ∉ @nil event) by apply not_elem_of_nil.
  assert (Hone : forall p s, ev_list_models ∉ [ev_generate_content h p s]).
  { intros p s H. apply elem_of_cons in H as [H|H]; [discriminate|].
    by apply elem_of_nil in H. }
  split.
  - destruct (pystr_eqb (strip prompt) []); [done|].
    destruct (generate_content genai h prompt None (world st)) as [[r|e] w2]; simpl.
    + destruct (first_part_text r); rewrite ?app_nil_r; done.
    + destruct (exn_class_of e) as [|[]| | | | | | |]; rewrite ?app_nil_r; done.
  - destruct (pystr_eqb (strip prompt) []); [done|].
    destruct (truthy schema); simpl; [|done].
    destruct (generate_content genai h prompt (Some schema) (world st))
      as [[r|e] w2]; simpl.
    + destruct (first_part_text r) as [t|]; [|rewrite ?app_nil_r; done].
      destruct (json_loads t) as [v|je]; [rewrite ?app_nil_r; done|].
      destruct (exn_class_of je) as [|[]| | | | | | |] eqn:Hc; simpl; rewrite ?Hc, ?app_nil_r; done.
    + destruct (exn_class_of e) as [|[]| | | | | | |]; rewrite ?app_nil_r; done.
Qed.


(** X3. A failed initialization is not remembered: when
    [get_gemini_model] raises, the models were listed once, no handle is
    stored and the session state is as before; so the next call of the
    gateway lists the models again. *)
Theorem failed_initialization_is_not_cached (st st1 : process W) e tr1 :
  get_gemini_model genai st = (Error e, st1, tr1) ->
  _gemini_model_instance st1 = None
  /\ session_state st1 = session_state st
  /\ tr1 = [ev_list_models]
  /\ forall prompt schema,
       (exists tr, (ask_gemini_text genai prompt st1).2 = ev_list_models :: tr)
       /\ (exists tr,
             (ask_gemini_structured genai json_loads prompt schema st1).2
             = ev_list_models :: tr).
Proof.
  intros Hget.
  pose proof (get_gemini_model_instance st) as Hinst.
  pose proof (get_gemini_model_trace st) as Htr.
  pose proof (get_gemini_model_session genai st) as Hs.
  rewrite Hget in Hinst, Htr, Hs. simpl in Htr, Hs. destruct Hinst as [H0 H1].
  rewrite H0 in Htr. repeat split; try done.
  - pose proof (get_gemini_model_trace st1) as Htr1. rewrite H1 in Htr1.
    unfold ask_gemini_text. run_M.
    destruct (get_gemini_model genai st1) as [[[inst|e'|c] st2] tr2];
      simpl in Htr1; subst tr2; [| |by eexists].
    + destruct (pystr_eqb (strip prompt) []); [by eexists|].
      destruct (generate_content genai inst prompt None (world st2)) as [[r|e'] w2];
        simpl.
      * destruct (first_part_text r); by eexists.
      * destruct (exn_class_of e') as [|[]| | | | | | |]; by eexists.
    + by eexists.
  - pose proof (get_gemini_model_trace st1) as Htr1. rewrite H1 in Htr1.
    unfold ask_gemini_structured. run_M.
    destruct (get_gemini_model genai st1) as [[[inst|e'|c] st2] tr2];
      simpl in Htr1; subst tr2; [| |by eexists].
    + destruct (pystr_eqb (strip prompt) []); [by eexists|].
      destruct (truthy schema); simpl; [|by eexists].
      destruct (generate_content genai inst prompt (Some schema) (world st2))
        as [[r|e'] w2]; simpl.
      * destruct (first_part_text r) as [t|]; [|by eexists].
        destruct (json_loads t) as [v|je]; [by eexists|].
        destruct (exn_class_of je) as [|[]| | | | | | |] eqn:Hc; simpl; rewrite ?Hc; by eexists.
      * destruct (exn_class_of e') as [|[]| | | | | | |]; by eexists.
    + by eexists.
Qed.


(** X4. What one call of the gateway sends to the provider: the listing
    of the models exactly when no handle is stored, followed by at most
    one generation request, which goes to the handle stored afterwards and
    carries the prompt as given and, for the structured call, the schema
    as given.  Nothing is sent twice. *)
Theorem gateway_call_requests prompt schema (st : process W) :
  (let '(_, st', tr) := ask_gemini_text genai prompt st in
   requests st prompt None st' tr)
  /\ (let '(_, st', tr) := ask_gemini_structured genai json_loads prompt schema st in
      requests st prompt (Some schema) st' tr).
Proof.
  pose proof (get_gemini_model_instance st) as Hinst.
  pose proof (get_gemini_model_trace st) as Htr.
  unfold ask_gemini_text, ask_gemini_structured, requests. run_M.
  destruct (get_gemini_model genai st) as [[[inst|e|c] st1] tr1]; [| |done];
    simpl in Htr; rewrite <- Htr; clear Htr.
  - destruct Hinst as [Hinst _]. split.
    + destruct (pystr_eqb (strip prompt) []); [left; by rewrite app_nil_r|].
      destruct (generate_content genai inst prompt None (world st1)) as [[r|e] w2];
        simpl.
      * destruct (first_part_text r); right; exists inst; by rewrite ?app_nil_r.
      * destruct (exn_class_of e) as [|[]| | | | | | |]; right; exists inst; by rewrite ?app_nil_r.
    + destruct (pystr_eqb (strip prompt) []); [left; by rewrite app_nil_r|].
      destruct (truthy schema); simpl; [|left; by rewrite app_nil_r].
      destruct (generate_content genai inst prompt (Some schema) (world st1))
        as [[r|e] w2]; simpl.
      * destruct (first_part_text r) as [t|];
          [|right; exists inst; by rewrite ?app_nil_r].
        destruct (json_loads t) as [v|je];
          [right; exists inst; by rewrite ?app_nil_r|].
        destruct (exn_class_of je) as [|[]| | | | | | |] eqn:Hc; simpl; rewrite ?Hc;
          right; exists inst; by rewrite ?app_nil_r.
      * destruct (exn_class_of e) as [|[]| | | | | | |]; right; exists inst; by rewrite ?app_nil_r.
  - split; left; by rewrite app_nil_r.
Qed.

(** X5. A first part that [json.loads] rejects with a JSONDecodeError
    gives the error dictionary whose message quotes the parser's message
    and the raw text cut to its first 200 characters: the quoted text is a
    prefix of the answer, at most 200 characters long, and the whole
    answer when that is no longer. *)
Theorem malformed_json_is_reported prompt schema (st st1 : process W) inst tr1
  response w2 json_text e :
  get_gemini_model genai st = (Done inst, st1, tr1) ->
  strip prompt <> [] ->
  truthy schema = true ->
  generate_content genai inst prompt (Some schema) (world st1) = (Returns response, w2) ->
  first_part_text response = Some json_text ->
  json_loads json_text = Raises e ->
  exn_class_of e = JSONDecodeError ->
  exists raw,
    ask_gemini_structured genai json_loads prompt schema st
    = (Done (error_dict (u "❌ AI returned malformed JSON: " ++ exn_str e
                         ++ u ". Raw: " ++ raw ++ u "...")),
       set_world w2 st1, tr1 ++ [ev_generate_content inst prompt (Some schema)])
    /\ (length raw <= 200)%nat
    /\ raw `prefix_of` json_text
    /\ ((length json_text <= 200)%nat -> raw = json_text).
Proof.
  intros Hget Hp%pystr_eqb_neq Hs Hgen Hfirst Hloads Hclass.
  exists (take 200 json_text). split; [|split; [|split]].
  - unfold ask_gemini_structured. run_M.
    rewrite Hget, Hp, Hs. simpl. rewrite Hgen. simpl.
    rewrite Hfirst, Hloads, Hclass. by rewrite ?app_nil_r.
  - rewrite length_take. lia.
  - apply prefix_take.
  - intros Hlen. by apply take_ge.
Qed.

End Gateway.

Lemma blank_prompt_is_refused_witness :
  ask_gemini_text (demo_provider []) (u "   ") fresh_process
  = (Done (u "❌ Please provide a valid prompt for the AI to process."),
     set_instance (Some {| model_name := u "models/gemini-pro" |}) fresh_process,
     [ev_list_models]).
Proof.
  pose proof (blank_prompt_is_refused (demo_provider []) loads_outcome (u "   ")
                (JObj []) fresh_process eq_refl) as [H _].
  vm_compute in H. destruct H as [H _]. vm_compute. exact H.
Defined.

Lemma stored_handle_is_kept_witness :
  _gemini_model_instance
    (ask_gemini_text (demo_provider []) (u "SELECT 1") demo_process).1.2
  = Some {| model_name := u "models/gemini-pro" |}.
Proof.
  pose proof (stored_handle_is_kept (demo_provider []) loads_outcome (u "SELECT 1")
                (JObj []) demo_process _ eq_refl) as [H _].
  destruct (ask_gemini_text _ _ _) as [[r st'] tr]. exact (proj1 H).
Defined.

Lemma failed_initialization_is_not_cached_witness :
  exists tr,
    (ask_gemini_text failing_constructor (u "SELECT 1") fresh_process).2
    = ev_list_models :: tr.
Proof.
  destruct (failed_initialization_is_not_cached failing_constructor loads_outcome
              fresh_process fresh_process
              (failed_to_initialize (u "models/gemini-pro")) [ev_list_models]
              eq_refl) as (_ & _ & _ & H).
  exact (proj1 (H (u "SELECT 1") (JObj []))).
Defined.

Lemma malformed_json_is_reported_witness :
  ask_gemini_structured (demo_provider (u "oops")) loads_outcome (u "SELECT 1")
    App.response_schema demo_process
  = (Done (error_dict (u "❌ AI returned malformed JSON: Expecting value. Raw: oops...")),
     demo_process,
     [ev_generate_content {| model_name := u "models/gemini-pro" |} (u "SELECT 1")
        (Some App.response_schema)]).
Proof.
  edestruct (malformed_json_is_reported (demo_provider (u "oops")) loads_outcome
               (u "SELECT 1") App.response_schema demo_process demo_process
               {| model_name := u "models/gemini-pro" |} [] (demo_response (u "oops"))
               tt (u "oops") (Exn JSONDecodeError (u "Expecting value")))
    as (raw & Hrun & _ & _ & Hraw).
  - reflexivity.
  - vm_compute. discriminate.
  - reflexivity.
  - reflexivity.
  - reflexivity.
  - vm_compute. reflexivity.
  - reflexivity.
  - rewrite Hraw in Hrun by (vm_compute; lia). exact Hrun.
Defined.

End GatewayFacts.

(** ** features.py: the schema inference *)

Module FeaturesFacts.
Import AiLogic App Scenarios AiLogicFacts Features Cases.

Section Infer.
Context {W : Type}.
Variable genai : provider W.
Variable json_loads : pystr -> outcome json.
Variable schema_prompt : pystr -> pystr.

Local Abbreviation infer :=
  (ask_gemini_infer_structured_schema genai json_loads schema_prompt).
Local Abbreviation structured raw :=
  (ask_gemini_structured genai json_loads (schema_prompt raw) Features.response_schema).

Lemma infer_run raw (st st' : process W) v tr :
  structured raw st = (Done v, st', tr) ->
  infer raw st
  = (Done (if truthy v then
             match v with
             | JObj d =>
                 if negb (truthy_opt (dict_get (u "error") d))
                    && dict_has (u "table_name") d
                 then JArr [v] else v
             | _ => inference_failed (has_no_get v)
             end
           else v), st', tr).
Proof.
  intros H. unfold ask_gemini_infer_structured_schema. run_M. rewrite H.
  destruct (truthy v) eqn:Ht; [|by rewrite app_nil_r].
  destruct v as [| | | | |d]; try (by rewrite !app_nil_r).
  destruct (truthy_opt (dict_get (u "error") d)); cbn [negb andb];
    [by rewrite app_nil_r|].
  destruct (dict_has (u "table_name") d); by rewrite app_nil_r.
Qed.

(** What the structured call raises is caught. *)
Lemma infer_caught raw (st st' : process W) e tr :
  structured raw st = (Error e, st', tr) ->
  infer raw st = (Done (inference_failed e), st', tr).
Proof.
  intros H. unfold ask_gemini_infer_structured_schema. run_M. rewrite H.
  by rewrite app_nil_r.
Qed.

(** X6. [ask_gemini_infer_structured_schema] never raises.  When the
    structured call answers with a dictionary: one that has the key
    [table_name] and no truthy [error] is returned inside a one-element
    list; every other dictionary (an error dictionary, the empty one, one
    without [table_name]) is returned as it is. *)
Theorem schema_inference_of_dictionaries raw (st : process W) :
  (exists v st' tr, infer raw st = (Done v, st', tr))
  /\ forall d st' tr,
       structured raw st = (Done (JObj d), st', tr) ->
       infer raw st
       = (Done (if negb (truthy_opt (dict_get (u "error") d))
                   && dict_has (u "table_name") d
                then JArr [JObj d] else JObj d), st', tr).
Proof.
  split.
  - pose proof (ask_gemini_structured_outcome genai json_loads (schema_prompt raw)
                  Features.response_schema st) as Hout.
    destruct (structured raw st) as [[[v|e|c] st'] tr] eqn:H; [| |done].
    + rewrite (infer_run _ _ _ _ _ H). by eexists _, _, _.
    + rewrite (infer_caught _ _ _ _ _ H). by eexists _, _, _.
  - intros d st' tr H. rewrite (infer_run _ _ _ _ _ H).
    destruct d as [|kv d]; [done|]. reflexivity.
Qed.

(** X7. The schema of the inference asks for an array; a non-empty
    list as the answer of the structured call has no method [get], the
    AttributeError is caught, and the function returns the error
    dictionary of the failed inference in place of the list. *)
Theorem schema_inference_rejects_lists raw (st st' : process W) x l tr :
  structured raw st = (Done (JArr (x :: l)), st', tr) ->
  infer raw st
  = (Done (JObj [(u "error",
                  JStr (u "AI inference failed: 'list' object has no attribute 'get'. Ensure your input is clear."))]),
     st', tr).
Proof. intros H. by rewrite (infer_run _ _ _ _ _ H). Qed.

End Infer.

Lemma schema_inference_rejects_lists_witness :
  exists st' tr,
    ask_gemini_structured (demo_provider table_list_reply) loads_outcome
      (u "Raw Schema Text: " ++ u "orders(id)") Features.response_schema fresh_process
    = (Done (JArr [JObj one_table]), st', tr)
    /\ demo_infer table_list_reply (u "orders(id)") fresh_process
       = (Done (JObj [(u "error",
                       JStr (u "AI inference failed: 'list' object has no attribute 'get'. Ensure your input is clear."))]),
          st', tr).
Proof.
  eexists _, _. split.
  - vm_compute. reflexivity.
  - apply (schema_inference_rejects_lists (demo_provider table_list_reply)
             loads_outcome (fun s => u "Raw Schema Text: " ++ s) (u "orders(id)")
             fresh_process _ (JObj one_table) []).
    vm_compute. reflexivity.
Defined.

Lemma schema_inference_of_dictionaries_witness :
  demo_infer one_table_reply (u "orders(id)") fresh_process
  = (Done (JArr [JObj one_table]),
     set_instance (Some {| model_name := u "models/gemini-pro" |}) fresh_process,
     [ev_list_models;
      ev_generate_content {| model_name := u "models/gemini-pro" |}
        (u "Raw Schema Text: orders(id)") (Some Features.response_schema)]).
Proof.
  apply (proj2 (schema_inference_of_dictionaries (demo_provider one_table_reply)
             loads_outcome (fun s => u "Raw Schema Text: " ++ s) (u "orders(id)")
             fresh_process) one_table).
  vm_compute. reflexivity.
Defined.

End FeaturesFacts.

(** ** lineage_visualizer.py: the graphs of the builder *)

Module GraphFacts.
Import Visualizer Scenarios VisualizerFacts GraphSpec Cases.

Lemma node_update_keys n attr nodes :
  map fst (node_update n attr nodes) = map fst nodes.
Proof.
  induction nodes as [|[k d] nodes IH]; simpl; [done|].
  destruct (key_eqb k n); simpl; [done | by rewrite IH].
Qed.

Lemma edge_update_keys e attr edges :
  map fst (edge_update e attr edges) = map fst edges.
Proof.
  induction edges as [|[k d] edges IH]; simpl; [done|].
  destruct (edge_key_eqb k e); simpl; [done | by rewrite IH].
Qed.

Lemma distinct_keys_snoc l k :
  distinct_keys l -> Forall (fun k' => key_eqb k' k = false) l ->
  distinct_keys (l ++ [k]).
Proof.
  induction l as [|x l IH]; simpl; [done|].
  intros [H1 H2] H. inversion H; subst. split; [|auto].
  apply Forall_app. split; [done|]. by constructor.
Qed.

Lemma distinct_edges_snoc l e :
  distinct_edges l -> Forall (fun e' => edge_key_eqb e' e = false) l ->
  distinct_edges (l ++ [e]).
Proof.
  induction l as [|x l IH]; simpl; [done|].
  intros [H1 H2] H. inversion H; subst. split; [|auto].
  apply Forall_app. split; [done|]. by constructor.
Qed.

Lemma is_node_id_app ids more k : is_node_id ids k -> is_node_id (ids ++ more) k.
Proof. intros H. apply Exists_app. by left. Qed.

Lemma is_node_id_snoc ids k : hashable k = true -> is_node_id (ids ++ [k]) k.
Proof.
  intros H. apply Exists_app. right. apply Exists_cons_hd. by apply key_eqb_refl.
Qed.

Lemma node_lookup_keys n nodes :
  node_lookup n nodes = None -> Forall (fun k' => key_eqb k' n = false) (map fst nodes).
Proof. intros H%node_lookup_None. by apply Forall_map. Qed.

Lemma node_lookup_found n nodes d :
  node_lookup n nodes = Some d -> is_node_id (map fst nodes) n.
Proof. intros H%node_lookup_Some. by apply Exists_map. Qed.

Lemma key_eqb_null k : key_eqb k JNull = true -> k = JNull.
Proof. by destruct k as [| [] | | | |]. Qed.

(** None is not among the keys of a graph of the builder. *)
Lemma node_lookup_null G : well_keyed G -> node_lookup JNull (_node G) = None.
Proof.
  intros (_ & Hk & _). apply node_lookup_None. apply Forall_map in Hk.
  eapply Forall_impl; [exact Hk|]. intros [k d] [_ Hnull]. simpl in *.
  destruct (key_eqb k JNull) eqn:E; [|done]. by apply key_eqb_null in E.
Qed.

Lemma add_node_grows n attr G G' :
  add_node n attr G = Returns G' -> grows_by n G G' /\ _succ G' = _succ G.
Proof.
  unfold add_node, grows_by. destruct (hashable n) eqn:Hh; simpl; [|done].
  destruct (node_lookup n (_node G)) as [d|] eqn:Hl.
  - intros [= <-]. cbn [_node _succ]. split; [|done]. left. rewrite node_update_keys.
    split; [done|]. by eapply node_lookup_found.
  - intros H. assert (n <> JNull) as Hn by (intros ->; done).
    assert (G' = {| _node := _node G ++ [(n, dict_update attr [])];
                    _succ := _succ G |}) as ->.
    { destruct n; try done; by inversion H. }
    cbn [_node _succ]. split; [|done]. right. rewrite map_app. cbn [map fst].
    repeat split; try done. by apply node_lookup_keys.
Qed.

Lemma ensure_node_grows n G G' :
  ensure_node n G = Returns G' -> grows_by n G G' /\ _succ G' = _succ G.
Proof.
  unfold ensure_node, grows_by. destruct (hashable n) eqn:Hh; simpl; [|done].
  destruct (node_lookup n (_node G)) as [d|] eqn:Hl.
  - intros [= <-]. split; [|done]. left. split; [done|].
    by eapply node_lookup_found.
  - intros H. assert (n <> JNull) as Hn by (intros ->; done).
    assert (G' = {| _node := _node G ++ [(n, [])]; _succ := _succ G |}) as ->.
    { destruct n; try done; by inversion H. }
    cbn [_node _succ]. split; [|done]. right. rewrite map_app. cbn [map fst].
    repeat split; try done. by apply node_lookup_keys.
Qed.

Lemma grows_by_node n G G' : grows_by n G G' -> is_node_id (map fst (_node G')) n.
Proof.
  intros [[-> H]|(-> & Hh & _)]; [done | by apply is_node_id_snoc].
Qed.

Lemma grows_by_keeps n G G' k :
  grows_by n G G' -> is_node_id (map fst (_node G)) k ->
  is_node_id (map fst (_node G')) k.
Proof.
  intros [[-> _]|(-> & _)] H; [done | by apply is_node_id_app].
Qed.

Lemma grows_by_well_keyed n G G' :
  grows_by n G G' -> _succ G' = _succ G -> well_keyed G -> well_keyed G'.
Proof.
  intros Hg Hs (H1 & H2 & H3 & H4). unfold well_keyed. rewrite Hs.
  assert (Forall (fun e => is_node_id (map fst (_node G')) e.1
                           /\ is_node_id (map fst (_node G')) e.2)
            (map fst (_succ G))) as H4'.
  { eapply Forall_impl; [exact H4|]. intros e [Ha Hb].
    split; by eapply grows_by_keeps. }
  destruct Hg as [[E _]|(E & Hh & Hn & Hnew)]; rewrite E in *; [done|].
  repeat split; try done.
  - by apply distinct_keys_snoc.
  - apply Forall_app. split; [done|]. by constructor.
Qed.

Lemma edge_lookup_keys e edges :
  edge_lookup e edges = None ->
  Forall (fun e' => edge_key_eqb e' e = false) (map fst edges).
Proof. intros H%edge_lookup_None. by apply Forall_map. Qed.

Lemma add_edge_well_keyed source target attr G G' :
  well_keyed G -> add_edge source target attr G = Returns G' -> well_keyed G'.
Proof.
  intros HG. unfold add_edge.
  destruct (ensure_node source G) as [G1|] eqn:E1; [|done].
  destruct (ensure_node target G1) as [G2|] eqn:E2; [|done].
  apply ensure_node_grows in E1 as [Hg1 Hs1], E2 as [Hg2 Hs2].
  pose proof (grows_by_well_keyed _ _ _ Hg1 Hs1 HG) as HG1.
  pose proof (grows_by_well_keyed _ _ _ Hg2 Hs2 HG1) as (K1 & K2 & K3 & K4).
  pose proof (grows_by_keeps _ _ _ _ Hg2 (grows_by_node _ _ _ Hg1)) as Hsrc.
  pose proof (grows_by_node _ _ _ Hg2) as Htgt.
  destruct (edge_lookup (source, target) (_succ G2)) as [d|] eqn:El;
    intros [= <-]; unfold well_keyed; cbn [_node _succ].
  - by rewrite edge_update_keys.
  - rewrite map_app. cbn [map fst]. repeat split; try done.
    + apply distinct_edges_snoc; [done | by apply edge_lookup_keys].
    + apply Forall_app. split; [done|]. by constructor.
Qed.


(** *** Repeated entries *)

Lemma dict_set_same k v d : dict_get k d = Some v -> dict_set k v d = d.
Proof.
  induction d as [|[k' v'] d IH]; simpl; [done|].
  destruct (pystr_eqb k' k); [by intros [= ->] | intros H; by rewrite IH].
Qed.

Lemma node_attributes_twice l g t d :
  let attr := [(u "label", l); (u "group", g); (u "title", t)] in
  dict_update attr (dict_update attr d) = dict_update attr d.
Proof.
  intros attr. destruct (node_attributes_get l g t d) as (Hl & Hg & Ht).
  fold attr in Hl, Hg, Ht. unfold dict_update at 1. cbn [attr fold_left fst snd].
  rewrite (dict_set_same _ _ _ Hl), (dict_set_same _ _ _ Hg).
  by rewrite (dict_set_same _ _ _ Ht).
Qed.

Lemma node_update_twice n attr nodes :
  (forall d, dict_update attr (dict_update attr d) = dict_update attr d) ->
  node_update n attr (node_update n attr nodes) = node_update n attr nodes.
Proof.
  intros Hattr. induction nodes as [|[k d] nodes IH]; simpl; [done|].
  destruct (key_eqb k n) eqn:E; simpl; rewrite E; [by rewrite Hattr | by rewrite IH].
Qed.

Lemma node_update_app_new n attr nodes d :
  hashable n = true -> node_lookup n nodes = None ->
  node_update n attr (nodes ++ [(n, d)]) = nodes ++ [(n, dict_update attr d)].
Proof.
  intros Hn. induction nodes as [|[k d'] nodes IH]; simpl.
  - by rewrite key_eqb_refl.
  - destruct (key_eqb k n); [done|]. intros H. by rewrite IH.
Qed.

Lemma add_node_twice n attr G G' :
  (forall d, dict_update attr (dict_update attr d) = dict_update attr d) ->
  add_node n attr G = Returns G' -> add_node n attr G' = Returns G'.
Proof.
  intros Hattr. unfold add_node. destruct (hashable n) eqn:Hh; simpl; [|done].
  destruct (node_lookup n (_node G)) as [d|] eqn:Hl.
  - intros [= <-]. cbn [_node _succ].
    rewrite (node_lookup_update _ attr _ _ Hl). by rewrite node_update_twice.
  - intros H.
    assert (G' = {| _node := _node G ++ [(n, dict_update attr [])];
                    _succ := _succ G |}) as ->.
    { destruct n; try done; by inversion H. }
    cbn [_node _succ]. rewrite (node_lookup_app_new _ _ _ Hh Hl).
    rewrite (node_update_app_new _ _ _ _ Hh Hl). by rewrite Hattr.
Qed.

(** *** Sizes *)

Lemma grows_by_length n G G' :
  grows_by n G G' -> (length (_node G') <= length (_node G) + 1)%nat.
Proof.
  intros [[E _]|(E & _)]; apply (f_equal length) in E;
    rewrite ?length_app, !length_map in E; simpl in E; lia.
Qed.

Lemma add_edge_length source target attr G G' :
  add_edge source target attr G = Returns G' ->
  (length (_node G') <= length (_node G) + 2)%nat
  /\ (length (_succ G') <= length (_succ G) + 1)%nat.
Proof.
  unfold add_edge.
  destruct (ensure_node source G) as [G1|] eqn:E1; [|done].
  destruct (ensure_node target G1) as [G2|] eqn:E2; [|done].
  apply ensure_node_grows in E1 as [Hg1%grows_by_length Hs1],
      E2 as [Hg2%grows_by_length Hs2].
  destruct (edge_lookup (source, target) (_succ G2)) as [d|] eqn:El;
    intros [= <-]; cbn [_node _succ]; (split; [lia|]).
  - apply (f_equal length) in Hs1, Hs2.
    pose proof (f_equal length (edge_update_keys (source, target) attr (_succ G2))) as E.
    rewrite !length_map in E. lia.
  - apply (f_equal length) in Hs1, Hs2. rewrite length_app. simpl. lia.
Qed.

Lemma for_each_count {A} (f : DiGraph -> nat) (c : nat)
  (body : A -> DiGraph -> outcome DiGraph) (l : list A) :
  (forall x G G', body x G = Returns G' -> (f G' <= f G + c)%nat) ->
  forall G G', for_each body l G = Returns G' -> (f G' <= f G + c * length l)%nat.
Proof.
  intros Hbody. induction l as [|x l IH]; intros G G'; simpl.
  - intros [= <-]. lia.
  - destruct (body x G) as [G1|] eqn:E; [|done]. intros H.
    apply Hbody in E. apply IH in H. lia.
Qed.

(** *** Errors *)

Lemma for_each_error {A} (Q : exn -> Prop)
  (body : A -> DiGraph -> outcome DiGraph) (l : list A) :
  (forall x G e, body x G = Raises e -> Q e) ->
  forall G e, for_each body l G = Raises e -> Q e.
Proof.
  intros Hbody. induction l as [|x l IH]; intros G e; simpl; [done|].
  destruct (body x G) as [G1|e1] eqn:E; [eauto|]. intros [= <-]. eauto.
Qed.

Lemma for_each_raises {A} (P : DiGraph -> Prop) (bad : A -> Prop)
  (body : A -> DiGraph -> outcome DiGraph) (l : list A) :
  (forall x G G', P G -> body x G = Returns G' -> P G') ->
  (forall x G, P G -> bad x -> exists e, body x G = Raises e) ->
  Exists bad l ->
  forall G, P G -> exists e, for_each body l G = Raises e.
Proof.
  intros Hinv Hbad. induction 1 as [x l Hx | x l Hl IH]; intros G HG; simpl.
  - destruct (Hbad x G HG Hx) as [e ->]. by exists e.
  - destruct (body x G) as [G1|e1] eqn:E; [eauto | by exists e1].
Qed.

Lemma add_node_error n attr G e : add_node n attr G = Raises e -> builder_error e.
Proof.
  unfold add_node, builder_error. destruct (hashable n); simpl; [|intros [= <-]; auto].
  destruct (node_lookup n (_node G)); [done|].
  destruct n; try done; intros [= <-]; auto.
Qed.

Lemma ensure_node_error n G e : ensure_node n G = Raises e -> builder_error e.
Proof.
  unfold ensure_node, builder_error.
  destruct (hashable n); simpl; [|intros [= <-]; auto].
  destruct (node_lookup n (_node G)); [done|].
  destruct n; try done; intros [= <-]; auto.
Qed.

Lemma ensure_node_bad n G :
  well_keyed G ->
  match n with JNull | JArr _ | JObj _ => True | _ => False end ->
  exists e, ensure_node n G = Raises e.
Proof.
  intros HG Hn. unfold ensure_node.
  destruct n; try done; simpl; try by eexists.
  rewrite (node_lookup_null _ HG). by eexists.
Qed.

Section Render.
Variable container_repr : json -> pystr.

Local Abbreviation add_node_data := (add_node_data container_repr).
Local Abbreviation build_graph := (build_graph container_repr).

Lemma add_node_data_well_keyed x G G' :
  well_keyed G -> add_node_data x G = Returns G' -> well_keyed G'.
Proof.
  intros HG. destruct x as [| | | | |nd]; try done. cbn [Visualizer.add_node_data].
  intros [Hg Hs]%add_node_grows. by eapply grows_by_well_keyed.
Qed.

Lemma add_edge_data_well_keyed x G G' :
  well_keyed G -> add_edge_data x G = Returns G' -> well_keyed G'.
Proof.
  intros HG. destruct x as [| | | | |ed]; try done. cbn [add_edge_data].
  by apply add_edge_well_keyed.
Qed.

Lemma for_each_invariant {A} (P : DiGraph -> Prop)
  (body : A -> DiGraph -> outcome DiGraph) (l : list A) :
  (forall x G G', P G -> body x G = Returns G' -> P G') ->
  forall G G', P G -> for_each body l G = Returns G' -> P G'.
Proof.
  intros Hbody. induction l as [|x l IH]; intros G G' HG; simpl.
  - by intros [= <-].
  - destruct (body x G) as [G1|] eqn:E; [|done]. eauto.
Qed.

Lemma well_keyed_empty : well_keyed empty_graph.
Proof. repeat split; constructor. Qed.

(** X8. Every graph the builder returns, whatever the response: no node
    key occurs twice (as Python compares keys), every key is hashable and
    not None, no pair of ends occurs twice, and both ends of every edge are
    nodes of the graph. *)
Theorem built_graph_is_well_keyed (d : dict) (G : DiGraph) :
  build_graph d = Returns G ->
  distinct_keys (map fst (_node G))
  /\ Forall (fun k => hashable k = true /\ k <> JNull) (map fst (_node G))
  /\ distinct_edges (map fst (_succ G))
  /\ Forall (fun e => is_node_id (map fst (_node G)) e.1
                      /\ is_node_id (map fst (_node G)) e.2)
       (map fst (_succ G)).
Proof.
  unfold build_graph, Visualizer.build_graph.
  destruct (py_iter _) as [nodes|]; [|done].
  destruct (for_each _ nodes _) as [G1|] eqn:E1; [|done].
  destruct (py_iter _) as [edges|]; [|done].
  intros E2. change (well_keyed G).
  eapply for_each_invariant; [apply add_edge_data_well_keyed | | exact E2].
  eapply for_each_invariant; [apply add_node_data_well_keyed | | exact E1].
  apply well_keyed_empty.
Qed.

(** X9. Adding a node entry a second time changes nothing: the graph
    after the first addition is returned again, with the same nodes in the
    same order and the same attributes. *)
Theorem repeated_node_entry_changes_nothing (x : json) (G G' : DiGraph) :
  add_node_data x G = Returns G' -> add_node_data x G' = Returns G'.
Proof.
  destruct x as [| | | | |nd]; try done. cbn [Visualizer.add_node_data].
  apply add_node_twice. intros d. apply node_attributes_twice.
Qed.

(** X10. The graph is never larger than the response: it has at most
    one edge per entry of [edges], and at most one node per entry of
    [nodes] and two per entry of [edges]. *)
Theorem built_graph_size (d : dict) (G : DiGraph) :
  build_graph d = Returns G ->
  exists nodes edges,
    py_iter (dict_get_default (u "nodes") (JArr []) d) = Returns nodes
    /\ py_iter (dict_get_default (u "edges") (JArr []) d) = Returns edges
    /\ (length (_node G) <= length nodes + 2 * length edges)%nat
    /\ (length (_succ G) <= length edges)%nat.
Proof.
  unfold build_graph, Visualizer.build_graph.
  destruct (py_iter _) as [nodes|]; [|done].
  destruct (for_each _ nodes _) as [G1|] eqn:E1; [|done].
  destruct (py_iter _) as [edges|]; [|done].
  intros E2. exists nodes, edges. split; [done|]. split; [done|].
  assert (forall x G G', add_node_data x G = Returns G' ->
            (length (_node G') <= length (_node G) + 1)%nat
            /\ (length (_succ G') <= length (_succ G) + 0)%nat) as Hnode.
  { intros [| | | | |nd] G0 G0'; try done. cbn [Visualizer.add_node_data].
    intros [Hg ->]%add_node_grows. apply grows_by_length in Hg. lia. }
  pose proof (for_each_count (fun G => length (_node G)) 1 _ _
                (fun x G G' H => proj1 (Hnode x G G' H)) _ _ E1) as N1.
  pose proof (for_each_count (fun G => length (_succ G)) 0 _ _
                (fun x G G' H => proj2 (Hnode x G G' H)) _ _ E1) as S1.
  assert (forall x G G', add_edge_data x G = Returns G' ->
            (length (_node G') <= length (_node G) + 2)%nat
            /\ (length (_succ G') <= length (_succ G) + 1)%nat) as Hedge.
  { intros [| | | | |ed] G0 G0'; try done. apply add_edge_length. }
  pose proof (for_each_count (fun G => length (_node G)) 2 _ _
                (fun x G G' H => proj1 (Hedge x G G' H)) _ _ E2) as N2.
  pose proof (for_each_count (fun G => length (_succ G)) 1 _ _
                (fun x G G' H => proj2 (Hedge x G G' H)) _ _ E2) as S2.
  cbn [empty_graph _node _succ length] in *. lia.
Qed.

(** *** Entries that cannot be added *)

Lemma add_node_data_error x G e : add_node_data x G = Raises e -> builder_error e.
Proof.
  destruct x as [| | | | |nd]; try (intros [= <-]; left; done).
  cbn [Visualizer.add_node_data]. apply add_node_error.
Qed.

Lemma add_edge_data_error x G e : add_edge_data x G = Raises e -> builder_error e.
Proof.
  destruct x as [| | | | |ed]; try (intros [= <-]; left; done).
  cbn [add_edge_data]. unfold add_edge.
  destruct (ensure_node _ G) as [G1|e1] eqn:E1;
    [|intros [= <-]; by eapply ensure_node_error].
  destruct (ensure_node _ G1) as [G2|e2] eqn:E2;
    [|intros [= <-]; by eapply ensure_node_error].
  by destruct (edge_lookup _ _).
Qed.

Lemma add_node_data_bad x G :
  well_keyed G -> node_entry_ok x = false -> exists e, add_node_data x G = Raises e.
Proof.
  intros HG. destruct x as [| | | | |nd]; try (intros _; by eexists).
  cbn [Visualizer.add_node_data node_entry_ok]. unfold add_node.
  change (dict_get_default (u "id") JNull nd) with (node_id_of nd).
  destruct (node_id_of nd) eqn:E; try done; intros _; cbn [hashable negb];
    try by eexists.
  rewrite (node_lookup_null _ HG). by eexists.
Qed.

Lemma add_edge_data_bad x G :
  well_keyed G -> edge_entry_ok x = false -> exists e, add_edge_data x G = Raises e.
Proof.
  intros HG. destruct x as [| | | | |ed]; try (intros _; by eexists).
  cbn [add_edge_data edge_entry_ok]. unfold add_edge, edge_ends.
  set (source := dict_get_default (u "source") JNull ed).
  set (target := dict_get_default (u "target") JNull ed).
  intros Hbad.
  destruct (ensure_node source G) as [G1|e1] eqn:E1; [|by eexists].
  assert (match source with JNull | JArr _ | JObj _ => False | _ => True end) as Hs.
  { destruct source eqn:Es; try done;
      (destruct (ensure_node_bad source G HG) as [e He];
       [by rewrite Es | rewrite <- Es in E1; congruence]). }
  apply ensure_node_grows in E1 as [Hg1 Hs1].
  pose proof (grows_by_well_keyed _ _ _ Hg1 Hs1 HG) as HG1.
  destruct (ensure_node_bad target G1 HG1) as [e ->]; [|by eexists].
  destruct source, target; done.
Qed.


(** *** Ends of an edge that are no nodes yet *)

Lemma node_lookup_app k l l' :
  node_lookup k (l ++ l')
  = match node_lookup k l with Some d => Some d | None => node_lookup k l' end.
Proof.
  induction l as [|[n d] l IH]; simpl; [done|]. by destruct (key_eqb n k).
Qed.

Lemma ensure_node_shape n G G' :
  ensure_node n G = Returns G' ->
  _succ G' = _succ G
  /\ ((_node G' = _node G /\ is_Some (node_lookup n (_node G)))
      \/ (_node G' = _node G ++ [(n, [])]
          /\ node_lookup n (_node G) = None /\ hashable n = true)).
Proof.
  unfold ensure_node. destruct (hashable n) eqn:Hh; simpl; [|done].
  destruct (node_lookup n (_node G)) as [d|] eqn:Hl.
  - intros [= <-]. split; [done|]. left. by split.
  - intros H.
    assert (G' = {| _node := _node G ++ [(n, [])]; _succ := _succ G |}) as ->.
    { destruct n; try done; by inversion H. }
    split; [done|]. by right.
Qed.

Lemma key_eqb_trans a b c :
  key_eqb a b = true -> key_eqb b c = true -> key_eqb a c = true.
Proof.
  destruct a as [|[]|x|x| |], b as [|[]|y|y| |], c as [|[]|z|z| |];
    cbn -[Z.eqb pystr_eqb]; try done;
    rewrite ?Z.eqb_eq, ?pystr_eqb_eq; try congruence; lia.
Qed.

Lemma ensure_node_lookup n G G' :
  ensure_node n G = Returns G' ->
  (forall k d, node_lookup k (_node G) = Some d -> node_lookup k (_node G') = Some d)
  /\ (forall k, node_lookup k (_node G) = None -> key_eqb n k = true ->
      node_lookup k (_node G') = Some []).
Proof.
  intros [_ [[-> [d Hd]]|(-> & Hn & Hh)]]%ensure_node_shape.
  - split; [done|]. intros k Hk E.
    apply node_lookup_Some, Exists_exists in Hd as ([n' d'] & Hin & Hn').
    apply node_lookup_None in Hk. rewrite Forall_forall in Hk.
    specialize (Hk _ Hin). simpl in *.
    by rewrite (key_eqb_trans _ _ _ Hn' E) in Hk.
  - split.
    + intros k d Hk. by rewrite node_lookup_app, Hk.
    + intros k Hk E. rewrite node_lookup_app, Hk. simpl. by rewrite E.
Qed.

Lemma edge_lookup_update e attr edges d :
  edge_lookup e edges = Some d ->
  edge_lookup e (edge_update e attr edges) = Some (dict_update attr d).
Proof.
  induction edges as [|[k d'] edges IH]; simpl; [done|].
  destruct (edge_key_eqb k e) eqn:E; simpl; rewrite E; [by intros [= ->] | auto].
Qed.

Lemma edge_lookup_app_new e edges d :
  hashable e.1 = true -> hashable e.2 = true -> edge_lookup e edges = None ->
  edge_lookup e (edges ++ [(e, d)]) = Some d.
Proof.
  intros H1 H2. induction edges as [|[k d'] edges IH]; simpl.
  - unfold edge_key_eqb. by rewrite !key_eqb_refl.
  - destruct (edge_key_eqb k e); [done | auto].
Qed.

Lemma edge_attributes_get t l d :
  let attrs := dict_update [(u "title", t); (u "label", l)] d in
  dict_get (u "title") attrs = Some t /\ dict_get (u "label") attrs = Some l.
Proof.
  assert (u "title" <> u "label") as H by by vm_compute.
  unfold dict_update. simpl. split.
  - rewrite dict_get_set_ne by done. apply dict_get_set_eq.
  - apply dict_get_set_eq.
Qed.

(** X11. An edge entry whose ends are no nodes yet adds them: after
    [add_edge] each such end is a node with no attribute at all (no label,
    group or title); the nodes that were there keep their attributes; and
    the edge is in the graph with the label of the entry and the JSON text
    of its title. *)
Theorem edge_adds_its_missing_ends (edge_data : dict) (G G' : DiGraph) :
  add_edge_data (JObj edge_data) G = Returns G' ->
  let source := (edge_ends edge_data).1 in
  let target := (edge_ends edge_data).2 in
  let label := dict_get_default (u "label") (JStr []) edge_data in
  (node_lookup source (_node G) = None -> node_lookup source (_node G') = Some [])
  /\ (node_lookup target (_node G) = None -> node_lookup target (_node G') = Some [])
  /\ (forall k d, node_lookup k (_node G) = Some d -> node_lookup k (_node G') = Some d)
  /\ exists attrs,
       edge_lookup (source, target) (_succ G') = Some attrs
       /\ dict_get (u "label") attrs = Some label
       /\ dict_get (u "title") attrs
          = Some (JStr (dumps None (dict_get_default (u "title") label edge_data))).
Proof.
  cbn [add_edge_data]. unfold add_edge, edge_ends. cbn [fst snd].
  set (source := dict_get_default (u "source") JNull edge_data).
  set (target := dict_get_default (u "target") JNull edge_data).
  set (label := dict_get_default (u "label") (JStr []) edge_data).
  destruct (ensure_node source G) as [G1|] eqn:E1; [|done].
  destruct (ensure_node target G1) as [G2|] eqn:E2; [|done].
  assert (hashable source = true /\ hashable target = true) as [Hhs Hht].
  { unfold ensure_node in E1, E2.
    destruct (hashable source), (hashable target); done. }
  pose proof (ensure_node_shape _ _ _ E1) as [_ Hshape].
  apply ensure_node_lookup in E1 as (K1 & N1), E2 as (K2 & N2).
  assert (forall k d, node_lookup k (_node G) = Some d -> node_lookup k (_node G2) = Some d)
    as Hkeep by (intros k d H; by apply K2, K1).
  assert (node_lookup source (_node G) = None -> node_lookup source (_node G2) = Some [])
    as Hsrc.
  { intros H. apply K2, N1; [done | by apply key_eqb_refl]. }
  assert (node_lookup target (_node G) = None -> node_lookup target (_node G2) = Some [])
    as Htgt.
  { intros H. destruct (node_lookup target (_node G1)) as [d|] eqn:H1.
    - apply K2. rewrite H1. f_equal.
      destruct Hshape as [[E _]|(E & _)]; rewrite E in H1; [congruence|].
      rewrite node_lookup_app, H in H1. simpl in H1.
      destruct (key_eqb source target); by inversion H1.
    - apply N2; [done | by apply key_eqb_refl]. }
  destruct (edge_lookup (source, target) (_succ G2)) as [d|] eqn:El;
    intros [= <-]; cbn [_node _succ];
    (split; [done|]); (split; [done|]); (split; [done|]); eexists;
    (split; [by first [apply edge_lookup_update | apply edge_lookup_app_new]|]);
    destruct (edge_attributes_get
                (JStr (dumps None (dict_get_default (u "title") label edge_data)))
                label (default [] (edge_lookup (source, target) (_succ G2))))
      as [Ht Hl]; rewrite El in Ht, Hl; done.
Qed.

Section Iframe.
Context {W : Type}.
Variable iframe_src : DiGraph -> outcome pystr.

Local Abbreviation render_lineage_graph :=
  (render_lineage_graph (W:=W) container_repr iframe_src).

(** X12. One entry that cannot be added fails the whole build.  When
    [nodes] holds an entry that is no dictionary or whose [id] is absent,
    null, a list or a dictionary, or [edges] holds an entry with such a
    [source] or [target], the builder raises (an AttributeError, TypeError
    or ValueError), no graph is shown, and the renderer reports the
    exception: error message, hint and traceback. *)
Theorem bad_entry_fails_the_build (d : dict) (nodes : list json) (st : process W) :
  dict_get (u "nodes") d = Some (JArr nodes) ->
  truthy_opt (dict_get (u "error") d) = false ->
  Exists (fun x => node_entry_ok x = false) nodes
  \/ (exists edges,
        dict_get_default (u "edges") (JArr []) d = JArr edges
        /\ Exists (fun x => edge_entry_ok x = false) edges) ->
  exists e,
    build_graph d = Raises e
    /\ builder_error e
    /\ render_lineage_graph (JObj d) st
       = (Done tt, st,
          [st_error (u "Error rendering interactive graph: " ++ exn_str e);
           st_info malformed_message; st_exception e]).
Proof.
  intros Hnodes Herr Hbad.
  assert (exists e, build_graph d = Raises e /\ builder_error e) as (e & Hb & He).
  { unfold build_graph, Visualizer.build_graph, dict_get_default at 1.
    rewrite Hnodes. cbn [default from_option id py_iter].
    destruct (for_each add_node_data nodes empty_graph) as [G1|e1] eqn:E1.
    - destruct Hbad as [Hbad|(edges & Hedges & Hbad)].
      + destruct (for_each_raises well_keyed _ _ _ add_node_data_well_keyed
                    add_node_data_bad Hbad empty_graph well_keyed_empty) as [e He].
        congruence.
      + rewrite Hedges. cbn [py_iter].
        assert (well_keyed G1) as HG1.
        { eapply for_each_invariant;
            [apply add_node_data_well_keyed | apply well_keyed_empty | exact E1]. }
        destruct (for_each_raises well_keyed _ _ _ add_edge_data_well_keyed
                    add_edge_data_bad Hbad G1 HG1) as [e He].
        exists e. split; [done|].
        eapply for_each_error; [apply add_edge_data_error | exact He].
    - exists e1. split; [done|].
      eapply for_each_error; [apply add_node_data_error | exact E1]. }
  exists e. split; [done|]. split; [done|].
  unfold Visualizer.render_lineage_graph.
  destruct d as [|kv d']; [done|]. cbn [truthy negb].
  rewrite Hnodes, Herr, Hb. reflexivity.
Qed.

(** The renderer on a dictionary: one of four displays, the state
    untouched. *)
Lemma render_dictionary (d : dict) (st : process W) :
  exists evs,
    render_lineage_graph (JObj d) st = (Done tt, st, evs)
    /\ (evs = [st_info no_data_message]
        \/ (truthy_opt (dict_get (u "error") d) = true
            /\ evs = [st_error (u "Error generating graph data from AI: "
                                ++ py_str container_repr
                                     (dict_get_default (u "error") JNull d));
                      st_info struggled_message])
        \/ (exists G src,
              build_graph d = Returns G /\ iframe_src G = Returns src
              /\ evs = [st_iframe src])
        \/ (exists e,
              (build_graph d = Raises e
               \/ exists G, build_graph d = Returns G /\ iframe_src G = Raises e)
              /\ evs = [st_error (u "Error rendering interactive graph: " ++ exn_str e);
                        st_info malformed_message; st_exception e])).
Proof.
  unfold Visualizer.render_lineage_graph.
  destruct (truthy (JObj d)); cbn [negb]; [|eexists; split; [reflexivity|]; by left].
  destruct (dict_get (u "nodes") d) as [[]|];
    try (eexists; split; [reflexivity|]; by left).
  all: destruct (truthy_opt (dict_get (u "error") d));
    [eexists; split; [reflexivity|]; right; left; by split|].
  all: destruct (build_graph d) as [G|e] eqn:Hb;
    [|eexists; split; [reflexivity|]; right; right; right; exists e; split;
      [by left | done]].
  all: destruct (iframe_src G) as [src|e] eqn:Hi;
    [eexists; split; [reflexivity|]; right; right; left; by exists G, src
    |eexists; split; [reflexivity|]; right; right; right; exists e; split;
      [right; by exists G | done]].
Qed.

(** X13. What [render_lineage_graph] can do.  On a dictionary it
    returns with the state untouched and shows one of four things: the
    no-data notice; the diagnostic of a truthy [error]; the iframe of the
    graph built; or, when building or drawing raised, the error message
    with hint and traceback.  On a falsy value that is no dictionary it
    shows the no-data notice; on a truthy one (a non-empty list or string,
    a number, True) it raises AttributeError. *)
Theorem renderer_outcomes (v : json) (st : process W) :
  match v with
  | JObj d =>
      exists evs,
        render_lineage_graph v st = (Done tt, st, evs)
        /\ (evs = [st_info no_data_message]
            \/ (truthy_opt (dict_get (u "error") d) = true
                /\ evs = [st_error (u "Error generating graph data from AI: "
                                    ++ py_str container_repr
                                         (dict_get_default (u "error") JNull d));
                          st_info struggled_message])
            \/ (exists G src,
                  build_graph d = Returns G /\ iframe_src G = Returns src
                  /\ evs = [st_iframe src])
            \/ (exists e,
                  (build_graph d = Raises e
                   \/ exists G, build_graph d = Returns G /\ iframe_src G = Raises e)
                  /\ evs = [st_error (u "Error rendering interactive graph: "
                                      ++ exn_str e);
                            st_info malformed_message; st_exception e]))
  | _ =>
      render_lineage_graph v st
      = if truthy v then (Error no_attribute_get, st, [])
        else (Done tt, st, [st_info no_data_message])
  end.
Proof.
  destruct v as [|b|z|s|l|d]; try apply render_dictionary;
    unfold Visualizer.render_lineage_graph; by destruct (truthy _).
Qed.

(** X14. The [title] attribute of a graph node is a JSON document of
    the title text: [json.loads] of it is the title text of the entry (the
    title given, or the default made of id and group), for every
    well-formed title text. *)
Theorem node_title_reads_back (node_data : dict) (G G' : DiGraph) :
  let node_id := node_id_of node_data in
  let group := dict_get_default (u "group") (JStr (u "unknown")) node_data in
  let title_text :=
    dict_get_default (u "title")
      (JStr (u "ID: " ++ py_str container_repr node_id ++ u "\nType: "
             ++ py_str container_repr group)) node_data in
  json_ok title_text ->
  add_node_data (JObj node_data) G = Returns G' ->
  exists attrs title,
    node_lookup node_id (_node G') = Some attrs
    /\ dict_get (u "title") attrs = Some (JStr title)
    /\ loads title = Some title_text.
Proof.
  intros node_id group title_text Hok. cbn [Visualizer.add_node_data].
  change (dict_get_default (u "id") JNull node_data) with node_id.
  fold group. fold title_text. unfold add_node.
  destruct (hashable node_id) eqn:Hh; simpl; [|done].
  destruct (node_lookup node_id (_node G)) as [d|] eqn:Hl.
  - intros [= <-]. cbn [_node]. eexists _, _.
    split; [by apply node_lookup_update|]. split; [apply node_attributes_get|].
    by apply RoundTrip.loads_dumps.
  - intros H.
    assert (G' = {| _node := _node G
                      ++ [(node_id,
                           dict_update
                             [(u "label", dict_get_default (u "label") node_id node_data);
                              (u "group", group);
                              (u "title", JStr (dumps None title_text))] [])];
                    _succ := _succ G |}) as ->.
    { destruct node_id; try done; by inversion H. }
    cbn [_node]. eexists _, _.
    split; [by apply node_lookup_app_new|]. split; [apply node_attributes_get|].
    by apply RoundTrip.loads_dumps.
Qed.

End Iframe.

End Render.

Lemma built_graph_is_well_keyed_witness :
  exists G,
    build_graph (fun _ => []) dangling_edge = Returns G
    /\ map fst (_node G) = [JStr (u "t.a"); JStr (u "t.b")]
    /\ distinct_keys (map fst (_node G)).
Proof.
  eexists. split; [vm_compute; reflexivity|]. split; [vm_compute; reflexivity|].
  refine (proj1 (built_graph_is_well_keyed (fun _ => []) dangling_edge _ _)).
  vm_compute. reflexivity.
Defined.

Lemma repeated_node_entry_changes_nothing_witness :
  exists G,
    add_node_data (fun _ => []) (JObj (column "t.a" "a")) empty_graph = Returns G
    /\ add_node_data (fun _ => []) (JObj (column "t.a" "a")) G = Returns G.
Proof.
  eexists. split; [vm_compute; reflexivity|].
  apply (repeated_node_entry_changes_nothing (fun _ => []) _ empty_graph).
  vm_compute. reflexivity.
Defined.

Lemma built_graph_size_witness :
  exists G,
    build_graph (fun _ => []) dangling_edge = Returns G
    /\ (length (_node G) <= 1 + 2 * 1)%nat /\ (length (_succ G) <= 1)%nat.
Proof.
  eexists. split; [vm_compute; reflexivity|].
  edestruct (built_graph_size (fun _ => []) dangling_edge)
    as (nodes & edges & Hn & He & H);
    [vm_compute; reflexivity|].
  injection Hn as <-. injection He as <-. exact H.
Defined.

Lemma edge_adds_its_missing_ends_witness :
  exists G',
    add_edge_data (JObj flow_a_b) empty_graph = Returns G'
    /\ node_lookup (JStr (u "t.a")) (_node G') = Some []
    /\ node_lookup (JStr (u "t.b")) (_node G') = Some [].
Proof.
  eexists. split; [vm_compute; reflexivity|].
  edestruct (edge_adds_its_missing_ends flow_a_b empty_graph) as (H1 & H2 & _);
    [vm_compute; reflexivity|].
  split; [apply H1 | apply H2]; reflexivity.
Defined.

Lemma bad_entry_fails_the_build_witness :
  render_lineage_graph (W:=unit) (fun _ => []) (fun _ => Returns [])
    (JObj node_without_id) fresh_process
  = (Done tt, fresh_process,
     [st_error (u "Error rendering interactive graph: None cannot be a node");
      st_info malformed_message; st_exception none_node]).
Proof.
  destruct (bad_entry_fails_the_build (fun _ => []) (fun _ => Returns [])
              node_without_id [JObj [(u "label", JStr (u "a"))]] fresh_process
              eq_refl eq_refl) as (e & Hb & _ & Hr).
  - left. apply Exists_cons_hd. reflexivity.
  - assert (build_graph (fun _ => []) node_without_id = Raises none_node) as E
      by reflexivity.
    rewrite E in Hb. injection Hb as <-. exact Hr.
Defined.

Lemma node_title_reads_back_witness :
  exists G' attrs title,
    add_node_data (fun _ => []) (JObj [(u "id", JStr (u "t.a"))]) empty_graph
    = Returns G'
    /\ node_lookup (JStr (u "t.a")) (_node G') = Some attrs
    /\ dict_get (u "title") attrs = Some (JStr title)
    /\ loads title = Some (JStr (u "ID: t.a\nType: unknown")).
Proof.
  eexists.
  edestruct (node_title_reads_back (fun _ => []) [(u "id", JStr (u "t.a"))]
               empty_graph) as (attrs & title & H1 & H2 & H3).
  - AppFacts.json_ok_tac.
  - vm_compute. reflexivity.
  - exists attrs, title. split; [reflexivity|]. split; [exact H1|].
    split; [exact H2 | exact H3].
Defined.

End GraphFacts.

(** ** UTF-8: decoding what was encoded *)

Module Utf8Facts.
Import RoundTrip.

(** Division and remainder by a constant, for [lia]. *)
Local Ltac div_lia := zify; Z.to_euclidean_division_equations; lia.

(** Settles the comparisons of a goal, each of which the context
    decides. *)
Local Ltac compare_all :=
  repeat match goal with
    | |- context [?a <? ?b] =>
        destruct (N.ltb_spec a b); [try (exfalso; div_lia) | try (exfalso; div_lia)]
    | |- context [?a <=? ?b] =>
        destruct (N.leb_spec a b); [try (exfalso; div_lia) | try (exfalso; div_lia)]
    end.

(** A leading pattern above the payload bits. *)
Lemma lor_lead a k hi lo : hi = a * 2 ^ k -> lo < 2 ^ k -> N.lor hi lo = hi + lo.
Proof. intros -> H. rewrite <- N.shiftl_mul_pow2 at 1. by apply lor_shiftl_add. Qed.

(** The bytes of one character, in arithmetic. *)
Lemma encode_char_bytes c bs :
  encode_char c = Some bs ->
  (c < 0x80 /\ bs = [c])
  \/ (0x80 <= c < 0x800 /\ bs = [192 + c / 64; 128 + c mod 64])
  \/ (0x800 <= c < 0x10000 /\ is_surrogate c = false
      /\ bs = [224 + c / 4096; 128 + (c / 64) mod 64; 128 + c mod 64])
  \/ (0x10000 <= c < 0x110000
      /\ bs = [240 + c / 262144; 128 + (c / 4096) mod 64;
               128 + (c / 64) mod 64; 128 + c mod 64]).
Proof.
  unfold encode_char.
  change 0x3F with (N.ones 6). rewrite !N.land_ones, !N.shiftr_div_pow2.
  change (2 ^ 6) with 64. change (2 ^ 12) with 4096. change (2 ^ 18) with 262144.
  assert (forall x, N.lor 0x80 (x mod 64) = 128 + x mod 64) as Hcont.
  { intros x. apply (lor_lead 2 6); [done|]. by apply N.mod_lt. }
  rewrite !Hcont.
  destruct (N.ltb_spec c 0x80) as [H1|H1].
  { intros [= <-]. left. split; [exact H1 | done]. }
  destruct (N.ltb_spec c 0x800) as [H2|H2].
  { intros [= <-]. right. left. split; [lia|].
    rewrite (lor_lead 3 6); [done | done | change (2 ^ 6) with 64; div_lia]. }
  destruct (N.ltb_spec c 0x10000) as [H3|H3].
  { destruct (is_surrogate c) eqn:Hs; [done|]. intros [= <-]. right. right. left.
    split; [lia|]. split; [done|].
    rewrite (lor_lead 14 4); [done | done | change (2 ^ 4) with 16; div_lia]. }
  destruct (N.ltb_spec c 0x110000) as [H4|H4]; [|done].
  intros [= <-]. right. right. right. split; [lia|].
  rewrite (lor_lead 30 3); [done | done | change (2 ^ 3) with 8; div_lia].
Qed.

(** The code point of a sequence of two, three and four bytes, in
    arithmetic. *)
Lemma code_point_2 b0 b1 :
  N.lor (N.shiftl (N.land b0 0x1F) 6) (N.land b1 0x3F) = b0 mod 32 * 64 + b1 mod 64.
Proof.
  change 0x1F with (N.ones 5). change 0x3F with (N.ones 6). rewrite !N.land_ones.
  rewrite lor_shiftl_add; [done|]. by apply N.mod_lt.
Qed.

Lemma code_point_3 b0 b1 b2 :
  N.lor (N.shiftl (N.land b0 0x0F) 12)
    (N.lor (N.shiftl (N.land b1 0x3F) 6) (N.land b2 0x3F))
  = b0 mod 16 * 4096 + (b1 mod 64 * 64 + b2 mod 64).
Proof.
  change 0x0F with (N.ones 4). change 0x3F with (N.ones 6). rewrite !N.land_ones.
  change (2 ^ 4) with 16. change (2 ^ 6) with 64.
  rewrite (lor_shiftl_add (b1 mod 64) (b2 mod 64) 6) by (by apply N.mod_lt).
  rewrite lor_shiftl_add; [done|].
  change (2 ^ 6) with 64. change (2 ^ 12) with 4096. div_lia.
Qed.

Lemma code_point_4 b0 b1 b2 b3 :
  N.lor (N.shiftl (N.land b0 0x07) 18)
    (N.lor (N.shiftl (N.land b1 0x3F) 12)
       (N.lor (N.shiftl (N.land b2 0x3F) 6) (N.land b3 0x3F)))
  = b0 mod 8 * 262144 + (b1 mod 64 * 4096 + (b2 mod 64 * 64 + b3 mod 64)).
Proof.
  change 0x07 with (N.ones 3). change 0x3F with (N.ones 6). rewrite !N.land_ones.
  change (2 ^ 3) with 8. change (2 ^ 6) with 64.
  rewrite (lor_shiftl_add (b2 mod 64) (b3 mod 64) 6) by (by apply N.mod_lt).
  rewrite (lor_shiftl_add (b1 mod 64) _ 12)
    by (change (2 ^ 6) with 64; change (2 ^ 12) with 4096; div_lia).
  rewrite lor_shiftl_add; [done|].
  change (2 ^ 6) with 64. change (2 ^ 12) with 4096. change (2 ^ 18) with 262144.
  div_lia.
Qed.

(** The decoder reads the bytes of a character back. *)
Lemma decode_encode_char pass c bs rest :
  encode_char c = Some bs ->
  Forall (fun b => b < 256) bs
  /\ decode_utf8_N pass (bs ++ rest) = cons c <$> decode_utf8_N pass rest.
Proof.
  intros [(H & ->)|[(H & ->)|[(H & Hs & ->)|(H & ->)]]]%encode_char_bytes.
  - split; [repeat constructor; lia|]. cbn [app decode_utf8_N].
    by compare_all.
  - split; [repeat constructor; div_lia|]. cbn [app decode_utf8_N].
    unfold is_cont. rewrite code_point_2.
    assert ((192 + c / 64) mod 32 * 64 + (128 + c mod 64) mod 64 = c) as ->
      by div_lia.
    by compare_all.
  - split; [repeat constructor; div_lia|]. cbn [app decode_utf8_N].
    unfold is_cont. rewrite code_point_3.
    assert ((224 + c / 4096) mod 16 * 4096
            + ((128 + (c / 64) mod 64) mod 64 * 64 + (128 + c mod 64) mod 64) = c)
      as -> by div_lia.
    rewrite Hs. compare_all. by rewrite orb_true_r.
  - split; [repeat constructor; div_lia|]. cbn [app decode_utf8_N].
    unfold is_cont. rewrite code_point_4.
    assert ((240 + c / 262144) mod 8 * 262144
            + ((128 + (c / 4096) mod 64) mod 64 * 4096
               + ((128 + (c / 64) mod 64) mod 64 * 64 + (128 + c mod 64) mod 64)) = c)
      as -> by div_lia.
    by compare_all.
Qed.

Lemma to_N_bytes bs : Forall (fun b => b < 256) bs -> map Byte.to_N (map byte_of_N bs) = bs.
Proof.
  induction 1 as [|b bs Hb Hbs IH]; simpl; [done|].
  by rewrite to_N_byte_of_N, IH.
Qed.

(** [s.encode('utf-8').decode('utf-8')] is [s]. *)
Lemma decode_encode_utf8 pass s bs :
  encode_utf8 s = Some bs -> decode_utf8 pass bs = Some s.
Proof.
  revert bs. induction s as [|c s IH]; intros bs; simpl.
  - by intros [= <-].
  - destruct (encode_char c) as [cs|] eqn:Hc; [|done].
    destruct (encode_utf8 s) as [rest|] eqn:Hs; [|done]. intros [= <-].
    destruct (decode_encode_char pass c cs (map Byte.to_N rest) Hc) as [Hlt Hdec].
    unfold decode_utf8 in *. rewrite map_app, (to_N_bytes _ Hlt), Hdec.
    by rewrite (IH rest eq_refl).
Qed.

(** What cannot be encoded. *)
Lemma encode_utf8_None s :
  encode_utf8 s = None ->
  Exists (fun c => is_surrogate c = true \/ 0x110000 <= c) s.
Proof.
  induction s as [|c s IH]; simpl; [done|].
  destruct (encode_char c) as [cs|] eqn:Hc.
  - destruct (encode_utf8 s); [done|]. intros _. right. by apply IH.
  - intros _. left. unfold encode_char in Hc.
    destruct (N.ltb_spec c 0x80); [done|].
    destruct (N.ltb_spec c 0x800); [done|].
    destruct (N.ltb_spec c 0x10000).
    + destruct (is_surrogate c); [by left | done].
    + destruct (N.ltb_spec c 0x110000); [done | by right].
Qed.

Lemma encode_utf8_Some s bs :
  encode_utf8 s = Some bs ->
  Forall (fun c => is_surrogate c = false /\ c < 0x110000) s.
Proof.
  revert bs. induction s as [|c s IH]; intros bs; simpl; [constructor|].
  destruct (encode_char c) as [cs|] eqn:Hc; [|done].
  destruct (encode_utf8 s) as [rest|] eqn:Hs; [|done]. intros _.
  constructor; [|by eapply IH].
  apply encode_char_bytes in Hc as [(H & _)|[(H & _)|[(H & Hsur & _)|(H & _)]]];
    try (split; [|lia]); try done; unfold is_surrogate;
    apply andb_false_iff; rewrite !N.leb_gt; lia.
Qed.

End Utf8Facts.

(** ** main.py and its sections *)

Module ScriptFacts.
Import AiLogic Visualizer App Scenarios AiLogicFacts VisualizerFacts AppFacts.
Import ScriptSpec Cases Utf8Facts.

Section Script.
Context {W : Type}.
Variable genai : provider W.
Variable json_loads : pystr -> outcome json.
Variable container_repr : json -> pystr.
Variable iframe_src : DiGraph -> outcome pystr.
Variable text_prompt : pystr -> pystr.
Variable structured_prompt : pystr -> pystr.

Local Abbreviation handler :=
  (map_lineage_handler genai json_loads container_repr text_prompt structured_prompt).
Local Abbreviation display_output_section :=
  (display_output_section (W:=W) container_repr iframe_src).

Lemma render_lineage_output_run (s : pystr) (st : process W) :
  render_lineage_output s st
  = (Done tt, st,
     if startswith sentinel s then
       [st_error (u "Failed to generate lineage map: " ++ s);
        st_info (u "Please ensure your API key is correctly configured and the input code is valid. If the issue persists, try simplifying the code snippet.")]
     else if pystr_eqb s [] then
       [st_info (u "No lineage map generated yet. Paste your ETL code/SQL and click 'Map Data Lineage' to see results.")]
     else
       [st_markdown (u "<div class='lineage-display-box'>" ++ s ++ u "</div>");
        st_success (u "Lineage mapping complete! 🎉 Your data flow insights are ready.")]).
Proof.
  unfold render_lineage_output.
  destruct (startswith sentinel s), (pystr_eqb s []); reflexivity.
Qed.


(** *** Steps of the script, run *)

Lemma session_write_run k v (st : process W) :
  session_write k v st = (Done tt, set_session (<[k := v]> (session_state st)) st, []).
Proof. reflexivity. Qed.

Lemma read_str_run k t (st : process W) :
  session_state st !! k = Some (SStr t) -> read_str k st = (Done t, st, []).
Proof. intros H. unfold read_str, session_read. run_M. by rewrite H. Qed.

Lemma read_json_run k j (st : process W) :
  session_state st !! k = Some (SJson j) -> read_json k st = (Done j, st, []).
Proof. intros H. unfold read_json, session_read. run_M. by rewrite H. Qed.

Lemma dark_mode_section_run (inp : inputs) (st : process W) :
  session_state st !! "_prev_dark_mode_state" = None ->
  dark_mode_section inp st
  = (Done tt,
     set_session (<["dark_mode" := SBool (dark_mode_toggle inp)]> (session_state st)) st,
     []).
Proof.
  intros Hprev. unfold dark_mode_section, session_write, read_bool, session_read.
  run_M. cbn [session_state set_session]. rewrite lookup_insert_eq.
  cbn [session_state set_session].
  rewrite lookup_insert_ne by done. rewrite Hprev. cbn [default from_option id].
  by rewrite Bool.eqb_reflx.
Qed.

(** The handler on pasted code, up to the check of the answer: both
    answers are stored. *)
Lemma handler_run input report v (st st2 st4 : process W) tr2 tr4 :
  strip input <> [] ->
  let st1 :=
    set_session (<["structured_lineage_data" := SJson (JObj [])]>
                   (<["lineage_text_output" := SStr []]> (session_state st))) st in
  ask_gemini_text genai (text_prompt input) st1 = (Done report, st2, tr2) ->
  let st3 :=
    set_session (<["lineage_text_output" := SStr report]> (session_state st2)) st2 in
  ask_gemini_structured genai json_loads (structured_prompt input) response_schema st3
  = (Done v, st4, tr4) ->
  let stored :=
    <["structured_lineage_data" := SJson v]>
      (<["lineage_text_output" := SStr report]>
         (<["structured_lineage_data" := SJson (JObj [])]>
            (<["lineage_text_output" := SStr []]> (session_state st)))) in
  handler input st
  = match v with
    | JObj d =>
        if truthy_opt (dict_get (u "error") d) then
          (Done tt,
           set_session
             (<["lineage_text_output" :=
                  SStr (report ++ graph_issue_note container_repr
                                    (dict_get_default (u "error") JNull d))]> stored)
             st4,
           tr2 ++ tr4)
        else (Done tt, set_session stored st4, tr2 ++ tr4)
    | _ => (Error no_attribute_get, set_session stored st4, tr2 ++ tr4)
    end.
Proof.
  intros Hinput st1 Htext st3 Hstruct stored.
  pose proof (ask_gemini_text_session genai (text_prompt input) st1) as Hs2.
  pose proof (ask_gemini_structured_session genai json_loads
                (structured_prompt input) response_schema st3) as Hs4.
  rewrite Htext in Hs2. rewrite Hstruct in Hs4. simpl in Hs2, Hs4.
  apply pystr_eqb_neq in Hinput.
  unfold map_lineage_handler. rewrite Hinput. cbn [negb].
  unfold session_write, read_json, read_str, session_read. run_M.
  match goal with
  | |- context [ask_gemini_text genai (text_prompt input) ?s] => change s with st1
  end.
  rewrite Htext.
  match goal with
  | |- context [ask_gemini_structured genai json_loads _ _ ?s] => change s with st3
  end.
  rewrite Hstruct. cbn [session_state set_session].
  rewrite lookup_insert_eq. unfold stored. rewrite Hs4, Hs2.
  destruct v as [| | | | |d]; try (by rewrite !app_nil_r).
  destruct (truthy_opt (dict_get (u "error") d)).
  - cbn [session_state set_session].
    rewrite lookup_insert_ne by done. rewrite lookup_insert_eq.
    by rewrite !app_nil_r.
  - by rewrite !app_nil_r.
Qed.


(** *** The session state through a run *)

Lemma script_session_insert_text s t :
  script_session s -> script_session (<["lineage_text_output" := SStr t]> s).
Proof.
  intros (H1 & H2 & H3). repeat split.
  - intros v. rewrite lookup_insert_eq. intros [= <-]. by eexists.
  - intros v. rewrite lookup_insert_ne by done. apply H2.
  - by rewrite lookup_insert_ne.
Qed.

Lemma script_session_insert_data s j :
  script_session s -> script_session (<["structured_lineage_data" := SJson j]> s).
Proof.
  intros (H1 & H2 & H3). repeat split.
  - intros v. rewrite lookup_insert_ne by done. apply H1.
  - intros v. rewrite lookup_insert_eq. intros [= <-]. by eexists.
  - by rewrite lookup_insert_ne.
Qed.

Lemma script_session_insert_other s k v :
  k <> "lineage_text_output" -> k <> "structured_lineage_data" ->
  k <> "_prev_dark_mode_state" ->
  script_session s -> script_session (<[k := v]> s).
Proof.
  intros K1 K2 K3 (H1 & H2 & H3). repeat split.
  - intros v'. rewrite lookup_insert_ne by done. apply H1.
  - intros v'. rewrite lookup_insert_ne by done. apply H2.
  - by rewrite lookup_insert_ne.
Qed.

Lemma script_session_delete s k : script_session s -> script_session (delete k s).
Proof.
  intros (H1 & H2 & H3). repeat split.
  - intros v [_ H]%lookup_delete_Some. by apply H1.
  - intros v [_ H]%lookup_delete_Some. by apply H2.
  - apply lookup_delete_None. by right.
Qed.

Lemma initialised_insert_other s k v :
  k <> "lineage_text_output" -> k <> "structured_lineage_data" ->
  initialised s -> initialised (<[k := v]> s).
Proof.
  intros K1 K2 [H1 H2]. split; by rewrite lookup_insert_ne.
Qed.

Lemma session_init_text (st : process W) :
  script_session (session_state st) ->
  exists st',
    session_init "lineage_text_output" (SStr []) st = (Done tt, st', [])
    /\ script_session (session_state st')
    /\ (exists t, session_state st' !! "lineage_text_output" = Some (SStr t))
    /\ world st' = world st
    /\ _gemini_model_instance st' = _gemini_model_instance st.
Proof.
  intros HS. unfold session_init, session_write. run_M.
  destruct (session_state st !! "lineage_text_output") as [v|] eqn:E.
  - exists st. split; [done|]. split; [done|]. split; [|done].
    destruct HS as (H1 & _). destruct (H1 v E) as [t ->]. by exists t.
  - eexists. split; [reflexivity|]. cbn [session_state set_session].
    split; [by apply script_session_insert_text|]. split; [|done].
    exists []. by rewrite lookup_insert_eq.
Qed.

Lemma session_init_data (st : process W) :
  script_session (session_state st) ->
  (exists t, session_state st !! "lineage_text_output" = Some (SStr t)) ->
  exists st',
    session_init "structured_lineage_data" (SJson (JObj [])) st = (Done tt, st', [])
    /\ script_session (session_state st')
    /\ initialised (session_state st')
    /\ world st' = world st
    /\ _gemini_model_instance st' = _gemini_model_instance st.
Proof.
  intros HS Ht. unfold session_init, session_write. run_M.
  destruct (session_state st !! "structured_lineage_data") as [v|] eqn:E.
  - exists st. split; [done|]. split; [done|]. split; [|done]. split; [done|].
    destruct HS as (_ & H2 & _). destruct (H2 v E) as [j ->]. by exists j.
  - eexists. split; [reflexivity|]. cbn [session_state set_session].
    split; [by apply script_session_insert_data|]. split; [|done]. split.
    + by rewrite lookup_insert_ne.
    + eexists. by rewrite lookup_insert_eq.
Qed.

Lemma handler_blank input (st : process W) :
  strip input = [] -> handler input st = (Done tt, st, [st_warning paste_warning]).
Proof.
  intros H%pystr_eqb_eq. unfold map_lineage_handler. by rewrite H.
Qed.

(** The handler when a call of the gateway raises: the exception leaves
    the handler, with what was stored before the call. *)
Lemma handler_text_raises input e (st st2 : process W) tr2 :
  strip input <> [] ->
  let st1 :=
    set_session (<["structured_lineage_data" := SJson (JObj [])]>
                   (<["lineage_text_output" := SStr []]> (session_state st))) st in
  ask_gemini_text genai (text_prompt input) st1 = (Error e, st2, tr2) ->
  handler input st = (Error e, st2, tr2).
Proof.
  intros Hinput%pystr_eqb_neq st1 Htext.
  unfold map_lineage_handler. rewrite Hinput. cbn [negb].
  unfold session_write. run_M.
  match goal with
  | |- context [ask_gemini_text genai (text_prompt input) ?s] => change s with st1
  end.
  by rewrite Htext.
Qed.

Lemma handler_structured_raises input report e (st st2 st4 : process W) tr2 tr4 :
  strip input <> [] ->
  let st1 :=
    set_session (<["structured_lineage_data" := SJson (JObj [])]>
                   (<["lineage_text_output" := SStr []]> (session_state st))) st in
  ask_gemini_text genai (text_prompt input) st1 = (Done report, st2, tr2) ->
  let st3 :=
    set_session (<["lineage_text_output" := SStr report]> (session_state st2)) st2 in
  ask_gemini_structured genai json_loads (structured_prompt input) response_schema st3
  = (Error e, st4, tr4) ->
  handler input st = (Error e, st4, tr2 ++ tr4).
Proof.
  intros Hinput%pystr_eqb_neq st1 Htext st3 Hstruct.
  unfold map_lineage_handler. rewrite Hinput. cbn [negb].
  unfold session_write. run_M.
  match goal with
  | |- context [ask_gemini_text genai (text_prompt input) ?s] => change s with st1
  end.
  rewrite Htext.
  match goal with
  | |- context [ask_gemini_structured genai json_loads _ _ ?s] => change s with st3
  end.
  by rewrite Hstruct.
Qed.

Lemma handler_safe input (st : process W) :
  script_session (session_state st) -> initialised (session_state st) ->
  exists r st' tr,
    handler input st = (r, st', tr)
    /\ script_session (session_state st')
    /\ initialised (session_state st')
    /\ match r with
       | Done _ => True
       | Error e => exn_class_of e = AttributeError
       | Halt _ => False
       end.
Proof.
  intros HS HI. destruct (pystr_eqb (strip input) []) eqn:Hblank.
  { apply pystr_eqb_eq in Hblank. rewrite (handler_blank _ _ Hblank).
    by eexists _, _, _. }
  apply pystr_eqb_neq in Hblank.
  set (st1 := set_session (<["structured_lineage_data" := SJson (JObj [])]>
                (<["lineage_text_output" := SStr []]> (session_state st))) st).
  pose proof (ask_gemini_text_outcome genai (text_prompt input) st1) as Hout2.
  pose proof (ask_gemini_text_session genai (text_prompt input) st1) as Hs2.
  destruct (ask_gemini_text genai (text_prompt input) st1)
    as [[[report|e|c] st2] tr2] eqn:Htext; [| |done].
  2:{ rewrite (handler_text_raises input e st st2 tr2 Hblank Htext).
      eexists _, _, _. split; [reflexivity|]. cbn [fst snd] in Hs2. rewrite Hs2.
      cbn [st1 session_state set_session].
      split; [by apply script_session_insert_data, script_session_insert_text|].
      split.
      - split; eexists; [rewrite lookup_insert_ne by done|]; by rewrite lookup_insert_eq.
      - destruct Hout2 as (? & ? & ? & ? & ? & _ & _ & _ & message & _ & ->). done. }
  set (st3 := set_session (<["lineage_text_output" := SStr report]>
                             (session_state st2)) st2).
  pose proof (ask_gemini_structured_outcome genai json_loads (structured_prompt input)
                response_schema st3) as Hout4.
  pose proof (ask_gemini_structured_session genai json_loads (structured_prompt input)
                response_schema st3) as Hs4.
  destruct (ask_gemini_structured genai json_loads (structured_prompt input)
              response_schema st3) as [[[v|e|c] st4] tr4] eqn:Hstruct; [| |done].
  2:{ rewrite (handler_structured_raises input report e st st2 st4 tr2 tr4
                 Hblank Htext Hstruct).
      eexists _, _, _. split; [reflexivity|]. cbn [fst snd] in Hs2, Hs4.
      rewrite Hs4. cbn [st3 session_state set_session]. rewrite Hs2.
      cbn [st1 session_state set_session].
      split; [by apply script_session_insert_text, script_session_insert_data,
                script_session_insert_text|].
      split.
      - split; eexists; [|rewrite lookup_insert_ne by done];
          by rewrite lookup_insert_eq.
      - destruct Hout4 as (? & ? & ? & ? & _ & _ & _ & (message & _ & ->) & _). done. }
  rewrite (handler_run input report v st st2 st4 tr2 tr4 Hblank Htext Hstruct).
  assert (script_session
            (<["structured_lineage_data" := SJson v]>
               (<["lineage_text_output" := SStr report]>
                  (<["structured_lineage_data" := SJson (JObj [])]>
                     (<["lineage_text_output" := SStr []]> (session_state st))))))
    as HS'.
  { by apply script_session_insert_data, script_session_insert_text,
      script_session_insert_data, script_session_insert_text. }
  assert (forall s, initialised
            (<["structured_lineage_data" := SJson v]>
               (<["lineage_text_output" := SStr report]> s))) as HI'.
  { intros s. split.
    - eexists. rewrite lookup_insert_ne by done. by rewrite lookup_insert_eq.
    - eexists. by rewrite lookup_insert_eq. }
  destruct v as [| | | | |d].
  6:{ destruct (truthy_opt (dict_get (u "error") d)).
      - eexists _, _, _. split; [reflexivity|]. cbn [session_state set_session].
        split; [by apply script_session_insert_text|]. split; [|done]. split.
        + eexists. by rewrite lookup_insert_eq.
        + eexists. rewrite lookup_insert_ne by done. by rewrite lookup_insert_eq.
      - eexists _, _, _. split; [reflexivity|]. cbn [session_state set_session].
        split; [exact HS'|]. split; [apply HI' | done]. }
  all: eexists _, _, _; split; [reflexivity|]; cbn [session_state set_session];
    (split; [exact HS'|]); (split; [apply HI' | done]).
Qed.


(** *** The display section *)

Lemma render_lineage_output_ui (s : pystr) (st : process W) :
  Forall ui_event (render_lineage_output s st).2.
Proof.
  rewrite render_lineage_output_run. cbn [snd].
  destruct (startswith sentinel s), (pystr_eqb s []); repeat constructor.
Qed.

Lemma render_lineage_graph_safe (v : json) (st : process W) :
  exists r tr,
    render_lineage_graph container_repr iframe_src v st = (r, st, tr)
    /\ Forall ui_event tr
    /\ (r = Done tt \/ r = Error no_attribute_get).
Proof.
  unfold render_lineage_graph.
  destruct (truthy v) eqn:Ht; cbn [negb].
  2:{ eexists _, _. split; [reflexivity|]. split; [repeat constructor | by left]. }
  destruct v as [| | | | |d];
    try (eexists _, _; split; [reflexivity|]; split; [constructor | by right]).
  assert (forall m : M unit,
            (exists r tr, m st = (r, st, tr) /\ Forall ui_event tr
                          /\ (r = Done tt \/ r = Error no_attribute_get)) ->
            exists r tr,
              match dict_get (u "nodes") d with
              | None | Some JNull => emit (st_info no_data_message)
              | Some _ => m
              end st = (r, st, tr)
              /\ Forall ui_event tr
              /\ (r = Done tt \/ r = Error no_attribute_get)) as Hnodes.
  { intros m Hm.
    destruct (dict_get (u "nodes") d) as [[]|]; try exact Hm;
      (eexists _, _; split; [reflexivity|]; split; [repeat constructor | by left]). }
  apply Hnodes.
  destruct (truthy_opt (dict_get (u "error") d)).
  { eexists _, _. split; [reflexivity|]. split; [repeat constructor | by left]. }
  destruct (build_graph container_repr d) as [G|e].
  - destruct (iframe_src G) as [src|e];
      (eexists _, _; split; [reflexivity|]; split; [repeat constructor | by left]).
  - eexists _, _. split; [reflexivity|]. split; [repeat constructor | by left].
Qed.

Lemma render_download_section_safe (data : json) (report : pystr) (st : process W) :
  exists r tr,
    render_download_section data report st = (r, st, tr)
    /\ Forall ui_event tr
    /\ (r = Done tt \/ r = Error unicode_encode_error).
Proof.
  unfold render_download_section, encode.
  destruct (truthy data && negb (pystr_eqb report [])).
  2:{ eexists _, _. split; [reflexivity|]. split; [repeat constructor | by left]. }
  rewrite encode_dumps. run_M.
  destruct (encode_utf8 report) as [md|]; cbn [app].
  - eexists _, _. split; [reflexivity|]. split; [repeat constructor | by left].
  - eexists _, _. split; [reflexivity|]. split; [constructor | by right].
Qed.

Lemma render_clear_button_safe (inp : inputs) (st : process W) :
  render_clear_button inp st
  = if clear_all_button inp then
      (Halt RerunException,
       set_session
         (delete "structured_lineage_data"
            (delete "lineage_result" (delete "etl_code_input" (session_state st))))
         st, [])
    else (Done tt, st, []).
Proof.
  destruct (clear_all_button inp) eqn:E.
  - by apply render_clear_button_clicked.
  - unfold render_clear_button. by rewrite E.
Qed.

Lemma display_safe (inp : inputs) (st : process W) text data :
  session_state st !! "lineage_text_output" = Some (SStr text) ->
  session_state st !! "structured_lineage_data" = Some (SJson data) ->
  exists r st' tr,
    display_output_section inp st = (r, st', tr)
    /\ world st' = world st
    /\ _gemini_model_instance st' = _gemini_model_instance st
    /\ Forall ui_event tr
    /\ match r with
       | Done _ => st' = st
       | Error e => st' = st /\ (e = no_attribute_get \/ e = unicode_encode_error)
       | Halt c =>
           c = RerunException /\ clear_all_button inp = true
           /\ session_state st'
              = delete "structured_lineage_data"
                  (delete "lineage_result" (delete "etl_code_input" (session_state st)))
       end.
Proof.
  intros Htext Hdata. unfold App.display_output_section.
  rewrite (bind_run _ _ _ _ _ _ (read_str_run _ _ _ Htext)).
  rewrite (bind_run _ _ _ _ _ _ (read_json_run _ _ _ Hdata)).
  destruct (negb (pystr_eqb text []) || truthy data).
  2:{ eexists _, _, _. split; [reflexivity|]. repeat split. constructor. }
  pose proof (render_lineage_output_ui text st) as Hui1.
  rewrite render_lineage_output_run in Hui1. cbn [snd] in Hui1.
  rewrite (bind_run _ _ _ _ _ _ (render_lineage_output_run _ _)).
  destruct (render_lineage_graph_safe data st) as (r2 & tr2 & Hg & Hui2 & Hr2).
  destruct Hr2 as [-> | ->].
  2:{ unfold bind at 1. rewrite Hg. eexists _, _, _. split; [reflexivity|].
      repeat split; auto. rewrite !app_nil_l. by apply Forall_app. }
  rewrite (bind_run _ _ _ _ _ _ Hg).
  destruct (render_download_section_safe data text st) as (r3 & tr3 & Hd & Hui3 & Hr3).
  destruct Hr3 as [-> | ->].
  2:{ unfold bind at 1. rewrite Hd. eexists _, _, _. split; [reflexivity|].
      repeat split; auto. rewrite !app_nil_l. by rewrite !Forall_app. }
  rewrite (bind_run _ _ _ _ _ _ Hd). rewrite render_clear_button_safe.
  destruct (clear_all_button inp).
  - eexists _, _, _. split; [reflexivity|]. repeat split.
    rewrite !app_nil_l, app_nil_r. by rewrite !Forall_app.
  - eexists _, _, _. split; [reflexivity|]. repeat split.
    rewrite !app_nil_l, app_nil_r. by rewrite !Forall_app.
Qed.


(** *** The script *)

Lemma render_code_input_section_run (inp : inputs) (st : process W) :
  render_code_input_section inp st
  = (Done (etl_code_input inp),
     set_session (<["etl_code_input" := SStr (etl_code_input inp)]> (session_state st)) st,
     []).
Proof. reflexivity. Qed.

Lemma click_safe (inp : inputs) (st : process W) :
  script_session (session_state st) -> initialised (session_state st) ->
  exists r st' tr,
    (if map_lineage_button inp then handler (etl_code_input inp) else ret tt) st
    = (r, st', tr)
    /\ script_session (session_state st')
    /\ initialised (session_state st')
    /\ match r with
       | Done _ => True
       | Error e => exn_class_of e = AttributeError
       | Halt _ => False
       end
    /\ (map_lineage_button inp = false \/ strip (etl_code_input inp) = [] ->
        r = Done tt /\ st' = st /\ Forall ui_event tr).
Proof.
  intros HS HI. destruct (map_lineage_button inp) eqn:Hclick.
  - destruct (pystr_eqb (strip (etl_code_input inp)) []) eqn:Hblank.
    + apply pystr_eqb_eq in Hblank. rewrite (handler_blank _ _ Hblank).
      eexists _, _, _. split; [reflexivity|]. split; [exact HS|].
      split; [exact HI|]. split; [done|]. intros _. split; [done|]. split; [done|].
      repeat constructor.
    + apply pystr_eqb_neq in Hblank.
      destruct (handler_safe (etl_code_input inp) st HS HI)
        as (r & st' & tr & Hrun & HS' & HI' & Hr).
      exists r, st', tr. split; [done|]. split; [done|]. split; [done|].
      split; [done|]. by intros [|].
  - eexists _, _, _. split; [reflexivity|]. split; [exact HS|].
    split; [exact HI|]. split; [done|]. intros _. split; [done|]. split; [done|].
    constructor.
Qed.

Lemma after_key_check_safe (inp : inputs) (st : process W) :
  script_session (session_state st) ->
  exists r st' tr,
    after_key_check genai json_loads container_repr iframe_src text_prompt
      structured_prompt inp st = (r, st', tr)
    /\ script_session (session_state st')
    /\ match r with
       | Done _ => initialised (session_state st')
       | Error e => exn_class_of e = AttributeError \/ e = unicode_encode_error
       | Halt c => c = RerunException /\ clear_all_button inp = true
       end
    /\ (map_lineage_button inp = false \/ strip (etl_code_input inp) = [] ->
        world st' = world st
        /\ _gemini_model_instance st' = _gemini_model_instance st
        /\ Forall ui_event tr).
Proof.
  intros HS.
  destruct (session_init_text st HS) as (st1 & R1 & HS1 & Ht1 & W1 & I1).
  destruct (session_init_data st1 HS1 Ht1) as (st2 & R2 & HS2 & HI2 & W2 & I2).
  unfold after_key_check.
  rewrite (bind_run _ _ _ _ _ _ R1), (bind_run _ _ _ _ _ _ R2).
  rewrite (bind_run _ _ _ _ _ _
             (dark_mode_section_run inp st2 (proj2 (proj2 HS2)))).
  rewrite (bind_run _ _ _ _ _ _ (render_code_input_section_run inp _)).
  cbn [session_state set_session].
  set (st4 := set_session _ (set_session _ st2)).
  assert (script_session (session_state st4)) as HS4.
  { cbn [st4 session_state set_session].
    by do 2 (apply script_session_insert_other; [done..|]). }
  assert (initialised (session_state st4)) as HI4.
  { cbn [st4 session_state set_session].
    by do 2 (apply initialised_insert_other; [done..|]). }
  assert (world st4 = world st /\ _gemini_model_instance st4 = _gemini_model_instance st)
    as [W4 I4].
  { cbn [st4 world _gemini_model_instance set_session]. split; congruence. }
  destruct (click_safe inp st4 HS4 HI4)
    as (r5 & st5 & tr5 & R5 & HS5 & HI5 & Hr5 & Hquiet5).
  destruct r5 as [[]|e|c]; [| |done].
  2:{ unfold bind at 1. rewrite R5. eexists _, _, _. split; [reflexivity|].
      split; [done|]. split; [by left|]. intros Hq.
      by destruct (Hquiet5 Hq). }
  rewrite (bind_run _ _ _ _ _ _ R5).
  destruct HI5 as [[text Htext] [data Hdata]].
  destruct (display_safe inp st5 text data Htext Hdata)
    as (r6 & st6 & tr6 & R6 & W6 & I6 & Hui6 & Hr6).
  rewrite R6. eexists _, _, _. split; [reflexivity|]. split; [|split].
  - destruct r6 as [[]|e|c].
    + by subst st6.
    + destruct Hr6 as [-> _]. done.
    + destruct Hr6 as (_ & _ & ->). by do 3 apply script_session_delete.
  - destruct r6 as [[]|e|c].
    + subst st6. split; by eexists.
    + destruct Hr6 as [_ [-> | ->]]; [by left | by right].
    + by destruct Hr6 as (? & ? & _).
  - intros Hq. destruct (Hquiet5 Hq) as (_ & -> & Hui5).
    split; [congruence|]. split; [congruence|].
    rewrite !app_nil_l. by apply Forall_app.
Qed.

Lemma import_ai_logic_run (key : option pystr) (st : process W) :
  import_ai_logic key st
  = if ai_logic_imported st then (Done tt, st, [])
    else if api_key_rejected key
         then (Error (Exn RuntimeError api_key_error_message), st, [])
         else (Done tt, set_imported true (set_instance None st), []).
Proof.
  unfold import_ai_logic. run_M.
  destruct (ai_logic_imported st); [done|]. by destruct (api_key_rejected key).
Qed.

Lemma api_key_accepted (inp : inputs) :
  api_key_rejected (GEMINI_API_KEY inp) = false -> api_key_set inp = true.
Proof.
  unfold api_key_rejected, api_key_set. destruct (GEMINI_API_KEY inp); [|done].
  intros [_ H]%orb_false_elim. by rewrite H.
Qed.

Lemma session_init_dark_mode (st : process W) :
  script_session (session_state st) ->
  exists st',
    session_init "dark_mode" (SBool true) st = (Done tt, st', [])
    /\ script_session (session_state st')
    /\ world st' = world st
    /\ _gemini_model_instance st' = _gemini_model_instance st.
Proof.
  intros HS. unfold session_init, session_write. run_M.
  destruct (session_state st !! "dark_mode").
  - by exists st.
  - eexists. split; [reflexivity|]. cbn [session_state set_session].
    split; [|done]. by apply script_session_insert_other.
Qed.

Lemma main_safe (inp : inputs) (st : process W) :
  script_session (session_state st) ->
  exists r st' tr,
    main genai json_loads container_repr iframe_src text_prompt structured_prompt
      inp st = (r, st', tr)
    /\ script_session (session_state st')
    /\ match r with
       | Done _ => initialised (session_state st')
       | Error e =>
           (e = Exn RuntimeError api_key_error_message
            /\ ai_logic_imported st = false
            /\ api_key_rejected (GEMINI_API_KEY inp) = true)
           \/ exn_class_of e = AttributeError \/ e = unicode_encode_error
       | Halt StopException => ai_logic_imported st = true /\ api_key_set inp = false
       | Halt RerunException => clear_all_button inp = true
       end
    /\ (map_lineage_button inp = false \/ strip (etl_code_input inp) = [] ->
        world st' = world st /\ Forall ui_event tr).
Proof.
  intros HS. unfold main.
  assert (forall st0 : process W,
            session_state st0 = session_state st -> world st0 = world st ->
            (api_key_set inp = false -> ai_logic_imported st = true) ->
            exists r st' tr,
              (session_init "dark_mode" (SBool true);;;
               (if negb (api_key_set inp)
                then emit (st_warning key_warning);;;
                     emit (st_info key_info);;; halt StopException
                else after_key_check genai json_loads container_repr iframe_src
                       text_prompt structured_prompt inp)) st0 = (r, st', tr)
              /\ script_session (session_state st')
              /\ match r with
                 | Done _ => initialised (session_state st')
                 | Error e =>
                     exn_class_of e = AttributeError \/ e = unicode_encode_error
                 | Halt StopException =>
                     ai_logic_imported st = true /\ api_key_set inp = false
                 | Halt RerunException => clear_all_button inp = true
                 end
              /\ (map_lineage_button inp = false \/ strip (etl_code_input inp) = [] ->
                  world st' = world st /\ Forall ui_event tr)) as Hrest.
  { intros st0 Hs0 Hw0 Hkey. rewrite <- Hs0 in HS.
    destruct (session_init_dark_mode st0 HS) as (st1 & R1 & HS1 & W1 & _).
    rewrite (bind_run _ _ _ _ _ _ R1).
    destruct (api_key_set inp) eqn:Hset; cbn [negb].
    - destruct (after_key_check_safe inp st1 HS1) as (r & st' & tr & R & HS' & Hr & Hq).
      rewrite R. exists r, st', tr. split; [reflexivity|]. split; [done|]. split.
      + destruct r as [[]|e|c]; try done. by destruct Hr as [-> ?].
      + intros H. destruct (Hq H) as (Hw & _ & Hui). split; [congruence | done].
    - eexists _, _, _. split; [reflexivity|]. split; [done|]. split; [auto|].
      intros _. split; [congruence|]. repeat constructor. }
  unfold bind at 1. rewrite import_ai_logic_run.
  destruct (ai_logic_imported st) eqn:Himp.
  - destruct (Hrest st eq_refl eq_refl (fun _ => eq_refl))
      as (r & st' & tr & R & HS' & Hr & Hq).
    rewrite R. exists r, st', tr. split; [reflexivity|]. split; [done|].
    split; [|done]. destruct r as [[]|e|[]]; auto.
  - destruct (api_key_rejected (GEMINI_API_KEY inp)) eqn:Hrej.
    + eexists _, _, _. split; [reflexivity|]. split; [done|]. split; [by left|].
      intros _. split; [done | constructor].
    + destruct (Hrest (set_imported true (set_instance None st)) eq_refl eq_refl)
        as (r & st' & tr & R & HS' & Hr & Hq).
      { intros H. rewrite (api_key_accepted _ Hrej) in H. discriminate. }
      rewrite R. exists r, st', tr. split; [reflexivity|]. split; [done|].
      split; [|done]. destruct r as [[]|e|[]]; auto.
Qed.

(** X19. The download section with truthy data and a non-empty
    report.  When the report encodes, both buttons are offered, the
    Markdown button carries bytes that decode as UTF-8 to the report
    itself, and the report holds no surrogate.  Otherwise the section
    raises UnicodeEncodeError before it shows anything, and the report
    holds a surrogate (or a code point above U+10FFFF). *)
Theorem download_section_outcomes (data : json) (report : pystr) (st : process W) :
  truthy data = true -> report <> [] ->
  match encode_utf8 report with
  | Some md =>
      render_download_section data report st
      = (Done tt, st,
         [st_download_button (u "⬇️ Download Markdown Report") md
            (u "data_lineage_report.md") (u "text/markdown") (u "download_md_report");
          st_download_button (u "⬇️ Download Structured JSON")
            (map byte_of_N (dumps (Some 2%nat) data))
            (u "data_lineage_structured.json") (u "application/json")
            (u "download_json_report")])
      /\ decode_utf8 false md = Some report
      /\ Forall (fun c => is_surrogate c = false /\ c < 0x110000) report
  | None =>
      render_download_section data report st = (Error unicode_encode_error, st, [])
      /\ Exists (fun c => is_surrogate c = true \/ 0x110000 <= c) report
  end.
Proof.
  intros Hdata Hreport. destruct (encode_utf8 report) as [md|] eqn:Henc.
  - split; [by apply render_download_section_offers|].
    split; [by apply decode_encode_utf8 | by eapply encode_utf8_Some].
  - split; [|by apply encode_utf8_None].
    apply pystr_eqb_neq in Hreport.
    unfold render_download_section, encode. rewrite Hdata, Hreport. simpl.
    run_M. by rewrite Henc.
Qed.

(** X20. How a run of main.py can end, from a session state as the
    script keeps it (the empty one of a new session is such).  At the end
    the session state is again such a state.  A run that completes leaves
    both keys of the lineage data set.  The only exceptions are the
    RuntimeError of the import (first run, key rejected), an
    AttributeError (of an answer that is no dictionary, or of the handler
    of a blocked prompt in the gateway) and the UnicodeEncodeError of the
    Markdown download: no KeyError and no error of a value of the wrong
    type.  [st.stop()] ends the run only when
    ai_logic was imported before and the key check of main.py fails;
    [st.rerun()] only when the clear button was clicked. *)
Theorem script_failures (inp : inputs) (st : process W) :
  script_session (session_state st) ->
  let '(r, st', _) :=
    main genai json_loads container_repr iframe_src text_prompt structured_prompt
      inp st in
  script_session (session_state st')
  /\ match r with
     | Done _ => initialised (session_state st')
     | Error e =>
         (e = Exn RuntimeError api_key_error_message
          /\ ai_logic_imported st = false
          /\ api_key_rejected (GEMINI_API_KEY inp) = true)
         \/ exn_class_of e = AttributeError \/ e = unicode_encode_error
     | Halt StopException => ai_logic_imported st = true /\ api_key_set inp = false
     | Halt RerunException => clear_all_button inp = true
     end.
Proof.
  intros HS. destruct (main_safe inp st HS) as (r & st' & tr & -> & H1 & H2 & _).
  by split.
Qed.

(** X21. Without a click on the map-lineage button, or with a click on
    empty or whitespace-only code, a run of main.py sends nothing to the
    provider: its state is as before and every event is an event of the
    page.  Importing ai_logic and rendering the page list no models. *)
Theorem provider_is_asked_on_a_click_only (inp : inputs) (st : process W) :
  script_session (session_state st) ->
  map_lineage_button inp = false \/ strip (etl_code_input inp) = [] ->
  let '(_, st', tr) :=
    main genai json_loads container_repr iframe_src text_prompt structured_prompt
      inp st in
  world st' = world st /\ Forall ui_event tr.
Proof.
  intros HS Hq. destruct (main_safe inp st HS) as (r & st' & tr & -> & _ & _ & H).
  by apply H.
Qed.

(** X15. A click with pasted code, both calls returning and the
    structured answer a dictionary without truthy [error]: the handler
    returns, the report is stored under [lineage_text_output] as the text
    call gave it, the dictionary under [structured_lineage_data]; no other
    key of the session state changes, and the events are those of the two
    calls, in this order. *)
Theorem answers_are_stored input report (d : dict) (st st2 st4 : process W) tr2 tr4 :
  strip input <> [] ->
  truthy_opt (dict_get (u "error") d) = false ->
  let st1 :=
    set_session (<["structured_lineage_data" := SJson (JObj [])]>
                   (<["lineage_text_output" := SStr []]> (session_state st))) st in
  ask_gemini_text genai (text_prompt input) st1 = (Done report, st2, tr2) ->
  let st3 :=
    set_session (<["lineage_text_output" := SStr report]> (session_state st2)) st2 in
  ask_gemini_structured genai json_loads (structured_prompt input) response_schema st3
  = (Done (JObj d), st4, tr4) ->
  exists st',
    handler input st = (Done tt, st', tr2 ++ tr4)
    /\ session_state st' !! "lineage_text_output" = Some (SStr report)
    /\ session_state st' !! "structured_lineage_data" = Some (SJson (JObj d))
    /\ (forall k, k <> "lineage_text_output" -> k <> "structured_lineage_data" ->
        session_state st' !! k = session_state st !! k)
    /\ world st' = world st4
    /\ _gemini_model_instance st' = _gemini_model_instance st4.
Proof.
  intros Hinput Herr st1 Htext st3 Hstruct.
  rewrite (handler_run input report (JObj d) st st2 st4 tr2 tr4 Hinput Htext Hstruct).
  rewrite Herr. eexists. split; [reflexivity|]. cbn [session_state set_session].
  split; [|split; [|split]].
  - rewrite lookup_insert_ne by done. by rewrite lookup_insert_eq.
  - by rewrite lookup_insert_eq.
  - intros k H1 H2. by rewrite !lookup_insert_ne.
  - done.
Qed.

(** X16. A structured answer that is no dictionary (a list, a string,
    a number, null) is stored before it is inspected: the handler raises
    AttributeError with the answer left under [structured_lineage_data].
    From a session state that holds a truthy such answer, every later run
    of the display section raises again in the graph renderer, after the
    text report and before the download buttons and the clear button are
    shown. *)
Theorem answer_that_is_no_dictionary input report v (st st2 st4 : process W) tr2 tr4 :
  strip input <> [] ->
  match v with JObj _ => False | _ => True end ->
  let st1 :=
    set_session (<["structured_lineage_data" := SJson (JObj [])]>
                   (<["lineage_text_output" := SStr []]> (session_state st))) st in
  ask_gemini_text genai (text_prompt input) st1 = (Done report, st2, tr2) ->
  let st3 :=
    set_session (<["lineage_text_output" := SStr report]> (session_state st2)) st2 in
  ask_gemini_structured genai json_loads (structured_prompt input) response_schema st3
  = (Done v, st4, tr4) ->
  (exists st',
     handler input st = (Error no_attribute_get, st', tr2 ++ tr4)
     /\ session_state st' !! "lineage_text_output" = Some (SStr report)
     /\ session_state st' !! "structured_lineage_data" = Some (SJson v))
  /\ (truthy v = true ->
      forall (inp : inputs) (st' : process W) text,
        session_state st' !! "lineage_text_output" = Some (SStr text) ->
        session_state st' !! "structured_lineage_data" = Some (SJson v) ->
        exists tr,
          display_output_section inp st' = (Error no_attribute_get, st', tr)
          /\ Forall (fun ev => match ev with
                               | st_iframe _ | st_download_button _ _ _ _ _ => False
                               | _ => True
                               end) tr).
Proof.
  intros Hinput Hv st1 Htext st3 Hstruct. split.
  - rewrite (handler_run input report v st st2 st4 tr2 tr4 Hinput Htext Hstruct).
    destruct v as [| | | | |d]; try done;
      (eexists; split; [reflexivity|]; cbn [session_state set_session]; split;
       [rewrite lookup_insert_ne by done; by rewrite lookup_insert_eq
       | by rewrite lookup_insert_eq]).
  - intros Htruthy inp st' text Htext' Hdata.
    unfold App.display_output_section.
    rewrite (bind_run _ _ _ _ _ _ (read_str_run _ _ _ Htext')).
    rewrite (bind_run _ _ _ _ _ _ (read_json_run _ _ _ Hdata)).
    rewrite Htruthy, orb_true_r.
    rewrite (bind_run _ _ _ _ _ _ (render_lineage_output_run _ _)).
    assert (render_lineage_graph container_repr iframe_src v st'
            = (Error no_attribute_get, st', [])) as Hg.
    { unfold render_lineage_graph. rewrite Htruthy. by destruct v. }
    unfold bind at 1. rewrite Hg. eexists. split; [reflexivity|].
    rewrite !app_nil_l, app_nil_r.
    destruct (startswith sentinel text), (pystr_eqb text []);
      repeat constructor.
Qed.

(** X18. The gateway and the display agree on the sentinel: whenever
    [ask_gemini_text] returns a text and the call did not go through, the
    text is shown by [render_lineage_output] as the failure message with
    the hint, never as a report.  The call returns a text unless the
    handler of a blocked prompt raises its AttributeError. *)
Theorem failed_text_call_is_displayed_as_error prompt (st : process W) :
  match ask_gemini_text genai prompt st with
  | (Done s, _, _) =>
      text_call_succeeds genai prompt st s
      \/ forall st'' : process W,
           render_lineage_output s st''
           = (Done tt, st'',
              [st_error (u "Failed to generate lineage map: " ++ s);
               st_info (u "Please ensure your API key is correctly configured and the input code is valid. If the issue persists, try simplifying the code snippet.")])
  | (Error e, _, _) => text_call_escapes genai prompt st e
  | (Halt _, _, _) => False
  end.
Proof.
  pose proof (ask_gemini_text_outcome genai prompt st) as Hout.
  destruct (ask_gemini_text genai prompt st) as [[[s|e|c] st'] tr]; [|done..].
  destruct Hout as [H|H]; [by left|]. right. intros st''.
  rewrite render_lineage_output_run. by rewrite H.
Qed.

(** X17. The dark-mode lines store the toggle and go on: as long as
    [_prev_dark_mode_state] is not in the session state they never ask
    for a rerun and never write that key, so its absence is kept, and
    neither the provider state nor the model handle is touched. *)
Theorem dark_mode_toggle_never_reruns (inp : inputs) (st : process W) :
  session_state st !! "_prev_dark_mode_state" = None ->
  exists st',
    dark_mode_section inp st = (Done tt, st', [])
    /\ session_state st' = <["dark_mode" := SBool (dark_mode_toggle inp)]> (session_state st)
    /\ session_state st' !! "_prev_dark_mode_state" = None
    /\ world st' = world st
    /\ _gemini_model_instance st' = _gemini_model_instance st.
Proof.
  intros Hprev. rewrite (dark_mode_section_run _ _ Hprev).
  eexists. split; [reflexivity|]. cbn [session_state set_session]. repeat split.
  by rewrite lookup_insert_ne.
Qed.

End Script.

Lemma script_session_empty : script_session ∅.
Proof. repeat split; intros v H; by rewrite lookup_empty in H. Qed.

Lemma answers_are_stored_witness :
  exists st' tr,
    demo_handler mapped_reply (u "SELECT a AS b FROM t") demo_process
    = (Done tt, st', tr)
    /\ session_state st' !! "lineage_text_output" = Some (SStr mapped_reply)
    /\ session_state st' !! "structured_lineage_data"
       = Some (SJson (JObj select_a_as_b)).
Proof.
  edestruct (answers_are_stored (demo_provider mapped_reply) loads_outcome
               (fun _ => []) (fun s => s) (fun s => s)
               (u "SELECT a AS b FROM t") mapped_reply select_a_as_b demo_process)
    as (st' & Hrun & H1 & H2 & _).
  - vm_compute. discriminate.
  - reflexivity.
  - vm_compute. reflexivity.
  - vm_compute. reflexivity.
  - exists st'. eexists. split; [exact Hrun|]. split; [exact H1 | exact H2].
Defined.

Lemma answer_that_is_no_dictionary_witness :
  exists st' tr,
    demo_handler list_reply (u "SELECT 1") demo_process
    = (Error no_attribute_get, st', tr)
    /\ session_state st' !! "structured_lineage_data" = Some (SJson (JArr [JInt 1])).
Proof.
  edestruct (answer_that_is_no_dictionary (demo_provider list_reply) loads_outcome
               (fun _ => []) (fun _ => Returns []) (fun s => s) (fun s => s)
               (u "SELECT 1") list_reply (JArr [JInt 1]) demo_process)
    as ((st' & Hrun & _ & H2) & _).
  - vm_compute. discriminate.
  - exact I.
  - vm_compute. reflexivity.
  - vm_compute. reflexivity.
  - exists st'. eexists. split; [exact Hrun | exact H2].
Defined.

Lemma dark_mode_toggle_never_reruns_witness :
  exists st', dark_mode_section no_click demo_process = (Done tt, st', []).
Proof.
  destruct (dark_mode_toggle_never_reruns no_click demo_process) as (st' & H & _).
  - vm_compute. reflexivity.
  - by exists st'.
Defined.

Lemma download_section_outcomes_witness :
  render_download_section (JObj select_a_as_b) lone_surrogate demo_process
  = (Error unicode_encode_error, demo_process, []).
Proof.
  refine (proj1 (download_section_outcomes (JObj select_a_as_b) lone_surrogate
                   demo_process _ _)).
  - reflexivity.
  - discriminate.
Defined.

Lemma script_failures_witness :
  exists st' tr,
    demo_main no_click fresh_process = (Done tt, st', tr)
    /\ initialised (session_state st').
Proof.
  pose proof (script_failures (demo_provider []) loads_outcome (fun _ => [])
                (fun _ => Returns []) (fun s => s) (fun s => s) no_click
                fresh_process script_session_empty) as H.
  unfold demo_main.
  destruct (main _ _ _ _ _ _ no_click fresh_process) as [[r st'] tr] eqn:E.
  assert (r = Done tt) as -> by (vm_compute in E; congruence).
  exists st', tr. split; [reflexivity | exact (proj2 H)].
Defined.

Lemma provider_is_asked_on_a_click_only_witness :
  Forall ui_event (demo_main no_click fresh_process).2.
Proof.
  pose proof (provider_is_asked_on_a_click_only (demo_provider []) loads_outcome
                (fun _ => []) (fun _ => Returns []) (fun s => s) (fun s => s)
                no_click fresh_process script_session_empty (or_introl eq_refl)) as H.
  unfold demo_main.
  destruct (main _ _ _ _ _ _ no_click fresh_process) as [[r st'] tr].
  exact (proj2 H).
Defined.

End ScriptFacts.
